(** * Xilinx performance monitor: report parsing, collection and dashboard

    A shallow embedding of [performance_monitor.py] and the properties of
    its report parsers, report collector and HTML dashboard.

    Conventions of the embedding.
    - Report text is a [string]; its characters are the code points below
      256.  On that range Python's [\d] is the ten ASCII digits and [\s] is
      the twelve code points listed in [is_space].
    - An exception is a value of [exn]; a function that may raise returns
      a [result].
    - A Python [float] is a binary64 number, [spec_float] of the standard
      library; [float(...)] rounds the decimal it reads to the nearest
      binary64 number, ties to even.
    - A Python [dict] used as a struct is a record; a [dict] used as a
      mapping is an association list in insertion order.
    - A report file is the text read from it; a directory lists its
      regular files, named as on a POSIX file system.  The module [Disk]
      has the directory with entries that cannot be read, and the
      collector over it.
    - [int(...)] raises on more than [max_str_digits] digits, as
      [int.__repr__] does on an integer of more.
    - The JSON document is the tree of its tokens, [doc]: [json.dump]
      writes the literals of numbers, strings and keys, and [json.load]
      reads them.
    - The functions of the dashboard are actions on the list of files
      written; the calls into the plotting library are parameters of the
      section that holds them.  A file written inside the output
      directory is written; the creation of that directory and the
      opening of the export file, at paths the user gives, can fail, and
      are parameters of [main]. *)

From Stdlib Require Import ZArith List String Ascii Bool Lia DecimalString.
From Stdlib Require Import Floats.SpecFloat.
From Stdlib Require DecimalFacts DecimalPos DecimalN.
Import ListNotations.

Local Open Scope string_scope.
Local Open Scope Z_scope.

(** ** Exceptions and results *)

Inductive exn : Type :=
| ValueError
| TypeError
| KeyError
| OverflowError
| OSError.        (* or a subclass: [FileNotFoundError], [PermissionError]... *)

Inductive result (A : Type) : Type :=
| Ok (a : A)
| Raise (e : exn).

Arguments Ok {A} a.
Arguments Raise {A} e.

Definition bind {A B : Type} (r : result A) (k : A -> result B) : result B :=
  match r with
  | Ok a => k a
  | Raise e => Raise e
  end.

Notation "x <- r ;; k" := (bind r (fun x => k))
  (at level 61, r at next level, right associativity).

(** ** Characters *)

Definition code (c : ascii) : Z := Z.of_N (N_of_ascii c).

(** [\d] on code points below 256. *)
Definition is_digit (c : ascii) : bool :=
  (48 <=? code c) && (code c <=? 57).

(** [\s] on code points below 256: tab, line feed, vertical tab, form
    feed, carriage return, the four separators 28..31, space, next line
    (133) and no-break space (160). *)
Definition is_space (c : ascii) : bool :=
  let n := code c in
  ((9 <=? n) && (n <=? 13)) || ((28 <=? n) && (n <=? 32))
  || (n =? 133) || (n =? 160).

(** [[\d.]] *)
Definition is_digit_or_dot (c : ascii) : bool :=
  is_digit c || Ascii.eqb c ".".

(** [[-\d.]] *)
Definition is_signed_char (c : ascii) : bool :=
  Ascii.eqb c "-" || is_digit c || Ascii.eqb c ".".

Fixpoint all_chars (p : ascii -> bool) (s : string) : bool :=
  match s with
  | EmptyString => true
  | String c s' => p c && all_chars p s'
  end.

(** The next character of [s], if any, is not in the class [p]. *)
Definition stops (p : ascii -> bool) (s : string) : bool :=
  match s with
  | EmptyString => true
  | String c _ => negb (p c)
  end.

Definition is_empty (s : string) : bool :=
  match s with
  | EmptyString => true
  | String _ _ => false
  end.

(** ** Regular expressions: the fragment used by the report patterns

    Every pattern of the parsers is a sequence of literal characters,
    greedy repetitions of a one-character class ([\s*], [\d+]) and
    capturing groups around such a repetition ([(\d+)], [([\d.]+)],
    [([-\d.]+)]). *)

Inductive atom : Type :=
| Lit (c : ascii)               (* one literal character *)
| Star (p : ascii -> bool)      (* [p*], greedy *)
| Plus (p : ascii -> bool)      (* [p+], greedy *)
| Group (p : ascii -> bool).    (* [(p+)], greedy, capturing *)

Definition regex : Type := list atom.

Fixpoint lits (s : string) : regex :=
  match s with
  | EmptyString => []
  | String c s' => Lit c :: lits s'
  end.

(** [greedy p s k] runs the continuation [k taken rest] on the splits
    [s = taken ++ rest] with [taken] in the class [p], the longest [taken]
    first, and backtracks to a shorter one when [k] fails. *)
Fixpoint greedy {R : Type} (p : ascii -> bool) (s : string)
    (k : string -> string -> option R) : option R :=
  match s with
  | String c s' =>
      if p c then
        match greedy p s' (fun taken rest => k (String c taken) rest) with
        | Some r => Some r
        | None => k EmptyString s
        end
      else k EmptyString s
  | EmptyString => k EmptyString s
  end.

(** [match_here r s]: the pattern [r] matches a prefix of [s]; the result
    lists the captured groups, group 1 first. *)
Fixpoint match_here (r : regex) (s : string) : option (list string) :=
  match r with
  | [] => Some []
  | Lit c :: r' =>
      match s with
      | String c' s' => if Ascii.eqb c c' then match_here r' s' else None
      | EmptyString => None
      end
  | Star p :: r' => greedy p s (fun _ rest => match_here r' rest)
  | Plus p :: r' =>
      greedy p s (fun taken rest =>
        if is_empty taken then None else match_here r' rest)
  | Group p :: r' =>
      greedy p s (fun taken rest =>
        if is_empty taken then None
        else option_map (cons taken) (match_here r' rest))
  end.

(** [re.search]: the match at the leftmost position that has one. *)
Fixpoint re_search (r : regex) (s : string) : option (list string) :=
  match match_here r s with
  | Some g => Some g
  | None =>
      match s with
      | String _ s' => re_search r s'
      | EmptyString => None
      end
  end.

(** [m.group(i)], for [i] from 1. *)
Definition group (i : nat) (m : list string) : string :=
  nth (pred i) m EmptyString.

(** ** [int] and [float] of a captured text *)

Definition digit_value (c : ascii) : Z := code c - 48.

Fixpoint digits_value (acc : Z) (s : string) : Z :=
  match s with
  | EmptyString => acc
  | String c s' => digits_value (10 * acc + digit_value c) s'
  end.

(** The longest prefix of [s] in the class [p], and what follows it. *)
Fixpoint span (p : ascii -> bool) (s : string) : string * string :=
  match s with
  | String c s' =>
      if p c then let (a, b) := span p s' in (String c a, b)
      else (EmptyString, s)
  | EmptyString => (EmptyString, EmptyString)
  end.

Definition strip_sign (s : string) : bool * string :=
  match s with
  | String "-" t => (true, t)
  | String "+" t => (false, t)
  | _ => (false, s)
  end.

(** [sys.int_info.default_max_str_digits]: the most digits that [int]
    converts. *)
Definition max_str_digits : Z := 4300.

(** The text has more digits than [int] converts; leading zeros count. *)
Definition too_long (digits : string) : bool :=
  max_str_digits <? Z.of_nat (String.length digits).

(** [int(s)] on texts made of an optional sign and digits; the other
    spellings [int] accepts (surrounding blanks, underscores) contain
    characters that no capture class of the patterns has.  Python's
    integers are unbounded, but [int] raises [ValueError] on a text of
    more than [max_str_digits] digits, the sign not counted. *)
Definition py_int (s : string) : result Z :=
  let (neg, body) := strip_sign s in
  if negb (is_empty body) && all_chars is_digit body
  then
    if too_long body then Raise ValueError
    else Ok (if neg then - digits_value 0 body else digits_value 0 body)
  else Raise ValueError.

Definition prec : Z := 53.
Definition emax : Z := 1024.

(** The binary64 number nearest to [m / 10^k], ties to even, with the
    sign [neg]; [m] is not negative. *)
Definition float_of_decimal (neg : bool) (m : Z) (k : nat) : spec_float :=
  match m with
  | Z0 => S754_zero neg
  | _ =>
      let '(q, e, l) := SFdiv_core_binary prec emax m 0 (10 ^ Z.of_nat k) 0 in
      binary_round_aux prec emax neg q e l
  end.

(** [float(s)] on texts made of an optional sign, digits and decimal
    points: digits with at most one point among them, and at least one
    digit.  The other spellings [float] accepts (exponents, [inf], [nan],
    blanks, underscores) contain characters that no capture class of the
    patterns has. *)
Definition py_float (s : string) : result spec_float :=
  let (neg, body) := strip_sign s in
  let (ip, rest) := span is_digit body in
  match rest with
  | EmptyString =>
      if is_empty ip then Raise ValueError
      else Ok (float_of_decimal neg (digits_value 0 ip) 0)
  | String "." fp =>
      if all_chars is_digit fp && negb (is_empty ip && is_empty fp)
      then Ok (float_of_decimal neg (digits_value 0 (ip ++ fp))
                 (String.length fp))
      else Raise ValueError
  | String _ _ => Raise ValueError
  end.

(** ** Parsed records *)

(** A number that is an [int] or a [float]: the zero defaults are [int]s,
    the converted percentages and powers are [float]s. *)
Inductive pynum : Type :=
| PyInt (z : Z)
| PyFloat (f : spec_float).

Record timing_data : Type := {
  wns : option spec_float;        (* Worst Negative Slack *)
  tns : option spec_float;        (* Total Negative Slack *)
  whs : option spec_float;        (* Worst Hold Slack *)
  ths : option spec_float;        (* Total Hold Slack *)
  failing_endpoints : Z
}.

Record resource : Type := {
  used : Z;
  available : Z;
  utilization : pynum
}.

Record util_data : Type := {
  lut : resource;
  ff : resource;
  bram : resource;
  dsp : resource
}.

Record power_data : Type := {
  total_power : pynum;
  dynamic_power : pynum;
  static_power : pynum;
  confidence : string
}.

(** ** The report patterns *)

(** [LABEL\s*([-\d.]+)] *)
Definition slack_re (label : string) : regex :=
  (lits label ++ [Star is_space; Group is_signed_char])%list.

(** [LABEL\s*\|\s*(\d+)\s*\|\s*\d+\s*\|\s*(\d+)\s*\|\s*([\d.]+)] *)
Definition row_re (label : string) : regex :=
  (lits label ++
   [Star is_space; Lit "|"; Star is_space; Group is_digit;
    Star is_space; Lit "|"; Star is_space; Plus is_digit;
    Star is_space; Lit "|"; Star is_space; Group is_digit;
    Star is_space; Lit "|"; Star is_space; Group is_digit_or_dot])%list.

(** [LABEL\s*\|\s*([\d.]+)] *)
Definition power_re (label : string) : regex :=
  (lits label ++
   [Star is_space; Lit "|"; Star is_space; Group is_digit_or_dot])%list.

Definition wns_re : regex := slack_re "WNS(ns):".
Definition tns_re : regex := slack_re "TNS(ns):".
Definition whs_re : regex := slack_re "WHS(ns):".
Definition endpoints_re : regex :=
  (lits "Failing Endpoints:" ++ [Star is_space; Group is_digit])%list.

Definition lut_re : regex := row_re "CLB LUTs".
Definition ff_re : regex := row_re "CLB Registers".
Definition bram_re : regex := row_re "Block RAM Tile".
Definition dsp_re : regex := row_re "DSPs".

Definition total_re : regex := power_re "Total On-Chip Power (W)".
Definition dynamic_re : regex := power_re "Dynamic (W)".
Definition static_re : regex := power_re "Device Static (W)".

(** ** The three parsers

    Each takes the text read from the report file. *)

Definition default_timing : timing_data :=
  {| wns := None; tns := None; whs := None; ths := None;
     failing_endpoints := 0 |}.

Definition parse_timing_report (content : string) : result timing_data :=
  let timing_data := default_timing in
  (* Extract WNS *)
  timing_data <-
    match re_search wns_re content with
    | Some wns_match =>
        v <- py_float (group 1 wns_match) ;;
        Ok {| wns := Some v; tns := tns timing_data; whs := whs timing_data;
              ths := ths timing_data;
              failing_endpoints := failing_endpoints timing_data |}
    | None => Ok timing_data
    end ;;
  (* Extract TNS *)
  timing_data <-
    match re_search tns_re content with
    | Some tns_match =>
        v <- py_float (group 1 tns_match) ;;
        Ok {| wns := wns timing_data; tns := Some v; whs := whs timing_data;
              ths := ths timing_data;
              failing_endpoints := failing_endpoints timing_data |}
    | None => Ok timing_data
    end ;;
  (* Extract WHS *)
  timing_data <-
    match re_search whs_re content with
    | Some whs_match =>
        v <- py_float (group 1 whs_match) ;;
        Ok {| wns := wns timing_data; tns := tns timing_data; whs := Some v;
              ths := ths timing_data;
              failing_endpoints := failing_endpoints timing_data |}
    | None => Ok timing_data
    end ;;
  (* Extract failing endpoints *)
  timing_data <-
    match re_search endpoints_re content with
    | Some endpoints_match =>
        n <- py_int (group 1 endpoints_match) ;;
        Ok {| wns := wns timing_data; tns := tns timing_data;
              whs := whs timing_data; ths := ths timing_data;
              failing_endpoints := n |}
    | None => Ok timing_data
    end ;;
  Ok timing_data.

Definition default_resource : resource :=
  {| used := 0; available := 0; utilization := PyInt 0 |}.

Definition default_util : util_data :=
  {| lut := default_resource; ff := default_resource;
     bram := default_resource; dsp := default_resource |}.

(** The three assignments made from one matched table row. *)
Definition resource_of_match (m : list string) : result resource :=
  u <- py_int (group 1 m) ;;
  a <- py_int (group 2 m) ;;
  p <- py_float (group 3 m) ;;
  Ok {| used := u; available := a; utilization := PyFloat p |}.

Definition parse_utilization_report (content : string) : result util_data :=
  let util_data := default_util in
  (* Parse LUT utilization *)
  util_data <-
    match re_search lut_re content with
    | Some lut_match =>
        r <- resource_of_match lut_match ;;
        Ok {| lut := r; ff := ff util_data; bram := bram util_data;
              dsp := dsp util_data |}
    | None => Ok util_data
    end ;;
  (* Parse FF utilization *)
  util_data <-
    match re_search ff_re content with
    | Some ff_match =>
        r <- resource_of_match ff_match ;;
        Ok {| lut := lut util_data; ff := r; bram := bram util_data;
              dsp := dsp util_data |}
    | None => Ok util_data
    end ;;
  (* Parse BRAM utilization *)
  util_data <-
    match re_search bram_re content with
    | Some bram_match =>
        r <- resource_of_match bram_match ;;
        Ok {| lut := lut util_data; ff := ff util_data; bram := r;
              dsp := dsp util_data |}
    | None => Ok util_data
    end ;;
  (* Parse DSP utilization *)
  util_data <-
    match re_search dsp_re content with
    | Some dsp_match =>
        r <- resource_of_match dsp_match ;;
        Ok {| lut := lut util_data; ff := ff util_data;
              bram := bram util_data; dsp := r |}
    | None => Ok util_data
    end ;;
  Ok util_data.

Definition default_power : power_data :=
  {| total_power := PyInt 0; dynamic_power := PyInt 0;
     static_power := PyInt 0; confidence := "Low" |}.

Definition parse_power_report (content : string) : result power_data :=
  let power_data := default_power in
  (* Extract total power *)
  power_data <-
    match re_search total_re content with
    | Some total_match =>
        v <- py_float (group 1 total_match) ;;
        Ok {| total_power := PyFloat v;
              dynamic_power := dynamic_power power_data;
              static_power := static_power power_data;
              confidence := confidence power_data |}
    | None => Ok power_data
    end ;;
  (* Extract dynamic power *)
  power_data <-
    match re_search dynamic_re content with
    | Some dynamic_match =>
        v <- py_float (group 1 dynamic_match) ;;
        Ok {| total_power := total_power power_data;
              dynamic_power := PyFloat v;
              static_power := static_power power_data;
              confidence := confidence power_data |}
    | None => Ok power_data
    end ;;
  (* Extract static power *)
  power_data <-
    match re_search static_re content with
    | Some static_match =>
        v <- py_float (group 1 static_match) ;;
        Ok {| total_power := total_power power_data;
              dynamic_power := dynamic_power power_data;
              static_power := PyFloat v;
              confidence := confidence power_data |}
    | None => Ok power_data
    end ;;
  Ok power_data.

(** ** Mappings in insertion order *)

Definition dict (V : Type) : Type := list (string * V).

(** [d[k] = v]: a key already present keeps its place. *)
Fixpoint dict_set {V : Type} (k : string) (v : V) (d : dict V) : dict V :=
  match d with
  | [] => [(k, v)]
  | (k', v') :: d' =>
      if String.eqb k' k then (k', v) :: d'
      else (k', v') :: dict_set k v d'
  end.

Fixpoint dict_get {V : Type} (k : string) (d : dict V) : option V :=
  match d with
  | [] => None
  | (k', v') :: d' => if String.eqb k' k then Some v' else dict_get k d'
  end.

(** [list(d.values())[-1]] of a mapping that is not empty; [None] stands
    for the empty mapping, which the callers test first. *)
Fixpoint latest {V : Type} (d : dict V) : option V :=
  match d with
  | [] => None
  | [(_, v)] => Some v
  | _ :: d' => latest d'
  end.

(** ** The report collector *)

(** A directory: the names of its files, in the order the file system
    enumerates them, each with the text of the file. *)
Definition directory : Type := list (string * string).

Inductive glob_token : Type :=
| Any                     (* [*] *)
| Chr (c : ascii).

Fixpoint glob_of (pattern : string) : list glob_token :=
  match pattern with
  | EmptyString => []
  | String "*" p => Any :: glob_of p
  | String c p => Chr c :: glob_of p
  end.

(** Some suffix of [name] satisfies [k]. *)
Fixpoint some_suffix (k : string -> bool) (name : string) : bool :=
  k name ||
  match name with
  | String _ name' => some_suffix k name'
  | EmptyString => false
  end.

(** The whole name matches the pattern; letters match case-sensitively. *)
Fixpoint glob_match (pat : list glob_token) (name : string) : bool :=
  match pat with
  | [] => is_empty name
  | Chr c :: pat' =>
      match name with
      | String c' name' => Ascii.eqb c c' && glob_match pat' name'
      | EmptyString => false
      end
  | Any :: pat' => some_suffix (glob_match pat') name
  end.

(** [reports_dir.glob(pattern)]: the entries whose name matches, whatever
    they hold. *)
Definition glob {A : Type} (pattern : string)
    (reports_dir : list (string * A)) : list (string * A) :=
  filter (fun f => glob_match (glob_of pattern) (fst f)) reports_dir.

(** [name.rfind(c)]; [None] stands for -1. *)
Fixpoint rfind (c : ascii) (name : string) : option nat :=
  match name with
  | EmptyString => None
  | String c' name' =>
      match rfind c name' with
      | Some i => Some (S i)
      | None => if Ascii.eqb c' c then Some O else None
      end
  end.

(** [Path.stem]: the name without its last suffix. *)
Definition stem (name : string) : string :=
  match rfind "." name with
  | Some i =>
      if (0 <? i)%nat && (i <? String.length name - 1)%nat
      then substring 0 i name
      else name
  | None => name
  end.

Module Results.
Record t : Type := {
  timestamp : string;
  timing : dict timing_data;
  utilization : dict util_data;
  power : dict power_data
}.
End Results.

(** A [for] loop whose body may raise. *)
Fixpoint for_each {A S : Type} (xs : list A) (body : A -> S -> result S)
    (s : S) : result S :=
  match xs with
  | [] => Ok s
  | x :: xs' => s' <- body x s ;; for_each xs' body s'
  end.

(** [now] is the text of [datetime.now().isoformat()]. *)
Definition analyze_all_reports (reports_dir : directory) (now : string)
    : result Results.t :=
  (* Find and parse timing reports *)
  let timing_files := glob "*timing*.rpt" reports_dir in
  timing <-
    for_each timing_files
      (fun timing_file d =>
         v <- parse_timing_report (snd timing_file) ;;
         Ok (dict_set (stem (fst timing_file)) v d)) [] ;;
  (* Find and parse utilization reports *)
  let util_files := glob "*utilization*.rpt" reports_dir in
  utilization <-
    for_each util_files
      (fun util_file d =>
         v <- parse_utilization_report (snd util_file) ;;
         Ok (dict_set (stem (fst util_file)) v d)) [] ;;
  (* Find and parse power reports *)
  let power_files := glob "*power*.rpt" reports_dir in
  power <-
    for_each power_files
      (fun power_file d =>
         v <- parse_power_report (snd power_file) ;;
         Ok (dict_set (stem (fst power_file)) v d)) [] ;;
  Ok {| Results.timestamp := now; Results.timing := timing;
        Results.utilization := utilization; Results.power := power |}.

(** ** Reports on disk

    The parsers above start from the text of a report, and the collector
    from a directory of texts.  On disk a name that a pattern matches may
    also be a sub-directory, a file that may not be read, or bytes that
    are no text: [open] or [read], the first step of each parser, then
    raises.  The module gives the parsers and the collector from the
    entries of the directory. *)
Module Disk.

Inductive entry : Type :=
| Text (content : string)      (* a file that is read, with its text *)
| Unreadable (e : exn).        (* an entry that [open] or [read] refuses *)

Definition directory : Type := list (string * entry).

(** [with open(report_file, 'r') as f: content = f.read()] *)
Definition read (report_file : entry) : result string :=
  match report_file with
  | Text content => Ok content
  | Unreadable e => Raise e
  end.

Definition parse_timing_report (report_file : entry) : result timing_data :=
  content <- read report_file ;;
  parse_timing_report content.

Definition parse_utilization_report (report_file : entry)
    : result util_data :=
  content <- read report_file ;;
  parse_utilization_report content.

Definition parse_power_report (report_file : entry) : result power_data :=
  content <- read report_file ;;
  parse_power_report content.

Definition analyze_all_reports (reports_dir : directory) (now : string)
    : result Results.t :=
  (* Find and parse timing reports *)
  let timing_files := glob "*timing*.rpt" reports_dir in
  timing <-
    for_each timing_files
      (fun timing_file d =>
         v <- parse_timing_report (snd timing_file) ;;
         Ok (dict_set (stem (fst timing_file)) v d)) [] ;;
  (* Find and parse utilization reports *)
  let util_files := glob "*utilization*.rpt" reports_dir in
  utilization <-
    for_each util_files
      (fun util_file d =>
         v <- parse_utilization_report (snd util_file) ;;
         Ok (dict_set (stem (fst util_file)) v d)) [] ;;
  (* Find and parse power reports *)
  let power_files := glob "*power*.rpt" reports_dir in
  power <-
    for_each power_files
      (fun power_file d =>
         v <- parse_power_report (snd power_file) ;;
         Ok (dict_set (stem (fst power_file)) v d)) [] ;;
  Ok {| Results.timestamp := now; Results.timing := timing;
        Results.utilization := utilization; Results.power := power |}.

End Disk.

(** ** Comparing and formatting numbers *)

(** A [float] against an [int], compared exactly as Python does; [None]
    when the float is not a number. *)
Definition float_compare (f : spec_float) (z : Z) : option comparison :=
  match f with
  | S754_nan => None
  | S754_infinity s => Some (if s then Lt else Gt)
  | S754_zero _ => Some (0 ?= z)
  | S754_finite s m e =>
      let n := if s then Zneg m else Zpos m in
      Some (if 0 <=? e then n * 2 ^ e ?= z else n ?= z * 2 ^ (- e))
  end.

Definition num_compare (x : pynum) (z : Z) : option comparison :=
  match x with
  | PyInt a => Some (a ?= z)
  | PyFloat f => float_compare f z
  end.

(** [x < z] *)
Definition num_lt (x : pynum) (z : Z) : bool :=
  match num_compare x z with
  | Some Lt => true
  | _ => false
  end.

(** [x >= z] *)
Definition num_ge (x : pynum) (z : Z) : bool :=
  match num_compare x z with
  | Some Eq | Some Gt => true
  | _ => false
  end.

(** [x >= z] where [x] may be [None]. *)
Definition slack_ge (x : option spec_float) (z : Z) : result bool :=
  match x with
  | None => Raise TypeError
  | Some f => Ok (num_ge (PyFloat f) z)
  end.

Definition str_of_Z (z : Z) : string :=
  DecimalString.NilZero.string_of_int (Z.to_int z).

(** [n / d] rounded to the nearest integer, ties to even; [0 <= n],
    [0 < d]. *)
Definition div_half_even (n d : Z) : Z :=
  let q := n / d in
  match 2 * (n mod d) ?= d with
  | Lt => q
  | Gt => q + 1
  | Eq => if Z.even q then q else q + 1
  end.

Definition tail (s : string) : string :=
  match s with
  | EmptyString => EmptyString
  | String _ s' => s'
  end.

(** The digits of [n / 10^d] with [d] decimals; [0 <= n]. *)
Definition fixed_digits (d : nat) (n : Z) : string :=
  let p := 10 ^ Z.of_nat d in
  match d with
  | O => str_of_Z n
  | S _ => str_of_Z (n / p) ++ "." ++ tail (str_of_Z (p + n mod p))
  end.

(** [format(f, '.df')] of a float. *)
Definition format_float (d : nat) (f : spec_float) : string :=
  match f with
  | S754_nan => "nan"
  | S754_infinity s => (if s then "-" else "") ++ "inf"
  | S754_zero s => (if s then "-" else "") ++ fixed_digits d 0
  | S754_finite s m e =>
      let p := 10 ^ Z.of_nat d in
      let n := if 0 <=? e then Zpos m * 2 ^ e * p
               else div_half_even (Zpos m * p) (2 ^ (- e)) in
      (if s then "-" else "") ++ fixed_digits d n
  end.

(** [float(z)] of an [int]. *)
Definition float_of_int (z : Z) : result spec_float :=
  match binary_normalize prec emax z 0 false with
  | S754_infinity _ => Raise OverflowError
  | f => Ok f
  end.

(** [format(x, '.df')] of an [int] or a [float]. *)
Definition format_fixed (d : nat) (x : pynum) : result string :=
  match x with
  | PyInt z => f <- float_of_int z ;; Ok (format_float d f)
  | PyFloat f => Ok (format_float d f)
  end.

(** [format(x, '.df')] where [x] may be [None]. *)
Definition format_slack (d : nat) (x : option spec_float) : result string :=
  match x with
  | None => Raise TypeError
  | Some f => Ok (format_float d f)
  end.

(** [str.upper] on the unaccented letters. *)
Definition upper_char (c : ascii) : ascii :=
  if (97 <=? code c) && (code c <=? 122)
  then ascii_of_N (N_of_ascii c - 32)
  else c.

Fixpoint upper (s : string) : string :=
  match s with
  | EmptyString => EmptyString
  | String c s' => String (upper_char c) (upper s')
  end.

(** ** The JSON document of the export

    [json.dump] writes a [dict] as an object with the keys in insertion
    order, [None] as [null], an [int] or [float] as a number and a [str]
    as a string.  The value written is kept as a tree; the literals that
    the library writes for its numbers, texts and keys are those of
    [json_dump] below. *)

#[warnings="-register-all"]
Inductive json : Type :=
| JNull
| JInt (z : Z)
| JFloat (f : spec_float)
| JString (s : string)
| JObject (members : list (string * json)).

Definition json_slack (x : option spec_float) : json :=
  match x with
  | None => JNull
  | Some f => JFloat f
  end.

Definition json_num (x : pynum) : json :=
  match x with
  | PyInt z => JInt z
  | PyFloat f => JFloat f
  end.

Definition json_timing (t : timing_data) : json :=
  JObject [("wns", json_slack (wns t)); ("tns", json_slack (tns t));
           ("whs", json_slack (whs t)); ("ths", json_slack (ths t));
           ("failing_endpoints", JInt (failing_endpoints t))].

Definition json_resource (r : resource) : json :=
  JObject [("used", JInt (used r)); ("available", JInt (available r));
           ("utilization", json_num (utilization r))].

Definition json_util (u : util_data) : json :=
  JObject [("lut", json_resource (lut u)); ("ff", json_resource (ff u));
           ("bram", json_resource (bram u)); ("dsp", json_resource (dsp u))].

Definition json_power (p : power_data) : json :=
  JObject [("total_power", json_num (total_power p));
           ("dynamic_power", json_num (dynamic_power p));
           ("static_power", json_num (static_power p));
           ("confidence", JString (confidence p))].

Definition json_dict {V : Type} (f : V -> json) (d : dict V) : json :=
  JObject (map (fun kv => (fst kv, f (snd kv))) d).

Definition json_results (results : Results.t) : json :=
  JObject [("timestamp", JString (Results.timestamp results));
           ("timing", json_dict json_timing (Results.timing results));
           ("utilization", json_dict json_util (Results.utilization results));
           ("power", json_dict json_power (Results.power results))].

(** The member [k] of an object. *)
Definition member (k : string) (j : json) : option json :=
  match j with
  | JObject ms => dict_get k ms
  | _ => None
  end.

(** ** Files written *)

Inductive artifact : Type :=
| Html (text : string)
| Png
| Json (document : json).

Definition file : Type := (string * artifact)%type.

(** An action takes the files written so far and returns them with the
    files it wrote, and the exception it raised if it did. *)
Definition action : Type := list file -> list file * option exn.

Definition skip : action := fun fs => (fs, None).

Definition raising (e : exn) : action := fun fs => (fs, Some e).

Definition write (name : string) (a : artifact) : action :=
  fun fs => ((fs ++ [(name, a)])%list, None).

Definition seq (a b : action) : action :=
  fun fs =>
    match a fs with
    | (fs', None) => b fs'
    | (fs', Some e) => (fs', Some e)
    end.

Notation "a ;;; b" := (seq a b) (at level 62, right associativity).

Definition call (r : option exn) : action :=
  match r with
  | None => skip
  | Some e => raising e
  end.

(** ** The HTML dashboard *)

Definition dq : string := String "034" EmptyString.

Definition html_head (timestamp : string) : string :=
  "
<!DOCTYPE html>
<html>
<head>
    <title>Xilinx Design Performance Dashboard</title>
    <style>
        body { font-family: Arial, sans-serif; margin: 20px; }
        .header { background-color: #f0f0f0; padding: 20px; border-radius: 5px; }
        .section { margin: 20px 0; padding: 15px; border: 1px solid #ddd; border-radius: 5px; }
        .metrics { display: flex; justify-content: space-around; flex-wrap: wrap; }
        .metric { text-align: center; margin: 10px; padding: 15px; background-color: #f9f9f9; border-radius: 5px; }
        .metric-value { font-size: 24px; font-weight: bold; }
        .metric-label { font-size: 14px; color: #666; }
        .pass { color: green; }
        .fail { color: red; }
        .warning { color: orange; }
        img { max-width: 100%; height: auto; margin: 10px 0; }
    </style>
</head>
<body>
    <div class=" ++ dq ++ "header" ++ dq ++ ">
        <h1>Xilinx Design Performance Dashboard</h1>
        <p>Generated on: " ++ timestamp ++ "</p>
    </div>
    
    <div class=" ++ dq ++ "section" ++ dq ++ ">
        <h2>Timing Summary</h2>
        <div class=" ++ dq ++ "metrics" ++ dq ++ ">
".

Definition timing_tiles (wns_class wns tns_class tns eps_class failing_eps : string) : string :=
  "
            <div class=" ++ dq ++ "metric" ++ dq ++ ">
                <div class=" ++ dq ++ "metric-value " ++ wns_class ++ dq ++ ">" ++ wns ++ " ns</div>
                <div class=" ++ dq ++ "metric-label" ++ dq ++ ">Worst Negative Slack</div>
            </div>
            <div class=" ++ dq ++ "metric" ++ dq ++ ">
                <div class=" ++ dq ++ "metric-value " ++ tns_class ++ dq ++ ">" ++ tns ++ " ns</div>
                <div class=" ++ dq ++ "metric-label" ++ dq ++ ">Total Negative Slack</div>
            </div>
            <div class=" ++ dq ++ "metric" ++ dq ++ ">
                <div class=" ++ dq ++ "metric-value " ++ eps_class ++ dq ++ ">" ++ failing_eps ++ "</div>
                <div class=" ++ dq ++ "metric-label" ++ dq ++ ">Failing Endpoints</div>
            </div>
".

Definition html_timing_end : string :=
  "
        </div>
        <img src=" ++ dq ++ "timing_analysis.png" ++ dq ++ " alt=" ++ dq ++ "Timing Analysis" ++ dq ++ ">
    </div>
    
    <div class=" ++ dq ++ "section" ++ dq ++ ">
        <h2>Resource Utilization</h2>
        <div class=" ++ dq ++ "metrics" ++ dq ++ ">
".

Definition util_tile (util_class util_pct resource : string) : string :=
  "
            <div class=" ++ dq ++ "metric" ++ dq ++ ">
                <div class=" ++ dq ++ "metric-value " ++ util_class ++ dq ++ ">" ++ util_pct ++ "%</div>
                <div class=" ++ dq ++ "metric-label" ++ dq ++ ">" ++ resource ++ " Utilization</div>
            </div>
".

Definition html_util_end : string :=
  "
        </div>
        <img src=" ++ dq ++ "utilization.png" ++ dq ++ " alt=" ++ dq ++ "Resource Utilization" ++ dq ++ ">
    </div>
    
    <div class=" ++ dq ++ "section" ++ dq ++ ">
        <h2>Power Analysis</h2>
        <div class=" ++ dq ++ "metrics" ++ dq ++ ">
".

Definition power_tiles (total_power dynamic_power static_power : string) : string :=
  "
            <div class=" ++ dq ++ "metric" ++ dq ++ ">
                <div class=" ++ dq ++ "metric-value" ++ dq ++ ">" ++ total_power ++ " W</div>
                <div class=" ++ dq ++ "metric-label" ++ dq ++ ">Total Power</div>
            </div>
            <div class=" ++ dq ++ "metric" ++ dq ++ ">
                <div class=" ++ dq ++ "metric-value" ++ dq ++ ">" ++ dynamic_power ++ " W</div>
                <div class=" ++ dq ++ "metric-label" ++ dq ++ ">Dynamic Power</div>
            </div>
            <div class=" ++ dq ++ "metric" ++ dq ++ ">
                <div class=" ++ dq ++ "metric-value" ++ dq ++ ">" ++ static_power ++ " W</div>
                <div class=" ++ dq ++ "metric-label" ++ dq ++ ">Static Power</div>
            </div>
".

Definition html_tail : string :=
  "
        </div>
        <img src=" ++ dq ++ "power_analysis.png" ++ dq ++ " alt=" ++ dq ++ "Power Analysis" ++ dq ++ ">
    </div>
    
</body>
</html>
".

(** ['pass' if x >= 0 else 'fail'] *)
Definition slack_class (x : option spec_float) : result string :=
  b <- slack_ge x 0 ;; Ok (if b then "pass" else "fail").

(** ['pass' if util_pct < 80 else 'warning' if util_pct < 95 else 'fail'] *)
Definition util_class (util_pct : pynum) : string :=
  if num_lt util_pct 80 then "pass"
  else if num_lt util_pct 95 then "warning"
  else "fail".

Definition resources : list (string * (util_data -> resource)) :=
  [("lut", lut); ("ff", ff); ("bram", bram); ("dsp", dsp)].

Definition _generate_html_dashboard (results : Results.t) : action :=
  let html :=
    let html_content := html_head (Results.timestamp results) in
    (* Add timing metrics *)
    html_content <-
      match latest (Results.timing results) with
      | Some latest_timing =>
          let wns := wns latest_timing in
          let tns := tns latest_timing in
          let failing_eps := failing_endpoints latest_timing in
          wns_class <- slack_class wns ;;
          tns_class <- slack_class tns ;;
          let eps_class := if failing_eps =? 0 then "pass" else "fail" in
          wns_text <- format_slack 3 wns ;;
          tns_text <- format_slack 3 tns ;;
          Ok (html_content ++
              timing_tiles wns_class wns_text tns_class tns_text
                eps_class (str_of_Z failing_eps))
      | None => Ok html_content
      end ;;
    let html_content := html_content ++ html_timing_end in
    (* Add utilization metrics *)
    html_content <-
      match latest (Results.utilization results) with
      | Some latest_util =>
          for_each resources
            (fun resource html_content =>
               let util_pct := utilization (snd resource latest_util) in
               let util_class := util_class util_pct in
               util_text <- format_fixed 1 util_pct ;;
               Ok (html_content ++
                   util_tile util_class util_text (upper (fst resource))))
            html_content
      | None => Ok html_content
      end ;;
    let html_content := html_content ++ html_util_end in
    (* Add power metrics *)
    html_content <-
      match latest (Results.power results) with
      | Some latest_power =>
          let total_power := total_power latest_power in
          let dynamic_power := dynamic_power latest_power in
          let static_power := static_power latest_power in
          total_text <- format_fixed 2 total_power ;;
          dynamic_text <- format_fixed 2 dynamic_power ;;
          static_text <- format_fixed 2 static_power ;;
          Ok (html_content ++ power_tiles total_text dynamic_text static_text)
      | None => Ok html_content
      end ;;
    let html_content := html_content ++ html_tail in
    Ok html_content in
  match html with
  | Ok html_content => write "dashboard.html" (Html html_content)
  | Raise e => raising e
  end.

Definition is_nil {A : Type} (l : list A) : bool :=
  match l with
  | [] => true
  | _ :: _ => false
  end.

(** [list(d.keys())[-1]] of a mapping that is not empty. *)
Definition latest_key {V : Type} (d : dict V) : string :=
  last (map fst d) EmptyString.

(** [x < z] where [x] may be [None]. *)
Definition slack_lt (x : option spec_float) (z : Z) : result bool :=
  match x with
  | None => Raise TypeError
  | Some f => Ok (num_lt (PyFloat f) z)
  end.

(** [['red' if w < 0 else 'green' for w in values]] *)
Fixpoint slack_colors (values : list (option spec_float))
    : result (list string) :=
  match values with
  | [] => Ok []
  | w :: values' =>
      below <- slack_lt w 0 ;;
      colors <- slack_colors values' ;;
      Ok ((if below then "red" else "green") :: colors)
  end.

(** [['red' if f > 0 else 'green' for f in failing_eps]] *)
Definition endpoint_colors (failing_eps : list Z) : list string :=
  map (fun f => if 0 <? f then "red" else "green") failing_eps.

Section Dashboard.

(** The calls into the plotting library, each with the exception it
    raises, if any: [plt.subplots] and [fig.suptitle] with the title of
    the figure; the drawing of one bar chart of the timing figure, given
    its title, the timing data and the colours of its bars, the last
    chart with the layout of the figure; the drawing of the utilization
    figure from the latest record and that of the power figure from the
    power data, each up to [plt.tight_layout]. *)
Variable plt_subplots : string -> option exn.
Variable plt_timing : string -> dict timing_data -> list string -> option exn.
Variable plt_utilization : util_data -> option exn.
Variable plt_power : dict power_data -> option exn.

(** [ax.bar(reports, values, color=[...])] and the calls that follow it on
    the same axis: the colours are computed first. *)
Definition bar_chart (title : string) (timing_data : dict timing_data)
    (colors : result (list string)) : action :=
  match colors with
  | Ok colors => call (plt_timing title timing_data colors)
  | Raise e => raising e
  end.

Definition _plot_timing_analysis (timing_data : dict timing_data) : action :=
  if is_nil timing_data then skip
  else
    call (plt_subplots "Timing Analysis Dashboard") ;;;
    (* WNS across different reports *)
    let wns_values := map (fun r => wns (snd r)) timing_data in
    bar_chart "Worst Negative Slack (WNS)" timing_data
      (slack_colors wns_values) ;;;
    (* TNS across different reports *)
    let tns_values := map (fun r => tns (snd r)) timing_data in
    bar_chart "Total Negative Slack (TNS)" timing_data
      (slack_colors tns_values) ;;;
    (* Hold timing *)
    let whs_values := map (fun r => whs (snd r)) timing_data in
    bar_chart "Worst Hold Slack (WHS)" timing_data
      (slack_colors whs_values) ;;;
    (* Failing endpoints *)
    let failing_eps := map (fun r => failing_endpoints (snd r)) timing_data in
    call (plt_timing "Failing Endpoints" timing_data
            (endpoint_colors failing_eps)) ;;;
    write "timing_analysis.png" Png.

Definition _plot_utilization (util_data : dict util_data) : action :=
  if is_nil util_data then skip
  else
    call (plt_subplots "Resource Utilization Dashboard") ;;;
    (* Get the latest utilization data *)
    let latest_report := latest_key util_data in
    if is_empty latest_report then skip
    else
      match dict_get latest_report util_data with
      | Some util =>
          call (plt_utilization util) ;;;
          write "utilization.png" Png
      | None => raising KeyError
      end.

Definition _plot_power_analysis (power_data : dict power_data) : action :=
  if is_nil power_data then skip
  else
    call (plt_subplots "Power Analysis Dashboard") ;;;
    (* Get the latest power data *)
    let latest_report := latest_key power_data in
    if is_empty latest_report then skip
    else
      call (plt_power power_data) ;;;
      write "power_analysis.png" Png.

(** The files are written under [output_dir]; the creation of that
    directory, with which the function starts, is the [mkdir] of [main]
    below. *)
Definition generate_performance_dashboard (results : Results.t) : action :=
  (* Create timing analysis plot *)
  _plot_timing_analysis (Results.timing results) ;;;
  (* Create utilization plot *)
  _plot_utilization (Results.utilization results) ;;;
  (* Create power analysis plot *)
  _plot_power_analysis (Results.power results) ;;;
  (* Generate HTML dashboard *)
  _generate_html_dashboard results.

End Dashboard.

(** The file holds the value given to [json.dump]; opening the file is
    the caller's [open_w] in [main]. *)
Definition save_results_json (results : Results.t) (output_file : string)
    : action :=
  write output_file (Json (json_results results)).

(** ** Notions used by the statements *)

Definition is_none {A : Type} (o : option A) : bool :=
  match o with
  | None => true
  | Some _ => false
  end.

(** The pattern [r] matches at no position of [pre ++ s] that lies in
    [pre]. *)
Fixpoint no_match_before (r : regex) (pre s : string) : bool :=
  match pre with
  | EmptyString => true
  | String c pre' =>
      is_none (match_here r (pre ++ s)) && no_match_before r pre' s
  end.

(** The pattern matches and the conversion of its capture raises. *)
Definition rejects {A : Type} (re : regex) (conv : list string -> result A)
    (content : string) : Prop :=
  exists m e, re_search re content = Some m /\ conv m = Raise e.

Definition float_group (i : nat) (m : list string) : result spec_float :=
  py_float (group i m).

Inductive slack : Type := WNS | TNS | WHS.

Definition slack_label (f : slack) : string :=
  match f with
  | WNS => "WNS(ns):"
  | TNS => "TNS(ns):"
  | WHS => "WHS(ns):"
  end.

Definition slack_field (f : slack) : timing_data -> option spec_float :=
  match f with
  | WNS => wns
  | TNS => tns
  | WHS => whs
  end.

Inductive resource_kind : Type := LUT | FF | BRAM | DSP.

Definition row_label (k : resource_kind) : string :=
  match k with
  | LUT => "CLB LUTs"
  | FF => "CLB Registers"
  | BRAM => "Block RAM Tile"
  | DSP => "DSPs"
  end.

Definition resource_field (k : resource_kind) : util_data -> resource :=
  match k with
  | LUT => lut
  | FF => ff
  | BRAM => bram
  | DSP => dsp
  end.

Inductive power_kind : Type := Total | Dynamic | Static.

Definition power_label (k : power_kind) : string :=
  match k with
  | Total => "Total On-Chip Power (W)"
  | Dynamic => "Dynamic (W)"
  | Static => "Device Static (W)"
  end.

Definition power_field (k : power_kind) : power_data -> pynum :=
  match k with
  | Total => total_power
  | Dynamic => dynamic_power
  | Static => static_power
  end.

(** A numeric text of the class [p]: a run of its characters, not empty,
    that ends where [post] begins. *)
Definition token (p : ascii -> bool) (num post : string) : bool :=
  all_chars p num && negb (is_empty num) && stops p post.

(** A table row after its label: four cells, each behind a bar, with
    blanks around the bars. *)
Record row : Type := {
  gap1 : string; gap2 : string; used_text : string;
  gap3 : string; gap4 : string; unused_text : string;
  gap5 : string; gap6 : string; available_text : string;
  gap7 : string; gap8 : string; utilization_text : string
}.

Definition row_string (t : row) : string :=
  gap1 t ++ "|" ++ gap2 t ++ used_text t ++
  gap3 t ++ "|" ++ gap4 t ++ unused_text t ++
  gap5 t ++ "|" ++ gap6 t ++ available_text t ++
  gap7 t ++ "|" ++ gap8 t ++ utilization_text t.

Definition row_blanks (t : row) : bool :=
  all_chars is_space (gap1 t) && all_chars is_space (gap2 t) &&
  all_chars is_space (gap3 t) && all_chars is_space (gap4 t) &&
  all_chars is_space (gap5 t) && all_chars is_space (gap6 t) &&
  all_chars is_space (gap7 t) && all_chars is_space (gap8 t).

Definition digits (s : string) : bool :=
  all_chars is_digit s && negb (is_empty s).

(** One step of a parser: search, convert the capture when there is a
    match. *)
Definition extract {A : Type} (re : regex) (conv : list string -> result A)
    (content : string) : result (option A) :=
  match re_search re content with
  | Some m => a <- conv m ;; Ok (Some a)
  | None => Ok None
  end.

Definition or_default {A : Type} (d : A) (o : option A) : A :=
  match o with
  | Some a => a
  | None => d
  end.

Definition int_group (i : nat) (m : list string) : result Z :=
  py_int (group i m).

(** The conversions that make a parser raise: [float] rejects the slack
    that the first match of a slack pattern captures or [int] the count
    of failing endpoints; [int] or [float] rejects a capture of the first
    match of a row pattern; [float] rejects the power that the first
    match of a power pattern captures. *)
Definition timing_rejects (content : string) : Prop :=
  (exists f, rejects (slack_re (slack_label f)) (float_group 1) content) \/
  rejects endpoints_re (int_group 1) content.

Definition utilization_rejects (content : string) : Prop :=
  exists k, rejects (row_re (row_label k)) resource_of_match content.

Definition power_rejects (content : string) : Prop :=
  exists k, rejects (power_re (power_label k)) (float_group 1) content.

(** The run returns a value that satisfies [P], or it raises and [excuse]
    holds. *)
Definition yields {R : Type} (run : result R) (P : R -> Prop)
    (excuse : Prop) : Prop :=
  match run with
  | Ok r => P r
  | Raise _ => excuse
  end.

(** No match of [r] starts with a character of the class [p]. *)
Definition starts_outside (p : ascii -> bool) (r : regex) : Prop :=
  forall c s, p c = true -> match_here r (String c s) = None.

(** The parts of a table row that stand before each of its captured
    cells. *)
Definition before_used (t : row) : string :=
  gap1 t ++ "|" ++ gap2 t.

Definition before_available (t : row) : string :=
  before_used t ++ used_text t ++
  gap3 t ++ "|" ++ gap4 t ++ unused_text t ++
  gap5 t ++ "|" ++ gap6 t.

Definition before_utilization (t : row) : string :=
  before_available t ++ available_text t ++ gap7 t ++ "|" ++ gap8 t.

Definition lut_row_example : row :=
  {| gap1 := " "; gap2 := " "; used_text := "1000";
     gap3 := " "; gap4 := " "; unused_text := "0";
     gap5 := " "; gap6 := " "; available_text := "5000";
     gap7 := " "; gap8 := " "; utilization_text := "20.0" |}.

(** The value is the float that is not a number. *)
Definition is_nan (x : pynum) : bool :=
  match x with
  | PyFloat S754_nan => true
  | _ => false
  end.

(** The keys of an object, in order. *)
Definition keys (j : json) : list string :=
  match j with
  | JObject ms => map fst ms
  | _ => []
  end.

(** The member reached from [j] through the keys of [path]. *)
Fixpoint at_path (path : list string) (j : json) : option json :=
  match path with
  | [] => Some j
  | k :: path' =>
      match member k j with
      | Some j' => at_path path' j'
      | None => None
      end
  end.

Definition results_example (t : timing_data) : Results.t :=
  {| Results.timestamp := "2024-05-01T12:00:00";
     Results.timing := [("post_route_timing", t)];
     Results.utilization := []; Results.power := [] |}.

(** [pat] is a prefix of [s]. *)
Fixpoint starts_with (pat s : string) : bool :=
  match pat, s with
  | EmptyString, _ => true
  | String a pat', String b s' => Ascii.eqb a b && starts_with pat' s'
  | String _ _, EmptyString => false
  end.

(** The number of places of [s] where [pat] starts. *)
Fixpoint count_sub (pat s : string) : nat :=
  ((if starts_with pat s then 1 else 0) +
   match s with
   | String _ s' => count_sub pat s'
   | EmptyString => 0
   end)%nat.

(** The opening tag of a metric tile, and of a metric section. *)
Definition tile_open : string := "<div class=" ++ dq ++ "metric" ++ dq ++ ">".

Definition metrics_open : string :=
  "<div class=" ++ dq ++ "metrics" ++ dq ++ ">".

(** [pat] and [s] differ at a place that both have. *)
Fixpoint differs (pat s : string) : bool :=
  match pat, s with
  | String a pat', String b s' =>
      if Ascii.eqb a b then differs pat' s' else true
  | _, _ => false
  end.

(** No occurrence of [pat] starts in [a], whatever follows [a]. *)
Fixpoint no_start (pat a : string) : bool :=
  match a with
  | EmptyString => true
  | String _ a' => differs pat a && no_start pat a'
  end.

Definition not_lt (c : ascii) : bool := negb (Ascii.eqb c "<").

(** The page of a dashboard without reports: the frames of the three
    sections and nothing between them. *)
Definition empty_page (now : string) : string :=
  ((html_head now ++ html_timing_end) ++ html_util_end) ++ html_tail.

(** One pass of the collector: the files that match the pattern, parsed
    and stored under their stems. *)
Definition collect_loop {A V : Type} (pattern : string)
    (parser : A -> result V) (reports_dir : list (string * A))
    : result (dict V) :=
  for_each (glob pattern reports_dir)
    (fun f d => v <- parser (snd f) ;; Ok (dict_set (stem (fst f)) v d)) [].

(** The name holds the keyword, letter case included. *)
Definition contains (keyword name : string) : bool :=
  some_suffix (starts_with keyword) name.

(** The name ends in the given extension. *)
Definition ends_with (extension name : string) : bool :=
  some_suffix (fun t => String.eqb t extension) name.

(** The collection of one category as the specification words it: the
    files whose name holds the keyword and ends in [.rpt], each parsed
    with the parser of the category and stored under the stem of its
    name. *)
Fixpoint collect {V : Type} (keyword : string) (parser : string -> result V)
    (reports_dir : directory) : result (dict V) :=
  match reports_dir with
  | [] => Ok []
  | (name, content) :: rest =>
      if contains keyword name && ends_with ".rpt" name then
        v <- parser content ;;
        d <- collect keyword parser rest ;;
        Ok ((stem name, v) :: d)
      else collect keyword parser rest
  end.

Definition not_dot (c : ascii) : bool := negb (Ascii.eqb c ".").

Definition not_star (c : ascii) : bool := negb (Ascii.eqb c "*").

Fixpoint chrs (s : string) : list glob_token :=
  match s with
  | EmptyString => []
  | String c s' => Chr c :: chrs s'
  end.


Definition directory_example : directory :=
  [("post_route_timing.rpt", "WNS(ns): 1.5");
   ("Timing.rpt", "WNS(ns): 9");
   ("timing.txt", "WNS(ns): 8");
   ("power_timing.rpt", "Dynamic (W) | 0.5 WNS(ns): -2")].

(** A fact about one character, by cases on its eight bits. *)
Ltac by_cases_on_char c :=
  destruct c as [[] [] [] [] [] [] [] []]; vm_compute; congruence.

(** The name is that of a report of some category. *)
Definition is_report (name : string) : bool :=
  ends_with ".rpt" name &&
  (contains "timing" name || contains "utilization" name
   || contains "power" name).

(** The name is that of a report of the category with this keyword. *)
Definition in_category (keyword name : string) : bool :=
  contains keyword name && ends_with ".rpt" name.

(** Both slacks that the dashboard shows are known. *)
Definition slacks_known (t : timing_data) : bool :=
  match wns t, tns t with
  | Some _, Some _ => true
  | _, _ => false
  end.

(** The three chart files, and a list of files that holds charts only. *)
Definition chart_names : list string :=
  ["timing_analysis.png"; "utilization.png"; "power_analysis.png"].

Definition charts_only (written : list file) : Prop :=
  Forall (fun f => In (fst f) chart_names /\ snd f = Png) written.

(** The action adds charts, and nothing else, to the files written. *)
Definition adds_charts (a : action) : Prop :=
  forall fs, exists charts,
    charts_only charts /\ fst (a fs) = (fs ++ charts)%list.


(** ** The command line

    [main] from the parsed arguments on: [reports_dir] is the content of
    the directory named by [--reports-dir], [output_dir] the value of
    [--output-dir] and [json_output] that of [--json-output], [None] when
    the option is absent.  A run yields the files written under
    [output_dir], the file written at the path [json_output], the lines
    printed and the exception that ended it, if any. *)

Record run : Type := {
  under_output_dir : list file;
  exported : list file;
  printed : list string;
  raised : option exn
}.

Section Main.

Variable plt_subplots : string -> option exn.
Variable plt_timing : string -> dict timing_data -> list string -> option exn.
Variable plt_utilization : util_data -> option exn.
Variable plt_power : dict power_data -> option exn.

(** The file system where [main] creates something beside the files of
    the dashboard: [Path(output_dir).mkdir(exist_ok=True)], the first
    step of [generate_performance_dashboard], and
    [open(output_file, 'w')], the first step of [save_results_json]; each
    with the exception it raises, if any. *)
Variable mkdir : string -> option exn.
Variable open_w : string -> option exn.

Definition main (reports_dir : Disk.directory) (output_dir : string)
    (json_output : option string) (now : string) : run :=
  match Disk.analyze_all_reports reports_dir now with
  | Raise e =>
      {| under_output_dir := []; exported := []; printed := [];
         raised := Some e |}
  | Ok results =>
      (* Generate dashboard *)
      match (call (mkdir output_dir) ;;;
             generate_performance_dashboard plt_subplots plt_timing
               plt_utilization plt_power results) [] with
      | (written, Some e) =>
          {| under_output_dir := written; exported := []; printed := [];
             raised := Some e |}
      | (written, None) =>
          (* Save JSON results if requested *)
          let export :=
            match json_output with
            | Some path =>
                if is_empty path then skip
                else call (open_w path) ;;; save_results_json results path
            | None => skip
            end in
          match export [] with
          | (saved, Some e) =>
              {| under_output_dir := written; exported := saved;
                 printed := []; raised := Some e |}
          | (saved, None) =>
              {| under_output_dir := written; exported := saved;
                 printed :=
                   ["Dashboard generated in: " ++ output_dir;
                    "Open " ++ output_dir
                    ++ "/dashboard.html in your browser"];
                 raised := None |}
          end
      end
  end.
End Main.






(** The number of occurrences of the character [c] in [s]. *)
Fixpoint count_char (c : ascii) (s : string) : nat :=
  match s with
  | EmptyString => O
  | String c' s' => (if Ascii.eqb c c' then 1 else 0) + count_char c s'
  end.

Fixpoint has_digit (s : string) : bool :=
  match s with
  | EmptyString => false
  | String c s' => is_digit c || has_digit s'
  end.

Definition after_first (s : string) : string :=
  match s with
  | EmptyString => EmptyString
  | String _ t => t
  end.

(** A text of digits, points and minus signs that spells no number
    without a sign: it holds a minus sign, two points or more, or no
    digit. *)
Definition unsigned_malformed (s : string) : bool :=
  (0 <? count_char "-" s)%nat || (1 <? count_char "." s)%nat
  || negb (has_digit s).

(** A text of digits, points and minus signs that spells no number: it
    holds a minus sign after its first character, two points or more, or
    no digit. *)
Definition malformed (s : string) : bool :=
  (0 <? count_char "-" (after_first s))%nat || (1 <? count_char "." s)%nat
  || negb (has_digit s).












(** The readable files of a directory on disk, with their texts, and a
    directory of texts as it is on disk. *)
Definition texts (reports_dir : Disk.directory) : directory :=
  flat_map
    (fun f =>
       match snd f with
       | Disk.Text content => [(fst f, content)]
       | Disk.Unreadable _ => []
       end) reports_dir.

Definition on_disk (reports_dir : directory) : Disk.directory :=
  map (fun f => (fst f, Disk.Text (snd f))) reports_dir.



(** ** The JSON document

    [json.dump] writes a value as a text and [json.load] reads a text as
    a value.  The document is the text up to the white space and the
    punctuation between its tokens: [null], the literal of a number, the
    literal of a string between its quotes, and objects with their
    members in order, each under the literal of its key.  The encoder is
    the one of [json.dump] with its defaults ([ensure_ascii],
    [allow_nan]); the decoder is the one of [json.load] with its
    defaults. *)
#[warnings="-register-all"]
Inductive doc : Type :=
| DNull
| DNumber (literal : string)
| DString (literal : string)
| DObject (members : list (string * doc)).

Definition backslash : ascii := "092"%char.
Definition quote : ascii := "034"%char.

(** One lower-case hexadecimal digit. *)
Definition hex_digit (n : Z) : ascii :=
  if n <? 10 then ascii_of_N (Z.to_N (48 + n))
  else ascii_of_N (Z.to_N (87 + n)).

(** The escape of one character: a short escape for the quote, the
    backslash and five control characters, [\u00xx] for the other
    characters outside the printable ASCII range, the character itself
    inside. *)
Definition escape_char (c : ascii) : string :=
  let n := code c in
  if n =? 34 then String backslash (String quote EmptyString)
  else if n =? 92 then String backslash (String backslash EmptyString)
  else if n =? 10 then String backslash "n"
  else if n =? 13 then String backslash "r"
  else if n =? 9 then String backslash "t"
  else if n =? 8 then String backslash "b"
  else if n =? 12 then String backslash "f"
  else if (n <? 32) || (126 <? n)
  then String backslash
         ("u00" ++ String (hex_digit (n / 16))
                     (String (hex_digit (n mod 16)) EmptyString))
  else String c EmptyString.

Fixpoint escape (s : string) : string :=
  match s with
  | EmptyString => EmptyString
  | String c s' => escape_char c ++ escape s'
  end.

(** The value of a hexadecimal digit of either case. *)
Definition hex_value (c : ascii) : option Z :=
  let n := code c in
  if (48 <=? n) && (n <=? 57) then Some (n - 48)
  else if (97 <=? n) && (n <=? 102) then Some (n - 87)
  else if (65 <=? n) && (n <=? 70) then Some (n - 55)
  else None.

Definition hex4 (a b c d : ascii) : option Z :=
  match hex_value a, hex_value b, hex_value c, hex_value d with
  | Some x, Some y, Some z, Some t => Some (((x * 16 + y) * 16 + z) * 16 + t)
  | _, _, _, _ => None
  end.

(** The character that a short escape stands for. *)
Definition short_escape (e : ascii) : option ascii :=
  let n := code e in
  if n =? 34 then Some quote
  else if n =? 92 then Some backslash
  else if n =? 47 then Some "/"%char
  else if n =? 98 then Some "008"%char
  else if n =? 102 then Some "012"%char
  else if n =? 110 then Some "010"%char
  else if n =? 114 then Some "013"%char
  else if n =? 116 then Some "009"%char
  else None.

(** The string that a literal stands for.  A quote or a control
    character that is not escaped, and an escape that is not one of the
    grammar, are errors ([JSONDecodeError], a [ValueError]); so is here an
    escape [\uxxxx] of a code point from 256 on, which is outside the
    characters of the embedding. *)
Fixpoint unescape (literal : string) : result string :=
  match literal with
  | EmptyString => Ok EmptyString
  | String c rest =>
      if Ascii.eqb c backslash then
        match rest with
        | String e rest' =>
            match short_escape e with
            | Some x => t <- unescape rest' ;; Ok (String x t)
            | None =>
                if Ascii.eqb e "u" then
                  match rest' with
                  | String h1 (String h2 (String h3 (String h4 rest''))) =>
                      match hex4 h1 h2 h3 h4 with
                      | Some n =>
                          if n <? 256
                          then t <- unescape rest'' ;;
                               Ok (String (ascii_of_N (Z.to_N n)) t)
                          else Raise ValueError
                      | None => Raise ValueError
                      end
                  | _ => Raise ValueError
                  end
                else Raise ValueError
            end
        | EmptyString => Raise ValueError
        end
      else if Ascii.eqb c quote || (code c <? 32) then Raise ValueError
      else t <- unescape rest ;; Ok (String c t)
  end.

(** [int.__repr__]: the decimal digits after the sign; [ValueError] when
    they are more than [max_str_digits]. *)
Definition int_repr (z : Z) : result string :=
  if too_long (str_of_Z (Z.abs z)) then Raise ValueError
  else Ok (str_of_Z z).

(** The binary64 number nearest to [m * 10 ^ e]. *)
Definition float_of_scientific (neg : bool) (m e : Z) : spec_float :=
  if 0 <=? e then float_of_decimal neg (m * 10 ^ e) 0
  else float_of_decimal neg m (Z.to_nat (- e)).

(** [x >= 10 ^ k] for [x = num / den]. *)
Definition ge_pow10 (num den k : Z) : bool :=
  if 0 <=? k then den * 10 ^ k <=? num else den <=? num * 10 ^ (- k).

Fixpoint raise_point (fuel : nat) (num den k : Z) : Z :=
  match fuel with
  | O => k
  | S fuel' =>
      if ge_pow10 num den k then raise_point fuel' num den (k + 1) else k
  end.

Fixpoint lower_point (fuel : nat) (num den k : Z) : Z :=
  match fuel with
  | O => k
  | S fuel' =>
      if ge_pow10 num den (k - 1) then k
      else lower_point fuel' num den (k - 1)
  end.

(** The position of the decimal point of [x = num / den > 0]: the [k]
    with [10 ^ (k - 1) <= x < 10 ^ k]. *)
Definition decimal_point (num den : Z) : Z :=
  let k0 := (Z.log2 num - Z.log2 den) * 30103 / 100000 in
  lower_point 4 num den (raise_point 4 num den k0).

(** The candidates with [n] digits for [x = num / den], whose decimal
    point is at [k]: the [n]-digit decimals just below and just above
    [x], each as its digits read as an integer; the one closer to [x]
    comes first. *)
Definition candidates (num den k : Z) (n : Z) : list Z :=
  let j := n - k in
  let N := if 0 <=? j then num * 10 ^ j else num in
  let D := if 0 <=? j then den else den * 10 ^ (- j) in
  let lo := N / D in
  let r := N mod D in
  if r =? 0 then [lo]
  else if 2 * r <? D then [lo; lo + 1]
  else if D <? 2 * r then [lo + 1; lo]
  else if Z.even lo then [lo; lo + 1] else [lo + 1; lo].

Definition same_float (a b : spec_float) : bool :=
  match SFcompare a b with
  | Some Eq => true
  | _ => false
  end.

(** The shortest decimal that [float] reads as [x = m * 2 ^ e], and the
    closest to [x] among the shortest: its digits as an integer and the
    power of ten that scales them. *)
Fixpoint shortest (fuel : nat) (n : Z) (x : spec_float) (num den k : Z)
    : Z * Z :=
  let found :=
    find (fun c => same_float (float_of_scientific false c (k - n)) x)
      (candidates num den k n) in
  match found with
  | Some c => (c, k - n)
  | None =>
      match fuel with
      | O => (hd 0 (candidates num den k n), k - n)
      | S fuel' => shortest fuel' (n + 1) x num den k
      end
  end.

(** The digits without their trailing zeros, and the zeros dropped. *)
Fixpoint strip_zeros (fuel : nat) (c e : Z) : Z * Z :=
  match fuel with
  | O => (c, e)
  | S fuel' =>
      if (c mod 10 =? 0) && (0 <? c) then strip_zeros fuel' (c / 10) (e + 1)
      else (c, e)
  end.

Fixpoint zeros (n : nat) : string :=
  match n with
  | O => EmptyString
  | S n' => String "0" (zeros n')
  end.

(** The exponent of the scientific notation: a sign and two digits at
    least. *)
Definition exponent_text (e : Z) : string :=
  (if e <? 0 then "-" else "+")
  ++ (if Z.abs e <? 10 then "0" else "") ++ str_of_Z (Z.abs e).

(** The text of the digits [ds], with the decimal point after the first
    [decpt] of them: the scientific notation when [decpt] is below -3 or
    above 16, the positional notation otherwise, with [.0] after an
    integer. *)
Definition format_short (ds : string) (decpt : Z) : string :=
  let n := Z.of_nat (String.length ds) in
  if (decpt <? -3) || (16 <? decpt) then
    substring 0 1 ds
    ++ (if 1 <? n then "." ++ substring 1 (String.length ds - 1) ds else "")
    ++ "e" ++ exponent_text (decpt - 1)
  else if decpt <=? 0 then "0." ++ zeros (Z.to_nat (- decpt)) ++ ds
  else if n <=? decpt then ds ++ zeros (Z.to_nat (decpt - n)) ++ ".0"
  else substring 0 (Z.to_nat decpt) ds ++ "."
       ++ substring (Z.to_nat decpt) (String.length ds - Z.to_nat decpt) ds.

(** [float.__repr__] *)
Definition float_repr (x : spec_float) : string :=
  match x with
  | S754_zero s => if s then "-0.0" else "0.0"
  | S754_infinity s => if s then "-inf" else "inf"
  | S754_nan => "nan"
  | S754_finite s m e =>
      let num := if 0 <=? e then Zpos m * 2 ^ e else Zpos m in
      let den := if 0 <=? e then 1 else 2 ^ (- e) in
      let k := decimal_point num den in
      let '(c, j) := shortest 16 1 (S754_finite false m e) num den k in
      let '(c, j) := strip_zeros 20 c j in
      let ds := str_of_Z c in
      (if s then "-" else "")
      ++ format_short ds (Z.of_nat (String.length ds) + j)
  end.

(** The text of a float in the document: the encoder writes the three
    values that are no numbers of the grammar itself. *)
Definition float_text (x : spec_float) : string :=
  match x with
  | S754_nan => "NaN"
  | S754_infinity false => "Infinity"
  | S754_infinity true => "-Infinity"
  | _ => float_repr x
  end.

(** The exponent part of a number literal, if it is one: nothing, or
    [e] or [E], an optional sign and digits. *)
Definition read_exponent (s : string) : option Z :=
  match s with
  | EmptyString => Some 0
  | String c t =>
      if Ascii.eqb c "e" || Ascii.eqb c "E" then
        let '(neg, ds) :=
          match t with
          | String "-" ds => (true, ds)
          | String "+" ds => (false, ds)
          | _ => (false, t)
          end in
        if digits ds
        then Some (if neg then - digits_value 0 ds else digits_value 0 ds)
        else None
      else None
  end.

(** The integer part of a number literal is [0] or starts with another
    digit. *)
Definition int_part_ok (ip : string) : bool :=
  match ip with
  | EmptyString => false
  | String "0" t => is_empty t
  | String _ _ => true
  end.

(** The value of a number literal: [int] of it when it has neither a
    fraction nor an exponent, [float] of it otherwise; the decoder takes
    the three names of the values that are no numbers as well. *)
Definition load_number (literal : string) : result json :=
  if String.eqb literal "NaN" then Ok (JFloat S754_nan)
  else if String.eqb literal "Infinity" then Ok (JFloat (S754_infinity false))
  else if String.eqb literal "-Infinity"
  then Ok (JFloat (S754_infinity true))
  else
    let '(neg, body) :=
      match literal with
      | String "-" body => (true, body)
      | _ => (false, literal)
      end in
    let '(ip, rest) := span is_digit body in
    if int_part_ok ip then
      match rest with
      | EmptyString => z <- py_int literal ;; Ok (JInt z)
      | String "." t =>
          let '(fp, rest') := span is_digit t in
          match read_exponent rest' with
          | Some e =>
              if is_empty fp then Raise ValueError
              else Ok (JFloat
                         (float_of_scientific neg
                            (digits_value 0 (ip ++ fp))
                            (e - Z.of_nat (String.length fp))))
          | None => Raise ValueError
          end
      | String _ _ =>
          match read_exponent rest with
          | Some e => Ok (JFloat (float_of_scientific neg
                                    (digits_value 0 ip) e))
          | None => Raise ValueError
          end
      end
    else Raise ValueError.

(** The members of an object, written or read one after the other. *)
Definition dump_members (dump : json -> result doc)
    : list (string * json) -> result (list (string * doc)) :=
  fix go (ms : list (string * json)) : result (list (string * doc)) :=
    match ms with
    | [] => Ok []
    | (k, v) :: ms' =>
        d <- dump v ;;
        rest <- go ms' ;;
        Ok ((escape k, d) :: rest)
    end.

(** [json.dump]: the document of a value. *)
Fixpoint json_dump (j : json) : result doc :=
  match j with
  | JNull => Ok DNull
  | JInt z => s <- int_repr z ;; Ok (DNumber s)
  | JFloat x => Ok (DNumber (float_text x))
  | JString s => Ok (DString (escape s))
  | JObject ms => ms' <- dump_members json_dump ms ;; Ok (DObject ms')
  end.

(** A member read after the members [d]: a key read twice keeps its
    place and takes the last value. *)
Definition load_members (load : doc -> result json)
    : list (string * doc) -> dict json -> result (dict json) :=
  fix go (ms : list (string * doc)) (d : dict json) : result (dict json) :=
    match ms with
    | [] => Ok d
    | (k, v) :: ms' =>
        key <- unescape k ;;
        value <- load v ;;
        go ms' (dict_set key value d)
    end.

(** [json.load]: the value of a document. *)
Fixpoint json_load (d : doc) : result json :=
  match d with
  | DNull => Ok JNull
  | DNumber literal => load_number literal
  | DString literal => s <- unescape literal ;; Ok (JString s)
  | DObject ms => d <- load_members json_load ms [] ;; Ok (JObject d)
  end.

(** The floats of a value. *)
Fixpoint floats (j : json) : list spec_float :=
  match j with
  | JFloat x => [x]
  | JObject ms => flat_map (fun kv : string * json => let (_, v) := kv in floats v) ms
  | _ => []
  end.

(** The integers of a value. *)
Fixpoint ints (j : json) : list Z :=
  match j with
  | JInt z => [z]
  | JObject ms => flat_map (fun kv : string * json => let (_, v) := kv in ints v) ms
  | _ => []
  end.

(** The value of every member has the property. *)
Definition all_values (P : json -> Prop) : list (string * json) -> Prop :=
  fix all (ms : list (string * json)) : Prop :=
    match ms with
    | [] => True
    | (_, v) :: ms' => P v /\ all ms'
    end.

(** The keys of every object of the value are distinct, as those of a
    [dict] are. *)
Fixpoint well_keyed (j : json) : Prop :=
  match j with
  | JObject ms => NoDup (map fst ms) /\ all_values well_keyed ms
  | _ => True
  end.

(** The text that the encoder writes for the float is read as that
    float, as [float.__repr__] promises of its own. *)
Definition reads_back (x : spec_float) : Prop :=
  load_number (float_text x) = Ok (JFloat x).

(** [int.__repr__] takes the integer. *)
Definition writable (z : Z) : Prop :=
  too_long (str_of_Z (Z.abs z)) = false.






(** A value with a key and a text to escape, a negative integer, a
    float beyond the integers that a float tells apart, and the three
    floats that are no numbers of the grammar. *)
Definition value_example : json :=
  JObject
    [("a/b", JInt (-42));
     (String "009" "tab", JString (String "127" (String "233" "t\z")));
     ("big", JFloat (S754_finite false 5000000000000000 4));
     ("inf", JFloat (S754_infinity true));
     ("nested", JObject [("a/b", JNull); ("nan", JFloat S754_nan)])].


(** Floats of every notation of [float.__repr__], with the text that it
    writes for each: zeros, fractions that binary64 does not hold,
    integers, the two ends of the positional notation, the floats at the
    ends of the range. *)
Definition float_examples : list (spec_float * string) :=
  [(S754_zero false, "0.0");
  (S754_zero true, "-0.0");
  (S754_finite false 7205759403792794 (-56), "0.1");
  (S754_finite true 8863084066665136 (-56), "-0.123");
  (S754_finite false 5629499534213120 (-48), "20.0");
  (S754_finite false 5404319552844595 (-54), "0.3");
  (S754_finite false 4897664594765414 (-50), "4.35");
  (S754_finite false 7378697629483821 (-66), "0.0001");
  (S754_finite false 5902958103587057 (-69), "1e-05");
  (S754_finite false 8000000000000000 (-3), "1000000000000000.0");
  (S754_finite false 5000000000000000 (1), "1e+16");
  (S754_finite false 4503599627370496 (1), "9007199254740992.0");
  (S754_finite false 7716049313271605 (4), "1.2345678901234568e+17");
  (S754_finite false 4768371582031250 (21), "1e+22");
  (S754_finite false 5960464477539062 (24), "1e+23");
  (S754_finite false 1 (-1074), "5e-324");
  (S754_finite false 4503599627370496 (-1074), "2.2250738585072014e-308");
  (S754_finite false 9007199254740991 (971), "1.7976931348623157e+308")].

(** * Properties *)

(** ** Strings *)

Lemma append_nil_r (s : string) : s ++ "" = s.
Proof. induction s as [|c s IH]; simpl; [reflexivity | now rewrite IH]. Qed.

Lemma append_assoc (a b c : string) : (a ++ b) ++ c = a ++ (b ++ c).
Proof. induction a as [|x a IH]; simpl; [reflexivity | now rewrite IH]. Qed.

Lemma length_append (a b : string) :
  String.length (a ++ b) = (String.length a + String.length b)%nat.
Proof. induction a as [|x a IH]; simpl; [reflexivity | now rewrite IH]. Qed.

Lemma all_chars_append (p : ascii -> bool) (a b : string) :
  all_chars p (a ++ b) = all_chars p a && all_chars p b.
Proof.
  induction a as [|x a IH]; simpl; [reflexivity|].
  now rewrite IH, andb_assoc.
Qed.

Lemma is_empty_true (s : string) : is_empty s = true -> s = "".
Proof. destruct s; [reflexivity | discriminate]. Qed.

Lemma is_empty_false (s : string) : s <> "" -> is_empty s = false.
Proof. destruct s; [congruence | reflexivity]. Qed.

(** Two ways to cut one string overlap. *)
Lemma append_eq_append (a b c d : string) :
  a ++ b = c ++ d ->
  exists l, (a = c ++ l /\ d = l ++ b) \/ (c = a ++ l /\ b = l ++ d).
Proof.
  revert c; induction a as [|x a IH]; intros c H.
  - exists c. right. split; [reflexivity | exact H].
  - destruct c as [|y c].
    + exists (String x a). left. simpl in H. now subst d.
    + simpl in H. injection H as -> H.
      destruct (IH c H) as [l [[-> ->] | [-> ->]]]; exists l; [left | right];
        split; reflexivity.
Qed.

(** ** The matcher *)

(** When the continuation succeeds on the longest run, that is the split
    taken. *)
Lemma greedy_longest {R : Type} (p : ascii -> bool) (taken rest : string)
    (k : string -> string -> option R) (r : R) :
  all_chars p taken = true ->
  stops p rest = true ->
  k taken rest = Some r ->
  greedy p (taken ++ rest) k = Some r.
Proof.
  revert k; induction taken as [|c t IH]; intros k Hall Hstop Hk.
  - simpl. destruct rest as [|c rest]; simpl; [exact Hk|].
    simpl in Hstop. apply negb_true_iff in Hstop. now rewrite Hstop.
  - simpl in Hall. apply andb_true_iff in Hall as [Hc Ht].
    simpl. rewrite Hc.
    now rewrite (IH (fun taken rest => k (String c taken) rest) Ht Hstop Hk).
Qed.

(** When the continuation fails on every split, so does the repetition. *)
Lemma greedy_none {R : Type} (p : ascii -> bool) (s : string)
    (k : string -> string -> option R) :
  (forall taken rest,
     s = taken ++ rest -> all_chars p taken = true -> k taken rest = None) ->
  greedy p s k = None.
Proof.
  revert k; induction s as [|c s IH]; intros k H.
  - simpl. now apply H.
  - simpl. destruct (p c) eqn:Hc.
    + rewrite IH.
      * now apply H.
      * intros taken rest -> Hall. apply H; [reflexivity|].
        simpl. now rewrite Hc.
    + now apply H.
Qed.

(** The result of a repetition is the result of the continuation on one
    of the splits. *)
Lemma greedy_some {R : Type} (p : ascii -> bool) (s : string)
    (k : string -> string -> option R) (r : R) :
  greedy p s k = Some r ->
  exists taken rest,
    s = taken ++ rest /\ all_chars p taken = true /\ k taken rest = Some r.
Proof.
  revert k; induction s as [|c s IH]; intros k H.
  - simpl in H. now exists "", "".
  - simpl in H. destruct (p c) eqn:Hc.
    + destruct (greedy p s (fun taken rest => k (String c taken) rest))
        as [r'|] eqn:Hg.
      * injection H as ->.
        destruct (IH _ Hg) as (taken & rest & -> & Hall & Hk).
        exists (String c taken), rest. simpl. now rewrite Hc.
      * now exists "", (String c s).
    + now exists "", (String c s).
Qed.

Lemma match_lits (label : string) (r : regex) (s : string) :
  match_here (lits label ++ r)%list (label ++ s) = match_here r s.
Proof.
  induction label as [|c l IH]; simpl; [reflexivity|].
  now rewrite Ascii.eqb_refl.
Qed.

Lemma match_lit (c : ascii) (r : regex) (s : string) :
  match_here (Lit c :: r) (String c s) = match_here r s.
Proof. simpl. now rewrite Ascii.eqb_refl. Qed.

Lemma match_star (p : ascii -> bool) (r : regex) (ws rest : string)
    (g : list string) :
  all_chars p ws = true ->
  stops p rest = true ->
  match_here r rest = Some g ->
  match_here (Star p :: r) (ws ++ rest) = Some g.
Proof. intros Hws Hstop Hr. simpl. now apply greedy_longest. Qed.

Lemma match_plus (p : ascii -> bool) (r : regex) (num rest : string)
    (g : list string) :
  all_chars p num = true ->
  num <> "" ->
  stops p rest = true ->
  match_here r rest = Some g ->
  match_here (Plus p :: r) (num ++ rest) = Some g.
Proof.
  intros Hnum Hne Hstop Hr. simpl. apply greedy_longest; trivial.
  now rewrite is_empty_false.
Qed.

Lemma match_group (p : ascii -> bool) (r : regex) (num rest : string)
    (g : list string) :
  all_chars p num = true ->
  num <> "" ->
  stops p rest = true ->
  match_here r rest = Some g ->
  match_here (Group p :: r) (num ++ rest) = Some (num :: g).
Proof.
  intros Hnum Hne Hstop Hr. simpl. apply greedy_longest; trivial.
  rewrite is_empty_false by assumption. now rewrite Hr.
Qed.

Lemma re_search_here (r : regex) (s : string) (g : list string) :
  match_here r s = Some g -> re_search r s = Some g.
Proof. intros H. destruct s; simpl; now rewrite H. Qed.

Lemma re_search_cons (r : regex) (c : ascii) (s : string) :
  re_search r (String c s) =
  match match_here r (String c s) with
  | Some g => Some g
  | None => re_search r s
  end.
Proof. reflexivity. Qed.

Lemma re_search_skip (r : regex) (pre s : string) :
  no_match_before r pre s = true ->
  re_search r (pre ++ s) = re_search r s.
Proof.
  induction pre as [|c pre IH]; intros H; [reflexivity|].
  cbn [no_match_before] in H. apply andb_true_iff in H as [H1 H2].
  change (String c pre ++ s) with (String c (pre ++ s)) in *.
  rewrite re_search_cons.
  destruct (match_here r (String c (pre ++ s))); [discriminate|].
  now apply IH.
Qed.

(** The first match of a pattern: where it is and what it captures. *)
Lemma re_search_first (r : regex) (pre s : string) (g : list string) :
  no_match_before r pre s = true ->
  match_here r s = Some g ->
  re_search r (pre ++ s) = Some g.
Proof.
  intros Hpre Hs. rewrite re_search_skip by assumption.
  now apply re_search_here.
Qed.

(** ** Character classes *)

Lemma signed_not_space (c : ascii) :
  is_signed_char c = true -> is_space c = false.
Proof. by_cases_on_char c. Qed.

Lemma digit_not_space (c : ascii) : is_digit c = true -> is_space c = false.
Proof. by_cases_on_char c. Qed.

Lemma digit_or_dot_not_space (c : ascii) :
  is_digit_or_dot c = true -> is_space c = false.
Proof. by_cases_on_char c. Qed.

Lemma digit_is_signed (c : ascii) :
  is_digit c = true -> is_signed_char c = true.
Proof. by_cases_on_char c. Qed.

Lemma digit_is_digit_or_dot (c : ascii) :
  is_digit c = true -> is_digit_or_dot c = true.
Proof. by_cases_on_char c. Qed.

Lemma digit_or_dot_is_signed (c : ascii) :
  is_digit_or_dot c = true -> is_signed_char c = true.
Proof. by_cases_on_char c. Qed.

Lemma digit_no_sign (c : ascii) :
  is_digit c = true -> c <> "-"%char /\ c <> "+"%char /\ c <> "."%char.
Proof.
  destruct c as [[] [] [] [] [] [] [] []]; vm_compute; intros H;
    try discriminate H; repeat split; discriminate.
Qed.

Lemma all_chars_weaken (p q : ascii -> bool) (s : string) :
  (forall c, p c = true -> q c = true) ->
  all_chars p s = true -> all_chars q s = true.
Proof.
  intros Hpq. induction s as [|c s IH]; simpl; [reflexivity|].
  intros H. apply andb_true_iff in H as [Hc Hs].
  now rewrite (Hpq c Hc), IH.
Qed.

(** A run of one class stops a repetition of a disjoint class. *)
Lemma stops_run (p q : ascii -> bool) (num rest : string) :
  (forall c, p c = true -> q c = false) ->
  all_chars p num = true -> num <> "" ->
  stops q (num ++ rest) = true.
Proof.
  intros Hpq Hnum Hne. destruct num as [|c num]; [congruence|].
  simpl in *. apply andb_true_iff in Hnum as [Hc _].
  now rewrite (Hpq c Hc).
Qed.

Lemma token_spec (p : ascii -> bool) (num post : string) :
  token p num post = true <->
  all_chars p num = true /\ num <> "" /\ stops p post = true.
Proof.
  unfold token. rewrite !andb_true_iff, negb_true_iff. split.
  - intros [[H1 H2] H3]. repeat split; trivial. intros ->. discriminate.
  - intros (H1 & H2 & H3). repeat split; trivial. now apply is_empty_false.
Qed.

Lemma digits_spec (s : string) :
  digits s = true <-> all_chars is_digit s = true /\ s <> "".
Proof.
  unfold digits. rewrite andb_true_iff, negb_true_iff. split.
  - intros [H1 H2]. split; trivial. intros ->. discriminate.
  - intros [H1 H2]. split; trivial. now apply is_empty_false.
Qed.

(** ** Conversions of captured texts *)

Lemma py_int_digits (s : string) :
  digits s = true ->
  py_int s = if too_long s then Raise ValueError else Ok (digits_value 0 s).
Proof.
  intros H. pose proof H as H'. apply digits_spec in H' as [Hall Hne].
  unfold digits in H. rewrite andb_comm in H.
  destruct s as [|c s]; [congruence|].
  assert (Hc : is_digit c = true).
  { simpl in Hall. now apply andb_true_iff in Hall as [Hc _]. }
  destruct (digit_no_sign c Hc) as (Hm & Hp & _).
  unfold py_int.
  assert (Hs : strip_sign (String c s) = (false, String c s)).
  { unfold strip_sign.
    destruct c as [[] [] [] [] [] [] [] []]; try reflexivity; congruence. }
  rewrite Hs. now rewrite H.
Qed.

Lemma py_int_short (s : string) :
  digits s = true -> too_long s = false -> py_int s = Ok (digits_value 0 s).
Proof. intros H Hs. now rewrite (py_int_digits s H), Hs. Qed.

Lemma py_int_long (s : string) :
  digits s = true -> too_long s = true -> py_int s = Raise ValueError.
Proof. intros H Hs. now rewrite (py_int_digits s H), Hs. Qed.

(** [int] and [float] raise nothing but [ValueError]. *)
Lemma py_int_raise (s : string) (e : exn) :
  py_int s = Raise e -> e = ValueError.
Proof.
  unfold py_int. destruct (strip_sign s) as [neg body].
  destruct (negb (is_empty body) && all_chars is_digit body);
    [destruct (too_long body)|]; congruence.
Qed.

Lemma py_float_raise (s : string) (e : exn) :
  py_float s = Raise e -> e = ValueError.
Proof.
  unfold py_float. destruct (strip_sign s) as [neg body].
  destruct (span is_digit body) as [ip rest].
  destruct rest as [|c fp].
  - destruct (is_empty ip); congruence.
  - destruct (Ascii.eqb c ".") eqn:Hc.
    + apply Ascii.eqb_eq in Hc as ->.
      destruct (all_chars is_digit fp && negb (is_empty ip && is_empty fp));
        congruence.
    + destruct c as [[] [] [] [] [] [] [] []]; try congruence;
        discriminate Hc.
Qed.

(** ** What a match looks like *)

Lemma match_lit_some (c : ascii) (r : regex) (s : string) (m : list string) :
  match_here (Lit c :: r) s = Some m ->
  exists s', s = String c s' /\ match_here r s' = Some m.
Proof.
  simpl. destruct s as [|c' s']; [discriminate|].
  destruct (Ascii.eqb c c') eqn:Hc; [|discriminate].
  apply Ascii.eqb_eq in Hc as <-. intros H. now exists s'.
Qed.

Lemma match_lits_some (label : string) (r : regex) (s : string)
    (m : list string) :
  match_here (lits label ++ r)%list s = Some m ->
  exists s', s = label ++ s' /\ match_here r s' = Some m.
Proof.
  revert s; induction label as [|c l IH]; intros s H.
  - now exists s.
  - change (lits (String c l) ++ r)%list with (Lit c :: (lits l ++ r))%list in H.
    apply match_lit_some in H as (s1 & -> & H).
    destruct (IH _ H) as (s' & -> & H'). now exists s'.
Qed.

Lemma match_star_some (p : ascii -> bool) (r : regex) (s : string)
    (m : list string) :
  match_here (Star p :: r) s = Some m ->
  exists ws rest,
    s = ws ++ rest /\ all_chars p ws = true /\ match_here r rest = Some m.
Proof. simpl. intros H. now apply greedy_some in H. Qed.

Lemma match_plus_some (p : ascii -> bool) (r : regex) (s : string)
    (m : list string) :
  match_here (Plus p :: r) s = Some m ->
  exists num rest,
    s = num ++ rest /\ all_chars p num = true /\ num <> "" /\
    match_here r rest = Some m.
Proof.
  simpl. intros H. apply greedy_some in H as (num & rest & -> & Hall & H).
  exists num, rest. destruct num; [discriminate|].
  repeat split; trivial. discriminate.
Qed.

Lemma match_group_some (p : ascii -> bool) (r : regex) (s : string)
    (m : list string) :
  match_here (Group p :: r) s = Some m ->
  exists num rest g,
    s = num ++ rest /\ all_chars p num = true /\ num <> "" /\
    match_here r rest = Some g /\ m = num :: g.
Proof.
  simpl. intros H. apply greedy_some in H as (num & rest & -> & Hall & H).
  destruct num as [|c num]; [discriminate|]. simpl in H.
  destruct (match_here r rest) as [g|] eqn:Hr; [|discriminate].
  injection H as <-. exists (String c num), rest, g.
  repeat split; trivial. discriminate.
Qed.

Lemma re_search_some (r : regex) (s : string) (m : list string) :
  re_search r s = Some m ->
  exists pre s', s = pre ++ s' /\ match_here r s' = Some m.
Proof.
  induction s as [|c s IH]; intros H.
  - exists "", "". split; [reflexivity|].
    simpl in H. now destruct (match_here r ""). 
  - rewrite re_search_cons in H.
    destruct (match_here r (String c s)) as [g|] eqn:Hm.
    + exists "", (String c s). now rewrite <- H.
    + destruct (IH H) as (pre & s' & -> & Hs).
      now exists (String c pre), s'.
Qed.

Lemma re_search_none (r : regex) (s : string) :
  (forall pre s', s = pre ++ s' -> match_here r s' = None) ->
  re_search r s = None.
Proof.
  intros H. destruct (re_search r s) as [m|] eqn:Hs; [|reflexivity].
  apply re_search_some in Hs as (pre & s' & Heq & Hm).
  now rewrite (H pre s' Heq) in Hm.
Qed.

(** ** The captures of the report patterns *)

Lemma slack_re_match (label ws num post : string) :
  all_chars is_space ws = true ->
  token is_signed_char num post = true ->
  match_here (slack_re label) (label ++ ws ++ num ++ post) = Some [num].
Proof.
  intros Hws Htok. apply token_spec in Htok as (Hnum & Hne & Hstop).
  unfold slack_re. rewrite match_lits.
  apply match_star; trivial.
  - now apply (stops_run is_signed_char); [apply signed_not_space | |].
  - now apply match_group.
Qed.


Lemma power_re_match (label w1 w2 num post : string) :
  all_chars is_space w1 = true ->
  all_chars is_space w2 = true ->
  token is_digit_or_dot num post = true ->
  match_here (power_re label) (label ++ w1 ++ "|" ++ w2 ++ num ++ post)
  = Some [num].
Proof.
  intros Hw1 Hw2 Htok. apply token_spec in Htok as (Hnum & Hne & Hstop).
  unfold power_re. rewrite match_lits.
  apply match_star; trivial.
  change ("|" ++ w2 ++ num ++ post) with (String "|" (w2 ++ num ++ post)).
  rewrite match_lit.
  apply match_star; trivial.
  - now apply (stops_run is_digit_or_dot);
      [apply digit_or_dot_not_space | |].
  - now apply match_group.
Qed.

Lemma stops_bar (p : ascii -> bool) (s : string) :
  p "|"%char = false -> stops p ("|" ++ s) = true.
Proof. intros H. simpl. now rewrite H. Qed.

(** A cell of digits, the blanks behind it and the next bar. *)
Lemma cell_then_bar (r : regex) (num gap rest : string) (g : list string) :
  digits num = true ->
  all_chars is_space gap = true ->
  match_here r rest = Some g ->
  match_here (Group is_digit :: Star is_space :: Lit "|" :: r)
    (num ++ gap ++ "|" ++ rest) = Some (num :: g).
Proof.
  intros Hnum Hgap Hr. apply digits_spec in Hnum as [Hall Hne].
  apply match_group; trivial.
  - destruct gap as [|c gap]; [reflexivity|].
    simpl in Hgap. apply andb_true_iff in Hgap as [Hc _].
    simpl. destruct (is_digit c) eqn:Hd; [|reflexivity].
    apply digit_not_space in Hd. congruence.
  - now apply match_star.
Qed.

Lemma skipped_cell_then_bar (r : regex) (num gap rest : string)
    (g : list string) :
  digits num = true ->
  all_chars is_space gap = true ->
  match_here r rest = Some g ->
  match_here (Plus is_digit :: Star is_space :: Lit "|" :: r)
    (num ++ gap ++ "|" ++ rest) = Some g.
Proof.
  intros Hnum Hgap Hr. apply digits_spec in Hnum as [Hall Hne].
  apply match_plus; trivial.
  - destruct gap as [|c gap]; [reflexivity|].
    simpl in Hgap. apply andb_true_iff in Hgap as [Hc _].
    simpl. destruct (is_digit c) eqn:Hd; [|reflexivity].
    apply digit_not_space in Hd. congruence.
  - now apply match_star.
Qed.

Lemma row_re_match (label : string) (t : row) (post : string) :
  row_blanks t = true ->
  digits (used_text t) = true ->
  digits (unused_text t) = true ->
  digits (available_text t) = true ->
  token is_digit_or_dot (utilization_text t) post = true ->
  match_here (row_re label) (label ++ row_string t ++ post)
  = Some [used_text t; available_text t; utilization_text t].
Proof.
  intros Hb Hu Hs Ha Htok. unfold row_blanks in Hb.
  repeat (apply andb_true_iff in Hb as [Hb ?]).
  apply token_spec in Htok as (Hnum & Hne & Hstop).
  pose proof Hu as Hu'. apply digits_spec in Hu' as [Hu1 Hu2].
  pose proof Hs as Hs'. apply digits_spec in Hs' as [Hs1 Hs2].
  pose proof Ha as Ha'. apply digits_spec in Ha' as [Ha1 Ha2].
  unfold row_re, row_string. rewrite match_lits.
  rewrite !append_assoc.
  apply match_star; trivial.
  change ("|" ++ ?s) with (String "|" s). rewrite match_lit.
  apply match_star; trivial.
  { now apply (stops_run is_digit); [apply digit_not_space | |]. }
  apply cell_then_bar; trivial.
  apply match_star; trivial.
  { now apply (stops_run is_digit); [apply digit_not_space | |]. }
  apply skipped_cell_then_bar; trivial.
  apply match_star; trivial.
  { now apply (stops_run is_digit); [apply digit_not_space | |]. }
  apply cell_then_bar; trivial.
  apply match_star; trivial.
  { now apply (stops_run is_digit_or_dot);
      [apply digit_or_dot_not_space | |]. }
  now apply match_group.
Qed.

(** ** The parsers, field by field *)

Lemma parse_timing_report_fields (content : string) :
  parse_timing_report content =
  (w <- extract wns_re (float_group 1) content ;;
   t <- extract tns_re (float_group 1) content ;;
   h <- extract whs_re (float_group 1) content ;;
   n <- extract endpoints_re (int_group 1) content ;;
   Ok {| wns := w; tns := t; whs := h; ths := None;
         failing_endpoints := or_default 0 n |}).
Proof.
  unfold parse_timing_report, extract, float_group, int_group.
  destruct (re_search wns_re content) as [m1|]; simpl;
    [destruct (py_float (group 1 m1)); simpl; [|reflexivity]|];
  (destruct (re_search tns_re content) as [m2|]; simpl;
    [destruct (py_float (group 1 m2)); simpl; [|reflexivity]|]);
  (destruct (re_search whs_re content) as [m3|]; simpl;
    [destruct (py_float (group 1 m3)); simpl; [|reflexivity]|]);
  (destruct (re_search endpoints_re content) as [m4|]; simpl;
    [destruct (py_int (group 1 m4)); simpl|]); reflexivity.
Qed.

Lemma parse_utilization_report_fields (content : string) :
  parse_utilization_report content =
  (l <- extract lut_re resource_of_match content ;;
   f <- extract ff_re resource_of_match content ;;
   b <- extract bram_re resource_of_match content ;;
   d <- extract dsp_re resource_of_match content ;;
   Ok {| lut := or_default default_resource l;
         ff := or_default default_resource f;
         bram := or_default default_resource b;
         dsp := or_default default_resource d |}).
Proof.
  unfold parse_utilization_report, extract.
  destruct (re_search lut_re content) as [m1|]; simpl;
    [destruct (resource_of_match m1); simpl; [|reflexivity]|];
  (destruct (re_search ff_re content) as [m2|]; simpl;
    [destruct (resource_of_match m2); simpl; [|reflexivity]|]);
  (destruct (re_search bram_re content) as [m3|]; simpl;
    [destruct (resource_of_match m3); simpl; [|reflexivity]|]);
  (destruct (re_search dsp_re content) as [m4|]; simpl;
    [destruct (resource_of_match m4); simpl|]); reflexivity.
Qed.

Lemma parse_power_report_fields (content : string) :
  parse_power_report content =
  (t <- extract total_re (float_group 1) content ;;
   d <- extract dynamic_re (float_group 1) content ;;
   s <- extract static_re (float_group 1) content ;;
   Ok {| total_power := or_default (PyInt 0) (option_map PyFloat t);
         dynamic_power := or_default (PyInt 0) (option_map PyFloat d);
         static_power := or_default (PyInt 0) (option_map PyFloat s);
         confidence := "Low" |}).
Proof.
  unfold parse_power_report, extract, float_group.
  destruct (re_search total_re content) as [m1|]; simpl;
    [destruct (py_float (group 1 m1)); simpl; [|reflexivity]|];
  (destruct (re_search dynamic_re content) as [m2|]; simpl;
    [destruct (py_float (group 1 m2)); simpl; [|reflexivity]|]);
  (destruct (re_search static_re content) as [m3|]; simpl;
    [destruct (py_float (group 1 m3)); simpl|]); reflexivity.
Qed.

Lemma extract_none {A : Type} (re : regex) (conv : list string -> result A)
    (content : string) :
  re_search re content = None -> extract re conv content = Ok None.
Proof. unfold extract. now intros ->. Qed.

Lemma extract_some {A : Type} (re : regex) (conv : list string -> result A)
    (content : string) (m : list string) (a : A) :
  re_search re content = Some m -> conv m = Ok a ->
  extract re conv content = Ok (Some a).
Proof. unfold extract. now intros -> ->. Qed.

Lemma extract_raise {A : Type} (re : regex) (conv : list string -> result A)
    (content : string) (e : exn) :
  extract re conv content = Raise e <->
  exists m, re_search re content = Some m /\ conv m = Raise e.
Proof.
  unfold extract. destruct (re_search re content) as [m|]; split.
  - intros H. exists m. split; [reflexivity|].
    destruct (conv m); [discriminate|]. simpl in H. now injection H as ->.
  - intros (m' & H1 & H2). injection H1 as <-. now rewrite H2.
  - discriminate.
  - intros (m' & H & _). discriminate.
Qed.

Lemma extract_rejects {A : Type} (re : regex) (conv : list string -> result A)
    (content : string) (e : exn) :
  extract re conv content = Raise e -> rejects re conv content.
Proof.
  intros H. apply extract_raise in H as (m & H1 & H2). now exists m, e.
Qed.

(** The text captured after [Failing Endpoints:] is a run of digits. *)
Lemma endpoints_capture (content : string) (m : list string) :
  re_search endpoints_re content = Some m ->
  exists num, m = [num] /\ digits num = true.
Proof.
  intros H. apply re_search_some in H as (pre & s & _ & H).
  unfold endpoints_re in H.
  apply match_lits_some in H as (s1 & _ & H).
  apply match_star_some in H as (ws & s2 & _ & _ & H).
  apply match_group_some in H as (num & s3 & g & _ & Hall & Hne & H & ->).
  injection H as <-. exists num. split; [reflexivity|].
  now apply digits_spec.
Qed.

(** The count converts unless it has more digits than [int] takes. *)
Lemma extract_endpoints (content : string) :
  match re_search endpoints_re content with
  | Some m =>
      extract endpoints_re (int_group 1) content
      = if too_long (group 1 m) then Raise ValueError
        else Ok (Some (digits_value 0 (group 1 m)))
  | None => extract endpoints_re (int_group 1) content = Ok None
  end.
Proof.
  unfold extract. destruct (re_search endpoints_re content) as [m|] eqn:H;
    [|reflexivity].
  apply endpoints_capture in H as (num & -> & Hd).
  unfold int_group, group. simpl nth.
  rewrite (py_int_digits num Hd). now destruct (too_long num).
Qed.

(** The three captures of a table row. *)
Lemma row_capture (label content : string) (m : list string) :
  re_search (row_re label) content = Some m ->
  exists u a p,
    m = [u; a; p] /\ digits u = true /\ digits a = true /\
    all_chars is_digit_or_dot p = true /\ p <> "".
Proof.
  intros H. apply re_search_some in H as (pre & s & _ & H).
  unfold row_re in H.
  apply match_lits_some in H as (s1 & _ & H).
  apply match_star_some in H as (? & ? & _ & _ & H).
  apply match_lit_some in H as (? & _ & H).
  apply match_star_some in H as (? & ? & _ & _ & H).
  apply match_group_some in H as (u & ? & g1 & _ & Hu & Hu' & H & ->).
  apply match_star_some in H as (? & ? & _ & _ & H).
  apply match_lit_some in H as (? & _ & H).
  apply match_star_some in H as (? & ? & _ & _ & H).
  apply match_plus_some in H as (? & ? & _ & _ & _ & H).
  apply match_star_some in H as (? & ? & _ & _ & H).
  apply match_lit_some in H as (? & _ & H).
  apply match_star_some in H as (? & ? & _ & _ & H).
  apply match_group_some in H as (a & ? & g2 & _ & Ha & Ha' & H & ->).
  apply match_star_some in H as (? & ? & _ & _ & H).
  apply match_lit_some in H as (? & _ & H).
  apply match_star_some in H as (? & ? & _ & _ & H).
  apply match_group_some in H as (p & ? & g3 & _ & Hp & Hp' & H & ->).
  injection H as <-. exists u, a, p.
  repeat split; trivial; now apply digits_spec.
Qed.

(** The conversion of a matched row: its two counts by [int], then its
    percentage by [float]. *)
Lemma resource_of_match_row (u a p : string) :
  digits u = true -> digits a = true ->
  resource_of_match [u; a; p]
  = if too_long u || too_long a then Raise ValueError
    else v <- py_float p ;;
         Ok {| used := digits_value 0 u; available := digits_value 0 a;
               utilization := PyFloat v |}.
Proof.
  intros Hu Ha. unfold resource_of_match, group. simpl nth.
  rewrite (py_int_digits u Hu), (py_int_digits a Ha).
  destruct (too_long u); [reflexivity|].
  destruct (too_long a); reflexivity.
Qed.

(** A row whose percentage [float] rejects does not convert. *)
Lemma resource_of_match_float (m : list string) (e : exn) :
  float_group 3 m = Raise e -> exists e', resource_of_match m = Raise e'.
Proof.
  unfold float_group, resource_of_match. intros H.
  destruct (py_int (group 1 m)); simpl; [|eauto].
  destruct (py_int (group 2 m)); simpl; [|eauto].
  rewrite H. simpl. eauto.
Qed.

Lemma row_rejects_float (label content : string) :
  rejects (row_re label) (float_group 3) content ->
  rejects (row_re label) resource_of_match content.
Proof.
  intros (m & e & H1 & H2).
  destruct (resource_of_match_float m e H2) as [e' He'].
  now exists m, e'.
Qed.

Lemma rejects_extract {A : Type} (re : regex) (conv : list string -> result A)
    (content : string) :
  rejects re conv content -> exists e, extract re conv content = Raise e.
Proof.
  intros (m & e & H1 & H2). exists e. apply extract_raise. now exists m.
Qed.

(** What [parse_timing_report] returns, or why it raised. *)
Lemma timing_report_outcome (content : string) :
  yields (parse_timing_report content)
    (fun r =>
       (forall f, extract (slack_re (slack_label f)) (float_group 1) content
                  = Ok (slack_field f r)) /\
       ths r = None /\
       exists n, extract endpoints_re (int_group 1) content = Ok n /\
                 failing_endpoints r = or_default 0 n)
    (timing_rejects content).
Proof.
  rewrite parse_timing_report_fields. unfold timing_rejects.
  destruct (extract wns_re (float_group 1) content) as [w|e] eqn:Hw;
    [|left; exists WNS; now apply extract_rejects in Hw].
  destruct (extract tns_re (float_group 1) content) as [t|e] eqn:Ht;
    [|left; exists TNS; now apply extract_rejects in Ht].
  destruct (extract whs_re (float_group 1) content) as [h|e] eqn:Hh;
    [|left; exists WHS; now apply extract_rejects in Hh].
  destruct (extract endpoints_re (int_group 1) content) as [n|e] eqn:Hn;
    [|right; now apply extract_rejects in Hn].
  simpl. split; [|split; [reflexivity | now exists n]].
  intros []; assumption.
Qed.

(** What [parse_utilization_report] returns, or why it raised. *)
Lemma utilization_report_outcome (content : string) :
  yields (parse_utilization_report content)
    (fun r =>
       forall k, exists o,
         extract (row_re (row_label k)) resource_of_match content = Ok o /\
         resource_field k r = or_default default_resource o)
    (utilization_rejects content).
Proof.
  rewrite parse_utilization_report_fields. unfold utilization_rejects.
  destruct (extract lut_re resource_of_match content) as [l|e] eqn:Hl;
    [|exists LUT; now apply extract_rejects in Hl].
  destruct (extract ff_re resource_of_match content) as [f|e] eqn:Hf;
    [|exists FF; now apply extract_rejects in Hf].
  destruct (extract bram_re resource_of_match content) as [b|e] eqn:Hb;
    [|exists BRAM; now apply extract_rejects in Hb].
  destruct (extract dsp_re resource_of_match content) as [d|e] eqn:Hd;
    [|exists DSP; now apply extract_rejects in Hd].
  simpl. intros []; eexists; split; try eassumption; reflexivity.
Qed.

(** What [parse_power_report] returns, or why it raised. *)
Lemma power_report_outcome (content : string) :
  yields (parse_power_report content)
    (fun r =>
       confidence r = "Low" /\
       forall k, exists o,
         extract (power_re (power_label k)) (float_group 1) content = Ok o /\
         power_field k r = or_default (PyInt 0) (option_map PyFloat o))
    (power_rejects content).
Proof.
  rewrite parse_power_report_fields. unfold power_rejects.
  destruct (extract total_re (float_group 1) content) as [t|e] eqn:Ht;
    [|exists Total; now apply extract_rejects in Ht].
  destruct (extract dynamic_re (float_group 1) content) as [d|e] eqn:Hd;
    [|exists Dynamic; now apply extract_rejects in Hd].
  destruct (extract static_re (float_group 1) content) as [s|e] eqn:Hs;
    [|exists Static; now apply extract_rejects in Hs].
  simpl. split; [reflexivity|].
  intros []; eexists; split; try eassumption; reflexivity.
Qed.

Lemma yields_impl {R : Type} (run : result R) (P Q : R -> Prop)
    (E F : Prop) :
  yields run P E -> (forall r, P r -> Q r) -> (E -> F) -> yields run Q F.
Proof. destruct run; simpl; auto. Qed.

(** ** Extraction of a labelled value *)

Lemma slack_extract (f : slack) (pre ws num post : string) (v : spec_float) :
  no_match_before (slack_re (slack_label f)) pre
    (slack_label f ++ ws ++ num ++ post) = true ->
  all_chars is_space ws = true ->
  token is_signed_char num post = true ->
  py_float num = Ok v ->
  extract (slack_re (slack_label f)) (float_group 1)
    (pre ++ slack_label f ++ ws ++ num ++ post) = Ok (Some v).
Proof.
  intros Hpre Hws Htok Hv.
  apply extract_some with (m := [num]); [|exact Hv].
  apply re_search_first; [exact Hpre|]. now apply slack_re_match.
Qed.


Lemma row_extract (k : resource_kind) (pre : string) (t : row)
    (post : string) :
  no_match_before (row_re (row_label k)) pre
    (row_label k ++ row_string t ++ post) = true ->
  row_blanks t = true ->
  digits (used_text t) = true ->
  digits (unused_text t) = true ->
  digits (available_text t) = true ->
  token is_digit_or_dot (utilization_text t) post = true ->
  extract (row_re (row_label k)) resource_of_match
    (pre ++ row_label k ++ row_string t ++ post)
  = if too_long (used_text t) || too_long (available_text t)
    then Raise ValueError
    else
      v <- py_float (utilization_text t) ;;
      Ok (Some {| used := digits_value 0 (used_text t);
                  available := digits_value 0 (available_text t);
                  utilization := PyFloat v |}).
Proof.
  intros Hpre Hb Hu Hs Ha Htok. unfold extract.
  rewrite (re_search_first _ _ _
             [used_text t; available_text t; utilization_text t] Hpre)
    by now apply row_re_match.
  rewrite (resource_of_match_row _ _ _ Hu Ha).
  destruct (too_long (used_text t) || too_long (available_text t));
    [reflexivity|].
  now destruct (py_float (utilization_text t)).
Qed.

Lemma power_extract (k : power_kind) (pre w1 w2 num post : string)
    (v : spec_float) :
  no_match_before (power_re (power_label k)) pre
    (power_label k ++ w1 ++ "|" ++ w2 ++ num ++ post) = true ->
  all_chars is_space w1 = true ->
  all_chars is_space w2 = true ->
  token is_digit_or_dot num post = true ->
  py_float num = Ok v ->
  extract (power_re (power_label k)) (float_group 1)
    (pre ++ power_label k ++ w1 ++ "|" ++ w2 ++ num ++ post) = Ok (Some v).
Proof.
  intros Hpre Hw1 Hw2 Htok Hv.
  apply extract_some with (m := [num]); [|exact Hv].
  apply re_search_first; [exact Hpre|]. now apply power_re_match.
Qed.

(** From the extraction of one field to the parser's record. *)
Lemma timing_yields_slack (f : slack) (content : string) (o : option spec_float) :
  extract (slack_re (slack_label f)) (float_group 1) content = Ok o ->
  yields (parse_timing_report content)
    (fun r => slack_field f r = o)
    ((exists f', f' <> f /\
        rejects (slack_re (slack_label f')) (float_group 1) content) \/
     rejects endpoints_re (int_group 1) content).
Proof.
  intros H. eapply yields_impl; [apply timing_report_outcome | |].
  - intros r (Hf & _). specialize (Hf f). congruence.
  - intros [(f' & Hrej) | Hrej]; [left | now right].
    exists f'. split; [|exact Hrej].
    intros ->. apply rejects_extract in Hrej as [e He]. congruence.
Qed.


Lemma utilization_yields_row (k : resource_kind) (content : string)
    (x : result (option resource)) :
  extract (row_re (row_label k)) resource_of_match content = x ->
  yields (parse_utilization_report content)
    (fun r => exists o,
       x = Ok o /\ resource_field k r = or_default default_resource o)
    ((exists k', k' <> k /\
        rejects (row_re (row_label k')) resource_of_match content) \/
     exists e, x = Raise e).
Proof.
  intros H. eapply yields_impl; [apply utilization_report_outcome | |].
  - intros r Hr. destruct (Hr k) as (o' & Ho & Hk). exists o'.
    split; congruence.
  - intros (k' & Hrej).
    destruct x as [o|e]; [left | right; now exists e].
    exists k'. split; [|exact Hrej].
    intros ->. apply rejects_extract in Hrej as [e He]. congruence.
Qed.

Lemma power_yields_field (k : power_kind) (content : string)
    (o : option spec_float) :
  extract (power_re (power_label k)) (float_group 1) content = Ok o ->
  yields (parse_power_report content)
    (fun r => power_field k r = or_default (PyInt 0) (option_map PyFloat o))
    (exists k', k' <> k /\
       rejects (power_re (power_label k')) (float_group 1) content).
Proof.
  intros H. eapply yields_impl; [apply power_report_outcome | |].
  - intros r (_ & Hr). destruct (Hr k) as (o' & Ho & ->). congruence.
  - intros (k' & Hrej). exists k'. split; [|exact Hrej].
    intros ->. apply rejects_extract in Hrej as [e He]. congruence.
Qed.

(** ** Absent fields *)

(** A text that does not hold the label has no match of a pattern that
    starts with it. *)
Lemma label_absent_no_match (label : string) (r : regex) (content : string) :
  (forall pre post, content <> pre ++ label ++ post) ->
  re_search (lits label ++ r)%list content = None.
Proof.
  intros H. apply re_search_none. intros pre s' -> .
  destruct (match_here (lits label ++ r)%list s') as [m|] eqn:Hm;
    [|reflexivity].
  apply match_lits_some in Hm as (post & -> & _).
  now destruct (H pre post).
Qed.

Lemma not_rejects_absent {A : Type} (re : regex)
    (conv : list string -> result A) (content : string) :
  re_search re content = None -> ~ rejects re conv content.
Proof. intros H (m & e & H1 & _). congruence. Qed.

(** C2.  A field whose pattern does not match keeps its default in the
    record the parser returns: [None] for the three slacks, zero for the
    failing endpoints, zeros for a resource, zero for a power.  A parser
    raises only when some pattern matched and [float] or [int] rejected
    what it captured, and it returns the default record when no pattern
    matches. *)
Theorem absent_field_keeps_default (content : string) :
  yields (parse_timing_report content)
    (fun r =>
       (forall f, re_search (slack_re (slack_label f)) content = None ->
                  slack_field f r = None) /\
       (re_search endpoints_re content = None -> failing_endpoints r = 0))
    (timing_rejects content)
  /\
  yields (parse_utilization_report content)
    (fun r =>
       forall k, re_search (row_re (row_label k)) content = None ->
                 resource_field k r =
                 {| used := 0; available := 0; utilization := PyInt 0 |})
    (utilization_rejects content)
  /\
  yields (parse_power_report content)
    (fun r =>
       forall k, re_search (power_re (power_label k)) content = None ->
                 power_field k r = PyInt 0)
    (power_rejects content)
  /\
  ((forall f, re_search (slack_re (slack_label f)) content = None) ->
   re_search endpoints_re content = None ->
   parse_timing_report content =
   Ok {| wns := None; tns := None; whs := None; ths := None;
         failing_endpoints := 0 |})
  /\
  ((forall k, re_search (row_re (row_label k)) content = None) ->
   parse_utilization_report content = Ok default_util)
  /\
  ((forall k, re_search (power_re (power_label k)) content = None) ->
   parse_power_report content =
   Ok {| total_power := PyInt 0; dynamic_power := PyInt 0;
         static_power := PyInt 0; confidence := "Low" |}).
Proof.
  split; [|split; [|split; [|split; [|split]]]].
  - eapply yields_impl; [apply timing_report_outcome | | auto].
    intros r (Hf & _ & n & Hn & Hr). split.
    + intros f Hnone. specialize (Hf f).
      rewrite extract_none in Hf by assumption. congruence.
    + intros Hnone. rewrite extract_none in Hn by assumption.
      injection Hn as <-. exact Hr.
  - eapply yields_impl; [apply utilization_report_outcome | | auto].
    intros r Hr k Hnone. destruct (Hr k) as (o & Ho & ->).
    rewrite extract_none in Ho by assumption. now injection Ho as <-.
  - eapply yields_impl; [apply power_report_outcome | | auto].
    intros r (_ & Hr) k Hnone. destruct (Hr k) as (o & Ho & ->).
    rewrite extract_none in Ho by assumption. now injection Ho as <-.
  - intros Hf He. rewrite parse_timing_report_fields.
    change wns_re with (slack_re (slack_label WNS)).
    change tns_re with (slack_re (slack_label TNS)).
    change whs_re with (slack_re (slack_label WHS)).
    now rewrite !extract_none by auto.
  - intros Hk. rewrite parse_utilization_report_fields.
    change lut_re with (row_re (row_label LUT)).
    change ff_re with (row_re (row_label FF)).
    change bram_re with (row_re (row_label BRAM)).
    change dsp_re with (row_re (row_label DSP)).
    now rewrite !extract_none by auto.
  - intros Hk. rewrite parse_power_report_fields.
    change total_re with (power_re (power_label Total)).
    change dynamic_re with (power_re (power_label Dynamic)).
    change static_re with (power_re (power_label Static)).
    now rewrite !extract_none by auto.
Qed.

Lemma absent_field_keeps_default_witness :
  yields (parse_timing_report "TNS(ns): -1.5 and nothing else")
    (fun r => wns r = None /\ whs r = None /\ failing_endpoints r = 0)
    False /\
  parse_utilization_report "no table here" = Ok default_util.
Proof.
  destruct (absent_field_keeps_default "TNS(ns): -1.5 and nothing else")
    as (Ht & _).
  destruct (absent_field_keeps_default "no table here")
    as (_ & _ & _ & _ & Hu & _).
  split.
  - destruct Ht as (Hf & He).
    exact (conj (Hf WNS eq_refl) (conj (Hf WHS eq_refl) (He eq_refl))).
  - apply Hu. now intros [].
Defined.

(** ** Captures that do not convert *)

Lemma float_group_raise (i : nat) (m : list string) (e : exn) :
  float_group i m = Raise e -> e = ValueError.
Proof. apply py_float_raise. Qed.

Lemma resource_of_match_raise_value (m : list string) (e : exn) :
  resource_of_match m = Raise e -> e = ValueError.
Proof.
  unfold resource_of_match.
  destruct (py_int (group 1 m)) eqn:H1; simpl;
    [|intros [= <-]; now apply py_int_raise in H1].
  destruct (py_int (group 2 m)) eqn:H2; simpl;
    [|intros [= <-]; now apply py_int_raise in H2].
  destruct (py_float (group 3 m)) eqn:H3; simpl;
    [discriminate | intros [= <-]; now apply py_float_raise in H3].
Qed.

Lemma extract_raise_value {A : Type} (re : regex)
    (conv : list string -> result A) (content : string) (e : exn) :
  (forall m e, conv m = Raise e -> e = ValueError) ->
  extract re conv content = Raise e -> e = ValueError.
Proof.
  intros Hconv H. apply extract_raise in H as (m & _ & H). eauto.
Qed.

Lemma int_group_raise (i : nat) (m : list string) (e : exn) :
  int_group i m = Raise e -> e = ValueError.
Proof. apply py_int_raise. Qed.

(** The parsers raise nothing but [ValueError]. *)
Lemma parse_timing_report_raise (content : string) (e : exn) :
  parse_timing_report content = Raise e -> e = ValueError.
Proof.
  rewrite parse_timing_report_fields.
  destruct (extract wns_re _ content) eqn:H1; simpl;
    [|intros [= <-];
      now apply (extract_raise_value _ _ _ _ (float_group_raise 1)) in H1].
  destruct (extract tns_re _ content) eqn:H2; simpl;
    [|intros [= <-];
      now apply (extract_raise_value _ _ _ _ (float_group_raise 1)) in H2].
  destruct (extract whs_re _ content) eqn:H3; simpl;
    [|intros [= <-];
      now apply (extract_raise_value _ _ _ _ (float_group_raise 1)) in H3].
  destruct (extract endpoints_re _ content) eqn:H4; simpl;
    [discriminate|intros [= <-];
      now apply (extract_raise_value _ _ _ _ (int_group_raise 1)) in H4].
Qed.

Lemma parse_utilization_report_raise (content : string) (e : exn) :
  parse_utilization_report content = Raise e -> e = ValueError.
Proof.
  rewrite parse_utilization_report_fields.
  destruct (extract lut_re _ content) eqn:H1; simpl;
    [|intros [= <-];
      now apply (extract_raise_value _ _ _ _ resource_of_match_raise_value)
        in H1].
  destruct (extract ff_re _ content) eqn:H2; simpl;
    [|intros [= <-];
      now apply (extract_raise_value _ _ _ _ resource_of_match_raise_value)
        in H2].
  destruct (extract bram_re _ content) eqn:H3; simpl;
    [|intros [= <-];
      now apply (extract_raise_value _ _ _ _ resource_of_match_raise_value)
        in H3].
  destruct (extract dsp_re _ content) eqn:H4; simpl;
    [discriminate|intros [= <-];
      now apply (extract_raise_value _ _ _ _ resource_of_match_raise_value)
        in H4].
Qed.

Lemma parse_power_report_raise (content : string) (e : exn) :
  parse_power_report content = Raise e -> e = ValueError.
Proof.
  rewrite parse_power_report_fields.
  destruct (extract total_re _ content) eqn:H1; simpl;
    [|intros [= <-];
      now apply (extract_raise_value _ _ _ _ (float_group_raise 1)) in H1].
  destruct (extract dynamic_re _ content) eqn:H2; simpl;
    [|intros [= <-];
      now apply (extract_raise_value _ _ _ _ (float_group_raise 1)) in H2].
  destruct (extract static_re _ content) eqn:H3; simpl;
    [discriminate|intros [= <-];
      now apply (extract_raise_value _ _ _ _ (float_group_raise 1)) in H3].
Qed.

Lemma yields_not_ok {R : Type} (run : result R) (P : R -> Prop) (E : Prop) :
  yields run P E -> (forall r, ~ P r) -> exists e, run = Raise e.
Proof.
  destruct run as [r|e]; simpl; intros H Hn; [now destruct (Hn r)|eauto].
Qed.

Lemma timing_rejected (f : slack) (content : string) :
  rejects (slack_re (slack_label f)) (float_group 1) content ->
  parse_timing_report content = Raise ValueError.
Proof.
  intros Hrej. apply rejects_extract in Hrej as [e He].
  destruct (yields_not_ok _ _ _ (timing_report_outcome content)) as [e' H'].
  - intros r (Hf & _). specialize (Hf f). congruence.
  - now rewrite H', (parse_timing_report_raise _ _ H').
Qed.

Lemma utilization_rejected (k : resource_kind) (content : string) :
  rejects (row_re (row_label k)) (float_group 3) content ->
  parse_utilization_report content = Raise ValueError.
Proof.
  intros Hrej. apply row_rejects_float, rejects_extract in Hrej as [e He].
  destruct (yields_not_ok _ _ _ (utilization_report_outcome content))
    as [e' H'].
  - intros r Hr. destruct (Hr k) as (o & Ho & _). congruence.
  - now rewrite H', (parse_utilization_report_raise _ _ H').
Qed.

Lemma power_rejected (k : power_kind) (content : string) :
  rejects (power_re (power_label k)) (float_group 1) content ->
  parse_power_report content = Raise ValueError.
Proof.
  intros Hrej. apply rejects_extract in Hrej as [e He].
  destruct (yields_not_ok _ _ _ (power_report_outcome content)) as [e' H'].
  - intros r (_ & Hr). destruct (Hr k) as (o & Ho & _). congruence.
  - now rewrite H', (parse_power_report_raise _ _ H').
Qed.

(** ** Loops *)

Lemma for_each_raise_value {A S : Type} (xs : list A)
    (body : A -> S -> result S) (s : S) (e v : exn) :
  (forall x s e, body x s = Raise e -> e = v) ->
  for_each xs body s = Raise e -> e = v.
Proof.
  intros Hbody. revert s; induction xs as [|x xs IH]; intros s H.
  - discriminate.
  - simpl in H. destruct (body x s) as [s'|e'] eqn:Hx; simpl in H.
    + eauto.
    + injection H as <-. eauto.
Qed.

Lemma for_each_raises {A S : Type} (xs : list A)
    (body : A -> S -> result S) (x : A) :
  In x xs ->
  (forall s, exists e, body x s = Raise e) ->
  forall s, exists e, for_each xs body s = Raise e.
Proof.
  intros Hin Hx. induction xs as [|y xs IH]; [destruct Hin|].
  intros s. simpl. destruct Hin as [-> | Hin].
  - destruct (Hx s) as [e ->]. simpl. eauto.
  - destruct (body y s) as [s'|e]; simpl; [now apply IH | eauto].
Qed.

Lemma analyze_all_reports_loops (reports_dir : directory) (now : string) :
  analyze_all_reports reports_dir now =
  (t <- collect_loop "*timing*.rpt" parse_timing_report reports_dir ;;
   u <- collect_loop "*utilization*.rpt" parse_utilization_report
          reports_dir ;;
   p <- collect_loop "*power*.rpt" parse_power_report reports_dir ;;
   Ok {| Results.timestamp := now; Results.timing := t;
         Results.utilization := u; Results.power := p |}).
Proof. reflexivity. Qed.

Lemma collect_loop_raise_value {V : Type} (pattern : string)
    (parser : string -> result V) (reports_dir : directory) (e : exn) :
  (forall content e, parser content = Raise e -> e = ValueError) ->
  collect_loop pattern parser reports_dir = Raise e -> e = ValueError.
Proof.
  intros Hp. unfold collect_loop. apply for_each_raise_value.
  intros f d e'. destruct (parser (snd f)) eqn:Hf; simpl; [discriminate|].
  intros [= <-]. eauto.
Qed.

Lemma collect_loop_raises {A V : Type} (pattern : string)
    (parser : A -> result V) (reports_dir : list (string * A))
    (name : string) (content : A) (e : exn) :
  In (name, content) reports_dir ->
  glob_match (glob_of pattern) name = true ->
  parser content = Raise e ->
  exists e', collect_loop pattern parser reports_dir = Raise e'.
Proof.
  intros Hin Hglob Hp. unfold collect_loop.
  apply for_each_raises with (x := (name, content)).
  - unfold glob. apply filter_In. now split.
  - intros d. simpl. rewrite Hp. simpl. eauto.
Qed.

Lemma analyze_all_reports_raise (reports_dir : directory) (now : string)
    (e : exn) :
  analyze_all_reports reports_dir now = Raise e -> e = ValueError.
Proof.
  rewrite analyze_all_reports_loops.
  destruct (collect_loop "*timing*.rpt" _ _) eqn:H1; simpl;
    [|intros [= <-];
      now apply (collect_loop_raise_value _ _ _ _ parse_timing_report_raise)
        in H1].
  destruct (collect_loop "*utilization*.rpt" _ _) eqn:H2; simpl;
    [|intros [= <-];
      now apply (collect_loop_raise_value _ _ _ _
                   parse_utilization_report_raise) in H2].
  destruct (collect_loop "*power*.rpt" _ _) eqn:H3; simpl;
    [discriminate|intros [= <-];
      now apply (collect_loop_raise_value _ _ _ _ parse_power_report_raise)
        in H3].
Qed.

(** A report that makes its parser raise makes the collection raise. *)
Lemma analyze_all_reports_propagates (reports_dir : directory)
    (now name content : string) :
  In (name, content) reports_dir ->
  (glob_match (glob_of "*timing*.rpt") name = true /\
   parse_timing_report content = Raise ValueError) \/
  (glob_match (glob_of "*utilization*.rpt") name = true /\
   parse_utilization_report content = Raise ValueError) \/
  (glob_match (glob_of "*power*.rpt") name = true /\
   parse_power_report content = Raise ValueError) ->
  analyze_all_reports reports_dir now = Raise ValueError.
Proof.
  intros Hin H.
  destruct (analyze_all_reports reports_dir now) as [r|e] eqn:Ha;
    [|now rewrite (analyze_all_reports_raise _ _ _ Ha)].
  exfalso. rewrite analyze_all_reports_loops in Ha.
  destruct H as [[Hg Hp] | [[Hg Hp] | [Hg Hp]]];
    destruct (collect_loop_raises _ _ _ _ _ _ Hin Hg Hp) as [e' He'].
  - now rewrite He' in Ha.
  - rewrite He' in Ha.
    destruct (collect_loop "*timing*.rpt" _ _); discriminate.
  - rewrite He' in Ha.
    destruct (collect_loop "*timing*.rpt" _ _); [|discriminate].
    destruct (collect_loop "*utilization*.rpt" _ _); discriminate.
Qed.

(** C3.  When a pattern matches and [float] rejects the captured text,
    the parser raises [ValueError] instead of keeping the default, and
    the exception passes through the collection of the reports to its
    caller.  The digits captured for the counts convert unless they are
    more than [max_str_digits]. *)
Theorem unconvertible_capture_raises :
  (forall f content,
     rejects (slack_re (slack_label f)) (float_group 1) content ->
     parse_timing_report content = Raise ValueError) /\
  (forall k content,
     rejects (row_re (row_label k)) (float_group 3) content ->
     parse_utilization_report content = Raise ValueError) /\
  (forall k content,
     rejects (power_re (power_label k)) (float_group 1) content ->
     parse_power_report content = Raise ValueError) /\
  (forall reports_dir now name content,
     In (name, content) reports_dir ->
     (glob_match (glob_of "*timing*.rpt") name = true /\
      exists f, rejects (slack_re (slack_label f)) (float_group 1) content)
     \/
     (glob_match (glob_of "*utilization*.rpt") name = true /\
      exists k, rejects (row_re (row_label k)) (float_group 3) content)
     \/
     (glob_match (glob_of "*power*.rpt") name = true /\
      exists k, rejects (power_re (power_label k)) (float_group 1) content)
     ->
     analyze_all_reports reports_dir now = Raise ValueError).
Proof.
  split; [|split; [|split]].
  - intros f content. apply timing_rejected.
  - intros k content. apply utilization_rejected.
  - intros k content. apply power_rejected.
  - intros reports_dir now name content Hin H.
    apply (analyze_all_reports_propagates _ _ name content Hin).
    destruct H as [[Hg [f Hf]] | [[Hg [k Hk]] | [Hg [k Hk]]]].
    + left. split; [exact Hg | now apply timing_rejected with f].
    + right; left.
      split; [exact Hg | now apply utilization_rejected with k].
    + right; right. split; [exact Hg | now apply power_rejected with k].
Qed.

Lemma unconvertible_capture_raises_witness :
  parse_timing_report "WNS(ns): -" = Raise ValueError /\
  parse_timing_report "TNS(ns): 0.5  WNS(ns): 1.2.3" = Raise ValueError /\
  parse_power_report "Dynamic (W) | 1..5" = Raise ValueError /\
  analyze_all_reports
    [("impl_timing.rpt", "WHS(ns): 0.1.");
     ("impl_power.rpt", "Dynamic (W) | 0.5")] "2024-01-01T00:00:00"
  = Raise ValueError.
Proof.
  destruct unconvertible_capture_raises as (Ht & Hu & Hp & Ha).
  split; [|split; [|split]].
  - apply (Ht WNS). exists ["-"], ValueError. now split.
  - apply (Ht WNS). exists ["1.2.3"], ValueError. now split.
  - apply (Hp Dynamic). exists ["1..5"], ValueError. now split.
  - apply (Ha _ _ "impl_timing.rpt" "WHS(ns): 0.1."); [now left|].
    left. split; [reflexivity|].
    exists WHS, ["0.1."], ValueError. now split.
Defined.

(** ** Repetitions with a single viable split *)

Lemma greedy_det {R : Type} (p : ascii -> bool) (taken rest : string)
    (k : string -> string -> option R) :
  all_chars p taken = true ->
  stops p rest = true ->
  (forall t1 t2, taken = t1 ++ t2 -> t2 <> "" -> k t1 (t2 ++ rest) = None) ->
  greedy p (taken ++ rest) k = k taken rest.
Proof.
  revert k; induction taken as [|c t IH]; intros k Hall Hstop Hk.
  - simpl. destruct rest as [|c rest]; simpl; [reflexivity|].
    simpl in Hstop. apply negb_true_iff in Hstop. now rewrite Hstop.
  - simpl in Hall. apply andb_true_iff in Hall as [Hc Ht].
    simpl. rewrite Hc.
    rewrite (IH (fun taken rest => k (String c taken) rest) Ht Hstop).
    + destruct (k (String c t) rest) eqn:Hlong; [reflexivity|].
      apply (Hk "" (String c t)); [reflexivity | discriminate].
    + intros t1 t2 -> Hne. now apply (Hk (String c t1) t2).
Qed.

Lemma all_chars_tail_starts (p : ascii -> bool) (t1 t2 : string) :
  all_chars p (t1 ++ t2) = true -> t2 <> "" ->
  exists c s, t2 = String c s /\ p c = true.
Proof.
  rewrite all_chars_append. intros H Hne.
  apply andb_true_iff in H as [_ H].
  destruct t2 as [|c s]; [congruence|].
  simpl in H. apply andb_true_iff in H as [Hc _]. now exists c, s.
Qed.

Lemma match_star_det (p : ascii -> bool) (r : regex) (ws rest : string) :
  all_chars p ws = true ->
  stops p rest = true ->
  starts_outside p r ->
  match_here (Star p :: r) (ws ++ rest) = match_here r rest.
Proof.
  intros Hws Hstop Hout. simpl.
  apply (greedy_det p ws rest (fun _ rest0 => match_here r rest0)); trivial.
  intros t1 t2 -> Hne.
  destruct (all_chars_tail_starts p t1 t2 Hws Hne) as (c & s & -> & Hc).
  now apply Hout.
Qed.

Lemma match_group_det (p : ascii -> bool) (r : regex) (num rest : string) :
  all_chars p num = true ->
  num <> "" ->
  stops p rest = true ->
  starts_outside p r ->
  match_here (Group p :: r) (num ++ rest)
  = option_map (cons num) (match_here r rest).
Proof.
  intros Hnum Hne Hstop Hout. simpl. rewrite greedy_det; trivial.
  - now rewrite is_empty_false.
  - intros t1 t2 -> Hne2.
    destruct (all_chars_tail_starts p t1 t2 Hnum Hne2) as (c & s & -> & Hc).
    simpl. destruct (is_empty t1); [reflexivity|]. now rewrite Hout.
Qed.

Lemma match_plus_det (p : ascii -> bool) (r : regex) (num rest : string) :
  all_chars p num = true ->
  num <> "" ->
  stops p rest = true ->
  starts_outside p r ->
  match_here (Plus p :: r) (num ++ rest) = match_here r rest.
Proof.
  intros Hnum Hne Hstop Hout. simpl. rewrite greedy_det; trivial.
  - now rewrite is_empty_false.
  - intros t1 t2 -> Hne2.
    destruct (all_chars_tail_starts p t1 t2 Hnum Hne2) as (c & s & -> & Hc).
    simpl. destruct (is_empty t1); [reflexivity|]. now rewrite Hout.
Qed.

(** A group whose class the next character is not in has no match. *)
Lemma match_group_stop (p : ascii -> bool) (r : regex) (s : string) :
  stops p s = true -> match_here (Group p :: r) s = None.
Proof.
  intros H. simpl. destruct s as [|c s]; [reflexivity|].
  simpl in H. apply negb_true_iff in H. simpl. now rewrite H.
Qed.

Lemma match_lit_other (c c' : ascii) (r : regex) (s : string) :
  c <> c' -> match_here (Lit c :: r) (String c' s) = None.
Proof. intros H. simpl. apply Ascii.eqb_neq in H. now rewrite H. Qed.

Lemma starts_outside_lit (p : ascii -> bool) (c : ascii) (r : regex) :
  p c = false -> starts_outside p (Lit c :: r).
Proof.
  intros Hc c' s Hc'. apply match_lit_other. intros ->. congruence.
Qed.

Lemma starts_outside_group (p q : ascii -> bool) (r : regex) :
  (forall c, p c = true -> q c = false) -> starts_outside p (Group q :: r).
Proof.
  intros Hpq c s Hc. apply match_group_stop. simpl. now rewrite (Hpq c Hc).
Qed.

Lemma starts_outside_plus (p q : ascii -> bool) (r : regex) :
  (forall c, p c = true -> q c = false) -> starts_outside p (Plus q :: r).
Proof.
  intros Hpq c s Hc. simpl. now rewrite (Hpq c Hc).
Qed.

Lemma starts_outside_star (p q : ascii -> bool) (r : regex) :
  (forall c, p c = true -> q c = false) ->
  starts_outside p r -> starts_outside p (Star q :: r).
Proof.
  intros Hpq Hr c s Hc. simpl. rewrite (Hpq c Hc). now apply Hr.
Qed.

Lemma space_not_digit (c : ascii) : is_space c = true -> is_digit c = false.
Proof. by_cases_on_char c. Qed.

Lemma space_not_digit_or_dot (c : ascii) :
  is_space c = true -> is_digit_or_dot c = false.
Proof. by_cases_on_char c. Qed.

Lemma space_not_signed (c : ascii) :
  is_space c = true -> is_signed_char c = false.
Proof. by_cases_on_char c. Qed.

(** ** [float] of a decimal text *)

Lemma span_run (p : ascii -> bool) (a b : string) :
  all_chars p a = true -> stops p b = true -> span p (a ++ b) = (a, b).
Proof.
  intros Ha Hb. induction a as [|c a IH].
  - simpl. destruct b as [|c b]; [reflexivity|].
    simpl in Hb. apply negb_true_iff in Hb. simpl. now rewrite Hb.
  - simpl in Ha. apply andb_true_iff in Ha as [Hc Ha].
    simpl. rewrite Hc, (IH Ha). reflexivity.
Qed.

Lemma strip_sign_digits (s t : string) :
  digits s = true -> strip_sign (s ++ t) = (false, s ++ t).
Proof.
  intros H. apply digits_spec in H as [Hall Hne].
  destruct s as [|c s]; [congruence|].
  simpl in Hall. apply andb_true_iff in Hall as [Hc _].
  destruct (digit_no_sign c Hc) as (Hm & Hp & _).
  simpl. unfold strip_sign.
  destruct c as [[] [] [] [] [] [] [] []]; try reflexivity; congruence.
Qed.

Lemma py_float_body (neg : bool) (ip fp : string) :
  digits ip = true -> digits fp = true ->
  (let (ip', rest) := span is_digit (ip ++ "." ++ fp) in
   match rest with
   | EmptyString =>
       if is_empty ip' then Raise ValueError
       else Ok (float_of_decimal neg (digits_value 0 ip') 0)
   | String "." fp' =>
       if all_chars is_digit fp' && negb (is_empty ip' && is_empty fp')
       then Ok (float_of_decimal neg (digits_value 0 (ip' ++ fp'))
                  (String.length fp'))
       else Raise ValueError
   | String _ _ => Raise ValueError
   end)
  = Ok (float_of_decimal neg (digits_value 0 (ip ++ fp)) (String.length fp)).
Proof.
  intros Hi Hf. apply digits_spec in Hi as [Hi Hine].
  apply digits_spec in Hf as [Hf Hfne].
  rewrite (span_run is_digit ip ("." ++ fp) Hi eq_refl).
  change ("." ++ fp) with (String "." fp). cbv iota beta.
  rewrite Hf. destruct ip; [congruence|]. reflexivity.
Qed.

Lemma py_float_unsigned (ip fp : string) :
  digits ip = true -> digits fp = true ->
  py_float (ip ++ "." ++ fp)
  = Ok (float_of_decimal false (digits_value 0 (ip ++ fp))
          (String.length fp)).
Proof.
  intros Hi Hf. unfold py_float. rewrite (strip_sign_digits _ _ Hi).
  now apply py_float_body.
Qed.

Lemma py_float_negative (ip fp : string) :
  digits ip = true -> digits fp = true ->
  py_float ("-" ++ ip ++ "." ++ fp)
  = Ok (float_of_decimal true (digits_value 0 (ip ++ fp))
          (String.length fp)).
Proof.
  intros Hi Hf. unfold py_float.
  change (strip_sign ("-" ++ ip ++ "." ++ fp))
    with (true, ip ++ "." ++ fp).
  now apply py_float_body.
Qed.

(** ** Signs and decimal points in the value position *)

Lemma outside_space_bar (r : regex) : starts_outside is_space (Lit "|" :: r).
Proof. now apply starts_outside_lit. Qed.

Lemma outside_space_digits (r : regex) :
  starts_outside is_space (Group is_digit :: r).
Proof. apply starts_outside_group, space_not_digit. Qed.

Lemma outside_space_skipped (r : regex) :
  starts_outside is_space (Plus is_digit :: r).
Proof. apply starts_outside_plus, space_not_digit. Qed.

Lemma outside_space_decimal (r : regex) :
  starts_outside is_space (Group is_digit_or_dot :: r).
Proof. apply starts_outside_group, space_not_digit_or_dot. Qed.

Lemma outside_digit_gap (r : regex) :
  starts_outside is_digit (Star is_space :: Lit "|" :: r).
Proof.
  apply starts_outside_star; [apply digit_not_space|].
  now apply starts_outside_lit.
Qed.

Lemma stops_space_digits (num s : string) :
  digits num = true -> stops is_space (num ++ s) = true.
Proof.
  intros H. apply digits_spec in H as [Hall Hne].
  now apply (stops_run is_digit); [apply digit_not_space | |].
Qed.

Lemma stops_digit_gap (gap s : string) :
  all_chars is_space gap = true -> stops is_digit (gap ++ "|" ++ s) = true.
Proof.
  intros H. destruct gap as [|c gap]; [reflexivity|].
  simpl in H. apply andb_true_iff in H as [Hc _].
  simpl. now rewrite (space_not_digit c Hc).
Qed.

Lemma token_decimal (ip fp post : string) :
  digits ip = true -> digits fp = true ->
  stops is_digit_or_dot post = true ->
  token is_digit_or_dot (ip ++ "." ++ fp) post = true.
Proof.
  intros Hi Hf Hpost. apply digits_spec in Hi as [Hi Hine].
  apply digits_spec in Hf as [Hf _].
  apply token_spec. split; [|split; [|exact Hpost]].
  - rewrite !all_chars_append.
    rewrite (all_chars_weaken _ _ _ digit_is_digit_or_dot Hi).
    now rewrite (all_chars_weaken _ _ _ digit_is_digit_or_dot Hf).
  - destruct ip; [congruence | discriminate].
Qed.

Lemma token_negative_decimal (ip fp post : string) :
  digits ip = true -> digits fp = true ->
  stops is_signed_char post = true ->
  token is_signed_char ("-" ++ ip ++ "." ++ fp) post = true.
Proof.
  intros Hi Hf Hpost. apply digits_spec in Hi as [Hi _].
  apply digits_spec in Hf as [Hf _].
  apply token_spec. split; [|split; [discriminate | exact Hpost]].
  rewrite !all_chars_append.
  rewrite (all_chars_weaken _ _ _ digit_is_signed Hi).
  now rewrite (all_chars_weaken _ _ _ digit_is_signed Hf).
Qed.

(** A minus sign where a power value should start. *)
Lemma power_re_minus (label w1 w2 rest : string) :
  all_chars is_space w1 = true ->
  all_chars is_space w2 = true ->
  match_here (power_re label) (label ++ w1 ++ "|" ++ w2 ++ "-" ++ rest)
  = None.
Proof.
  intros H1 H2. unfold power_re. rewrite match_lits.
  rewrite match_star_det;
    [|exact H1 | reflexivity | apply outside_space_bar].
  change ("|" ++ ?s) with (String "|" s). rewrite match_lit.
  rewrite match_star_det;
    [|exact H2 | reflexivity | apply outside_space_decimal].
  now apply match_group_stop.
Qed.

(** The pattern of a row up to its first captured cell. *)
Lemma row_re_to_used (label : string) (t : row) (s : string) :
  all_chars is_space (gap1 t) = true ->
  all_chars is_space (gap2 t) = true ->
  stops is_space s = true ->
  match_here (row_re label) (label ++ before_used t ++ s)
  = match_here
      [Group is_digit;
       Star is_space; Lit "|"; Star is_space; Plus is_digit;
       Star is_space; Lit "|"; Star is_space; Group is_digit;
       Star is_space; Lit "|"; Star is_space; Group is_digit_or_dot] s.
Proof.
  intros H1 H2 Hs. unfold row_re, before_used.
  rewrite match_lits, !append_assoc.
  rewrite match_star_det;
    [|exact H1 | reflexivity | apply outside_space_bar].
  change ("|" ++ ?x) with (String "|" x). rewrite match_lit.
  rewrite match_star_det;
    [reflexivity | exact H2 | exact Hs | apply outside_space_digits].
Qed.

(** The pattern of a row up to its second captured cell. *)
Lemma row_re_to_available (label : string) (t : row) (s : string) :
  row_blanks t = true ->
  digits (used_text t) = true ->
  digits (unused_text t) = true ->
  stops is_space s = true ->
  match_here (row_re label) (label ++ before_available t ++ s)
  = option_map (cons (used_text t))
      (match_here
         [Group is_digit;
          Star is_space; Lit "|"; Star is_space; Group is_digit_or_dot] s).
Proof.
  intros Hb Hu Hk Hs. unfold row_blanks in Hb.
  repeat (apply andb_true_iff in Hb as [Hb ?]).
  pose proof Hu as Hu'. apply digits_spec in Hu' as [Hu1 Hu2].
  pose proof Hk as Hk'. apply digits_spec in Hk' as [Hk1 Hk2].
  unfold before_available. rewrite !append_assoc.
  rewrite row_re_to_used;
    [|assumption | assumption | now apply stops_space_digits].
  rewrite match_group_det;
    [|assumption | assumption | now apply stops_digit_gap
     |apply outside_digit_gap].
  f_equal.
  rewrite match_star_det;
    [|assumption | reflexivity | apply outside_space_bar].
  change ("|" ++ ?x) with (String "|" x). rewrite match_lit.
  rewrite match_star_det;
    [|assumption | now apply stops_space_digits
     |apply outside_space_skipped].
  rewrite match_plus_det;
    [|assumption | assumption | now apply stops_digit_gap
     |apply outside_digit_gap].
  rewrite match_star_det;
    [|assumption | reflexivity | apply outside_space_bar].
  change ("|" ++ ?x) with (String "|" x). rewrite match_lit.
  rewrite match_star_det;
    [reflexivity | assumption | exact Hs | apply outside_space_digits].
Qed.

(** The pattern of a row up to its third captured cell. *)
Lemma row_re_to_utilization (label : string) (t : row) (s : string) :
  row_blanks t = true ->
  digits (used_text t) = true ->
  digits (unused_text t) = true ->
  digits (available_text t) = true ->
  stops is_space s = true ->
  match_here (row_re label) (label ++ before_utilization t ++ s)
  = option_map (cons (used_text t))
      (option_map (cons (available_text t))
         (match_here [Group is_digit_or_dot] s)).
Proof.
  intros Hb Hu Hk Ha Hs. pose proof Hb as Hb'. unfold row_blanks in Hb'.
  repeat (apply andb_true_iff in Hb' as [Hb' ?]).
  pose proof Ha as Ha'. apply digits_spec in Ha' as [Ha1 Ha2].
  unfold before_utilization. rewrite !append_assoc.
  rewrite row_re_to_available;
    [|assumption | assumption | assumption | now apply stops_space_digits].
  f_equal.
  rewrite match_group_det;
    [|assumption | assumption | now apply stops_digit_gap
     |apply outside_digit_gap].
  f_equal.
  rewrite match_star_det;
    [|assumption | reflexivity | apply outside_space_bar].
  change ("|" ++ ?x) with (String "|" x). rewrite match_lit.
  rewrite match_star_det;
    [reflexivity | assumption | exact Hs | apply outside_space_decimal].
Qed.

(** A negative power and a negative percentage are skipped: the pattern
    has no match and the fields keep their defaults. *)
Lemma negative_value_is_skipped :
  py_float "-2.345" = Ok (float_of_decimal true 2345 3) /\
  re_search total_re "Total On-Chip Power (W) | -2.345" = None /\
  parse_power_report "Total On-Chip Power (W) | -2.345"
  = Ok {| total_power := PyInt 0; dynamic_power := PyInt 0;
          static_power := PyInt 0; confidence := "Low" |} /\
  re_search lut_re "CLB LUTs | 1000 | 0 | 5000 | -20.5" = None /\
  parse_utilization_report "CLB LUTs | 1000 | 0 | 5000 | -20.5"
  = Ok default_util.
Proof. repeat split. Qed.

(** C5, amended.  The slack patterns take a minus sign and a decimal
    point: a negative decimal after a slack label is matched and
    converted.  The percentage and power patterns take a decimal point
    and no sign, the count patterns digits only: an unsigned decimal
    percentage or power is matched and converted, and a row or power
    pattern does not match at a label whose value starts with a minus
    sign, nor a row pattern at a label whose count holds a decimal
    point.  The parser returns the record unless the conversion of another
    field, or [int] of a count of the same row, raises. *)
Theorem sign_and_point_tolerance :
  (forall f pre ws ip fp post,
     no_match_before (slack_re (slack_label f)) pre
       (slack_label f ++ ws ++ ("-" ++ ip ++ "." ++ fp) ++ post) = true ->
     all_chars is_space ws = true ->
     digits ip = true -> digits fp = true ->
     stops is_signed_char post = true ->
     yields
       (parse_timing_report
          (pre ++ slack_label f ++ ws ++ ("-" ++ ip ++ "." ++ fp) ++ post))
       (fun r =>
          slack_field f r =
          Some (float_of_decimal true (digits_value 0 (ip ++ fp))
                  (String.length fp)))
       ((exists f', f' <> f /\
           rejects (slack_re (slack_label f')) (float_group 1)
             (pre ++ slack_label f ++ ws ++ ("-" ++ ip ++ "." ++ fp)
              ++ post)) \/
        rejects endpoints_re (int_group 1)
          (pre ++ slack_label f ++ ws ++ ("-" ++ ip ++ "." ++ fp) ++ post)))
  /\
  (forall k pre w1 w2 ip fp post,
     no_match_before (power_re (power_label k)) pre
       (power_label k ++ w1 ++ "|" ++ w2 ++ (ip ++ "." ++ fp) ++ post)
     = true ->
     all_chars is_space w1 = true ->
     all_chars is_space w2 = true ->
     digits ip = true -> digits fp = true ->
     stops is_digit_or_dot post = true ->
     yields
       (parse_power_report
          (pre ++ power_label k ++ w1 ++ "|" ++ w2 ++ (ip ++ "." ++ fp)
           ++ post))
       (fun r =>
          power_field k r =
          PyFloat (float_of_decimal false (digits_value 0 (ip ++ fp))
                     (String.length fp)))
       (exists k', k' <> k /\
          rejects (power_re (power_label k')) (float_group 1)
            (pre ++ power_label k ++ w1 ++ "|" ++ w2 ++ (ip ++ "." ++ fp)
             ++ post)))
  /\
  (forall k pre t ip fp post,
     no_match_before (row_re (row_label k)) pre
       (row_label k ++ row_string t ++ post) = true ->
     row_blanks t = true ->
     digits (used_text t) = true ->
     digits (unused_text t) = true ->
     digits (available_text t) = true ->
     utilization_text t = ip ++ "." ++ fp ->
     digits ip = true -> digits fp = true ->
     stops is_digit_or_dot post = true ->
     yields
       (parse_utilization_report
          (pre ++ row_label k ++ row_string t ++ post))
       (fun r =>
          utilization (resource_field k r) =
          PyFloat (float_of_decimal false (digits_value 0 (ip ++ fp))
                     (String.length fp)))
       ((exists k', k' <> k /\
           rejects (row_re (row_label k')) resource_of_match
             (pre ++ row_label k ++ row_string t ++ post)) \/
        too_long (used_text t) = true \/
        too_long (available_text t) = true))
  /\
  (forall k w1 w2 rest,
     all_chars is_space w1 = true ->
     all_chars is_space w2 = true ->
     match_here (power_re (power_label k))
       (power_label k ++ w1 ++ "|" ++ w2 ++ "-" ++ rest) = None)
  /\
  (forall k t rest,
     row_blanks t = true ->
     match_here (row_re (row_label k))
       (row_label k ++ before_used t ++ "-" ++ rest) = None /\
     (digits (used_text t) = true -> digits (unused_text t) = true ->
      match_here (row_re (row_label k))
        (row_label k ++ before_available t ++ "-" ++ rest) = None) /\
     (digits (used_text t) = true -> digits (unused_text t) = true ->
      digits (available_text t) = true ->
      match_here (row_re (row_label k))
        (row_label k ++ before_utilization t ++ "-" ++ rest) = None))
  /\
  (forall k t ip rest,
     row_blanks t = true ->
     digits ip = true ->
     match_here (row_re (row_label k))
       (row_label k ++ before_used t ++ ip ++ "." ++ rest) = None /\
     (digits (used_text t) = true -> digits (unused_text t) = true ->
      match_here (row_re (row_label k))
        (row_label k ++ before_available t ++ ip ++ "." ++ rest) = None)).
Proof.
  split; [|split; [|split; [|split; [|split]]]].
  - intros f pre ws ip fp post Hpre Hws Hi Hf Hpost.
    apply timing_yields_slack. apply slack_extract; trivial.
    + now apply token_negative_decimal.
    + now apply py_float_negative.
  - intros k pre w1 w2 ip fp post Hpre Hw1 Hw2 Hi Hf Hpost.
    apply (power_yields_field k _ (Some _)). apply power_extract; trivial.
    + now apply token_decimal.
    + now apply py_float_unsigned.
  - intros k pre t ip fp post Hpre Hb Hu Hk Ha Heq Hi Hf Hpost.
    assert (Hv : py_float (utilization_text t)
                 = Ok (float_of_decimal false (digits_value 0 (ip ++ fp))
                         (String.length fp)))
      by (rewrite Heq; now apply py_float_unsigned).
    assert (Htok : token is_digit_or_dot (utilization_text t) post = true)
      by (rewrite Heq; now apply token_decimal).
    pose proof (row_extract k pre t post Hpre Hb Hu Hk Ha Htok) as He.
    rewrite Hv in He. apply utilization_yields_row in He.
    eapply yields_impl; [exact He | |].
    + intros r (o & Ho & ->).
      destruct (too_long (used_text t) || too_long (available_text t));
        [discriminate|].
      now injection Ho as <-.
    + intros [H | [e H]]; [now left | right].
      destruct (too_long (used_text t)); [now left | right].
      destruct (too_long (available_text t)); [reflexivity | discriminate].
  - intros k w1 w2 rest. apply power_re_minus.
  - intros k t rest Hb. pose proof Hb as Hb'. unfold row_blanks in Hb'.
    repeat (apply andb_true_iff in Hb' as [Hb' ?]).
    split; [|split].
    + rewrite row_re_to_used by (assumption || reflexivity).
      now apply match_group_stop.
    + intros Hu Hk.
      rewrite row_re_to_available by (assumption || reflexivity).
      now rewrite match_group_stop.
    + intros Hu Hk Ha.
      rewrite row_re_to_utilization by (assumption || reflexivity).
      now rewrite match_group_stop.
  - intros k t ip rest Hb Hi. pose proof Hb as Hb'. unfold row_blanks in Hb'.
    repeat (apply andb_true_iff in Hb' as [Hb' ?]).
    pose proof Hi as Hi'. apply digits_spec in Hi' as [Hi1 Hi2].
    split.
    + rewrite row_re_to_used;
        [|assumption | assumption | now apply stops_space_digits].
      rewrite match_group_det;
        [reflexivity | assumption | assumption | reflexivity
        |apply outside_digit_gap].
    + intros Hu Hk.
      rewrite row_re_to_available;
        [|assumption | assumption | assumption
         |now apply stops_space_digits].
      rewrite match_group_det;
        [reflexivity | assumption | assumption | reflexivity
        |apply outside_digit_gap].
Qed.

Lemma sign_and_point_tolerance_witness :
  yields (parse_timing_report "TNS(ns):  -12.75 ns")
    (fun r => tns r = Some (float_of_decimal true 1275 2)) False /\
  yields (parse_power_report "Device Static (W) | 0.125")
    (fun r => static_power r = PyFloat (float_of_decimal false 125 3))
    False /\
  yields (parse_utilization_report "CLB LUTs | 1000 | 0 | 5000 | 20.0")
    (fun r => utilization (lut r) = PyFloat (float_of_decimal false 200 1))
    False /\
  match_here dynamic_re "Dynamic (W) | -0.5" = None /\
  match_here dsp_re "DSPs | 12 | 0 | 360 | -3.33" = None /\
  match_here ff_re "CLB Registers | 10.5 | 0 | 360 | 3.33" = None.
Proof.
  destruct sign_and_point_tolerance as (Hs & Hp & Hr & Hpm & Hrm & Hrp).
  split; [|split; [|split; [|split; [|split]]]].
  - exact (Hs TNS "" "  " "12" "75" " ns"
             eq_refl eq_refl eq_refl eq_refl eq_refl).
  - exact (Hp Static "" " " " " "0" "125" ""
             eq_refl eq_refl eq_refl eq_refl eq_refl eq_refl).
  - exact (Hr LUT "" lut_row_example "20" "0" ""
             eq_refl eq_refl eq_refl eq_refl eq_refl eq_refl eq_refl
             eq_refl eq_refl).
  - exact (Hpm Dynamic " " " " "0.5" eq_refl eq_refl).
  - destruct (Hrm DSP
                {| gap1 := " "; gap2 := " "; used_text := "12";
                   gap3 := " "; gap4 := " "; unused_text := "0";
                   gap5 := " "; gap6 := " "; available_text := "360";
                   gap7 := " "; gap8 := " "; utilization_text := "" |}
                "3.33" eq_refl) as (_ & _ & H).
    exact (H eq_refl eq_refl eq_refl).
  - destruct (Hrp FF lut_row_example "10" "5 | 0 | 360 | 3.33"
                eq_refl eq_refl) as (H & _).
    exact H.
Defined.

(** ** Classification of a utilization percentage *)

Lemma num_ge_not_lt (x : pynum) (z : Z) :
  is_nan x = false -> num_ge x z = negb (num_lt x z).
Proof.
  unfold num_ge, num_lt. intros H.
  destruct (num_compare x z) as [[]|] eqn:Hc; try reflexivity.
  destruct x as [a|[]]; simpl in *; discriminate.
Qed.

Lemma float_lt_mono (f : spec_float) (a b : Z) :
  a <= b ->
  float_compare f a = Some Lt -> float_compare f b = Some Lt.
Proof.
  intros Hab. destruct f as [s|s| |s m e]; unfold float_compare.
  - intros H. assert (H' : 0 < a) by (unfold Z.lt; congruence).
    f_equal. change (0 < b). lia.
  - trivial.
  - trivial.
  - set (n := if s then Z.neg m else Z.pos m).
    destruct (0 <=? e); intros H.
    + assert (H' : n * 2 ^ e < a) by (unfold Z.lt; congruence).
      f_equal. change (n * 2 ^ e < b). lia.
    + assert (H' : n < a * 2 ^ (- e)) by (unfold Z.lt; congruence).
      f_equal. change (n < b * 2 ^ (- e)).
      assert (Hpow : 0 <= 2 ^ (- e)) by (apply Z.pow_nonneg; lia).
      nia.
Qed.

Lemma num_lt_mono (x : pynum) (a b : Z) :
  a <= b -> num_lt x a = true -> num_lt x b = true.
Proof.
  intros Hab. unfold num_lt.
  destruct (num_compare x a) as [[]|] eqn:Ha; try discriminate.
  intros _. destruct x as [z|f]; unfold num_compare in *.
  - assert (Ha' : z < a) by (unfold Z.lt; congruence).
    assert (H : (z ?= b) = Lt) by (change (z < b); lia).
    now rewrite H.
  - now rewrite (float_lt_mono f a b Hab Ha).
Qed.

(** C4.  A utilization percentage is classified "pass" exactly when it is
    below 80, "warning" exactly when it is at least 80 and below 95, and
    "fail" exactly when it is at least 95. *)
Theorem utilization_classification (p : pynum) :
  is_nan p = false ->
  (util_class p = "pass" <-> num_lt p 80 = true) /\
  (util_class p = "warning" <-> num_ge p 80 = true /\ num_lt p 95 = true) /\
  (util_class p = "fail" <-> num_ge p 95 = true).
Proof.
  intros Hnan. rewrite !(num_ge_not_lt p _ Hnan). unfold util_class.
  pose proof (num_lt_mono p 80 95 ltac:(lia)) as Hmono.
  destruct (num_lt p 80) eqn:H80.
  - rewrite (Hmono eq_refl). simpl.
    repeat split; intros; try discriminate; try tauto.
    destruct H; discriminate.
  - destruct (num_lt p 95) eqn:H95; simpl;
      repeat split; intros; try discriminate; try tauto.
    destruct H; discriminate.
Qed.

Lemma utilization_classification_witness :
  util_class (PyFloat (float_of_decimal false 7999 2)) = "pass" /\
  util_class (PyFloat (float_of_decimal false 800 1)) = "warning" /\
  util_class (PyFloat (float_of_decimal false 9499 2)) = "warning" /\
  util_class (PyFloat (float_of_decimal false 950 1)) = "fail" /\
  util_class (PyInt 0) = "pass".
Proof.
  split; [|split; [|split; [|split]]].
  - now apply (utilization_classification
                 (PyFloat (float_of_decimal false 7999 2)) eq_refl).
  - now apply (utilization_classification
                 (PyFloat (float_of_decimal false 800 1)) eq_refl).
  - now apply (utilization_classification
                 (PyFloat (float_of_decimal false 9499 2)) eq_refl).
  - now apply (utilization_classification
                 (PyFloat (float_of_decimal false 950 1)) eq_refl).
  - now apply (utilization_classification (PyInt 0) eq_refl).
Defined.

(** ** The dashboard on a record without slacks *)

(** C10.  When the timing mapping is not empty and the [wns] or the [tns]
    of its last record is [None], the generation of the HTML dashboard
    raises [TypeError] and writes no page. *)
Theorem html_dashboard_raises_on_null_slack
    (results : Results.t) (t : timing_data) (fs : list file) :
  latest (Results.timing results) = Some t ->
  wns t = None \/ tns t = None ->
  _generate_html_dashboard results fs = (fs, Some TypeError).
Proof.
  intros Hlatest Hnull. unfold _generate_html_dashboard.
  rewrite Hlatest. unfold slack_class, slack_ge.
  destruct (wns t) as [w|]; [|reflexivity].
  destruct Hnull as [Hw | Ht]; [discriminate|].
  rewrite Ht. reflexivity.
Qed.

Lemma html_dashboard_raises_on_null_slack_witness :
  _generate_html_dashboard (results_example default_timing) []
  = ([], Some TypeError) /\
  _generate_html_dashboard
    (results_example
       {| wns := Some (float_of_decimal false 15 1); tns := None;
          whs := None; ths := None; failing_endpoints := 0 |}) []
  = ([], Some TypeError).
Proof.
  split.
  - apply (html_dashboard_raises_on_null_slack
             (results_example default_timing) default_timing []);
      [reflexivity | now left].
  - apply (html_dashboard_raises_on_null_slack _
             {| wns := Some (float_of_decimal false 15 1); tns := None;
                whs := None; ths := None; failing_endpoints := 0 |} []);
      [reflexivity | now right].
Defined.

(** ** The field [ths] *)

Lemma dict_get_in {V : Type} (k : string) (v : V) (d : dict V) :
  dict_get k d = Some v -> In (k, v) d.
Proof.
  induction d as [|[k' v'] d IH]; simpl; [discriminate|].
  destruct (String.eqb k' k) eqn:Hk.
  - apply String.eqb_eq in Hk as ->. intros [= ->]. now left.
  - intros H. right. now apply IH.
Qed.

Lemma dict_set_in {V : Type} (k k' : string) (v v' : V) (d : dict V) :
  In (k', v') (dict_set k v d) -> (k' = k /\ v' = v) \/ In (k', v') d.
Proof.
  induction d as [|[k0 v0] d IH]; simpl.
  - intros [[= <- <-] | []]. now left.
  - destruct (String.eqb k0 k) eqn:Hk.
    + apply String.eqb_eq in Hk as ->.
      intros [[= <- <-] | H]; [now left | right; now right].
    + intros [H | H]; [right; now left|].
      destruct (IH H) as [H' | H']; [now left | right; now right].
Qed.

(** Every value the collector stores was returned by the parser. *)
Lemma collect_loop_values {V : Type} (pattern : string)
    (parser : string -> result V) (reports_dir : directory) (d : dict V)
    (k : string) (v : V) :
  collect_loop pattern parser reports_dir = Ok d ->
  In (k, v) d ->
  exists name content,
    In (name, content) reports_dir /\
    glob_match (glob_of pattern) name = true /\
    k = stem name /\ parser content = Ok v.
Proof.
  unfold collect_loop, glob.
  set (P := fun d : dict V =>
              forall k v, In (k, v) d ->
              exists name content,
                In (name, content) reports_dir /\
                glob_match (glob_of pattern) name = true /\
                k = stem name /\ parser content = Ok v).
  assert (Hloop : forall files acc d',
            (forall f, In f files ->
                       In f reports_dir /\
                       glob_match (glob_of pattern) (fst f) = true) ->
            P acc ->
            for_each files
              (fun f d => v <- parser (snd f) ;;
                          Ok (dict_set (stem (fst f)) v d)) acc = Ok d' ->
            P d').
  { induction files as [|[name content] files IH]; intros acc d' Hf Hacc.
    - simpl. now intros [= <-].
    - simpl. destruct (parser content) as [v0|e] eqn:Hp; simpl;
        [|discriminate].
      apply IH.
      + intros f Hin. apply Hf. now right.
      + intros k0 v1 Hin. apply dict_set_in in Hin as [[-> ->] | Hin].
        * exists name, content.
          destruct (Hf (name, content) (or_introl eq_refl)) as [H1 H2].
          now repeat split.
        * now apply Hacc. }
  intros Hd Hin. revert k v Hin.
  refine (Hloop _ [] d _ _ Hd).
  - intros f Hf. now apply filter_In in Hf.
  - intros k0 v0 [].
Qed.

Lemma member_json_dict {V : Type} (f : V -> json) (k : string) (d : dict V) :
  member k (json_dict f d) = option_map f (dict_get k d).
Proof.
  unfold json_dict. simpl.
  induction d as [|[k' v'] d IH]; simpl; [reflexivity|].
  destruct (String.eqb k' k); [reflexivity | exact IH].
Qed.

Lemma parse_timing_report_ths (content : string) (r : timing_data) :
  parse_timing_report content = Ok r -> ths r = None.
Proof.
  intros H. pose proof (timing_report_outcome content) as Ho.
  rewrite H in Ho. simpl in Ho. tauto.
Qed.

(** C9.  The record returned by [parse_timing_report] has a fifth field
    [ths], which is [None] for every report text, and the JSON export
    writes it: each timing object of the exported document has the five
    keys, with [null] under [ths]. *)
Theorem ths_is_always_null :
  (forall content r,
     parse_timing_report content = Ok r ->
     ths r = None /\
     keys (json_timing r)
     = ["wns"; "tns"; "whs"; "ths"; "failing_endpoints"] /\
     member "ths" (json_timing r) = Some JNull) /\
  (forall reports_dir now results name t output_file fs,
     analyze_all_reports reports_dir now = Ok results ->
     dict_get name (Results.timing results) = Some t ->
     ths t = None /\
     exists document,
       save_results_json results output_file fs
       = ((fs ++ [(output_file, Json document)])%list, None) /\
       at_path ["timing"; name; "ths"] document = Some JNull).
Proof.
  split.
  - intros content r H. apply parse_timing_report_ths in H.
    repeat split; trivial. simpl. now rewrite H.
  - intros reports_dir now results name t output_file fs Ha Hget.
    assert (Hths : ths t = None).
    { rewrite analyze_all_reports_loops in Ha.
      destruct (collect_loop "*timing*.rpt" _ _) as [d|] eqn:Hd;
        [|discriminate].
      simpl in Ha.
      destruct (collect_loop "*utilization*.rpt" _ _); [|discriminate].
      simpl in Ha.
      destruct (collect_loop "*power*.rpt" _ _); [|discriminate].
      simpl in Ha. injection Ha as <-. simpl in Hget.
      apply dict_get_in in Hget.
      destruct (collect_loop_values _ _ _ _ _ _ Hd Hget)
        as (name' & content & _ & _ & _ & Hp).
      now apply parse_timing_report_ths in Hp. }
    split; [exact Hths|].
    exists (json_results results). split; [reflexivity|].
    cbn [at_path json_results member dict_get String.eqb Ascii.eqb
         Bool.eqb].
    rewrite member_json_dict, Hget. simpl. now rewrite Hths.
Qed.

Lemma ths_is_always_null_witness :
  ths {| wns := Some (float_of_decimal false 15 1); tns := None;
         whs := None; ths := None; failing_endpoints := 3 |} = None /\
  at_path ["timing"; "post_route_timing"; "ths"]
    (json_results
       {| Results.timestamp := "2024-05-01T12:00:00";
          Results.timing :=
            [("post_route_timing",
              {| wns := Some (float_of_decimal false 15 1); tns := None;
                 whs := None; ths := None; failing_endpoints := 3 |})];
          Results.utilization := []; Results.power := [] |})
  = Some JNull.
Proof.
  destruct ths_is_always_null as (Hp & Ha).
  split.
  - now apply (Hp "Failing Endpoints: 3 WNS(ns): 1.5").
  - destruct (Ha [("post_route_timing.rpt",
                   "Failing Endpoints: 3 WNS(ns): 1.5")]
                "2024-05-01T12:00:00" _ "post_route_timing" _ "out.json" []
                eq_refl eq_refl) as (_ & doc & Hs & Hpath).
    injection Hs as <-. exact Hpath.
Defined.

(** ** The dashboard of an empty directory *)

Lemma differs_starts_with (pat s y : string) :
  differs pat s = true -> starts_with pat (s ++ y) = false.
Proof.
  revert s; induction pat as [|a pat IH]; intros s H; [discriminate|].
  destruct s as [|b s]; [discriminate|].
  simpl in *. destruct (Ascii.eqb a b); [|reflexivity].
  now rewrite IH.
Qed.

Lemma count_sub_skip (pat a y : string) :
  no_start pat a = true -> count_sub pat (a ++ y) = count_sub pat y.
Proof.
  induction a as [|c a IH]; intros H; [reflexivity|].
  cbn [no_start] in H. apply andb_true_iff in H as [Hd Hn].
  change (String c a ++ y) with (String c (a ++ y)).
  cbn [count_sub].
  change (String c (a ++ y)) with (String c a ++ y).
  rewrite (differs_starts_with _ _ _ Hd). now rewrite IH.
Qed.

Lemma no_start_tile (s : string) :
  all_chars not_lt s = true -> no_start tile_open s = true.
Proof.
  induction s as [|c s IH]; [reflexivity|].
  simpl all_chars. intros H. apply andb_true_iff in H as [Hc Hs].
  cbn [no_start]. rewrite (IH Hs), andb_true_r.
  unfold not_lt in Hc. apply negb_true_iff in Hc.
  change tile_open with (String "<" (tail tile_open)).
  cbn [differs]. rewrite Ascii.eqb_sym. now rewrite Hc.
Qed.

Lemma html_head_split (now : string) :
  html_head now
  = substring 0 949 (html_head "") ++ now
    ++ substring 949 109 (html_head "").
Proof. vm_compute. reflexivity. Qed.

Lemma empty_page_has_no_tile (now : string) :
  all_chars not_lt now = true -> count_sub tile_open (empty_page now) = O.
Proof.
  intros H. unfold empty_page. rewrite html_head_split, !append_assoc.
  rewrite count_sub_skip by (vm_compute; reflexivity).
  rewrite count_sub_skip by now apply no_start_tile.
  vm_compute. reflexivity.
Qed.

(** C8.  The scan of an empty directory returns a result whose three
    mappings are empty; the dashboard of that result writes no chart and
    writes the page [dashboard.html], made of the frames of the three
    metric sections with no metric tile in them. *)
Theorem empty_directory_dashboard
    (plt_subplots : string -> option exn)
    (plt_timing : string -> dict timing_data -> list string -> option exn)
    (plt_utilization : util_data -> option exn)
    (plt_power : dict power_data -> option exn)
    (now : string) (fs : list file) :
  let results :=
    {| Results.timestamp := now; Results.timing := [];
       Results.utilization := []; Results.power := [] |} in
  analyze_all_reports [] now = Ok results /\
  generate_performance_dashboard plt_subplots plt_timing plt_utilization
    plt_power results fs
  = ((fs ++ [("dashboard.html", Html (empty_page now))])%list, None) /\
  (all_chars not_lt now = true ->
   count_sub tile_open (empty_page now) = O /\
   count_sub metrics_open (empty_page now) = 3%nat).
Proof.
  split; [reflexivity|]. split; [reflexivity|].
  intros H. split; [now apply empty_page_has_no_tile|].
  unfold empty_page. rewrite html_head_split, !append_assoc.
  rewrite count_sub_skip by (vm_compute; reflexivity).
  assert (Hm : no_start metrics_open now = true).
  { clear -H. induction now as [|c s IH]; [reflexivity|].
    simpl all_chars in H. apply andb_true_iff in H as [Hc Hs].
    cbn [no_start]. rewrite (IH Hs), andb_true_r.
    unfold not_lt in Hc. apply negb_true_iff in Hc.
    change metrics_open with (String "<" (tail metrics_open)).
    cbn [differs]. rewrite Ascii.eqb_sym. now rewrite Hc. }
  rewrite count_sub_skip by exact Hm.
  vm_compute. reflexivity.
Qed.

Lemma empty_directory_dashboard_witness :
  count_sub tile_open (empty_page "2024-05-01T12:00:00.000000") = O /\
  count_sub metrics_open (empty_page "2024-05-01T12:00:00.000000") = 3%nat.
Proof.
  exact (proj2 (proj2 (empty_directory_dashboard
                         (fun _ => None) (fun _ _ _ => None)
                         (fun _ => None) (fun _ => None)
                         "2024-05-01T12:00:00.000000" []))
           eq_refl).
Defined.

(** ** Names of report files *)

Lemma some_suffix_spec (k : string -> bool) (s : string) :
  some_suffix k s = true <-> exists a t, s = a ++ t /\ k t = true.
Proof.
  induction s as [|c s IH].
  - simpl. rewrite orb_false_r. split.
    + intros H. now exists "", "".
    + intros (a & t & Heq & H). destruct a; [|discriminate].
      simpl in Heq. now subst t.
  - cbn [some_suffix]. rewrite orb_true_iff, IH. split.
    + intros [H | (a & t & -> & H)].
      * now exists "", (String c s).
      * now exists (String c a), t.
    + intros (a & t & Heq & H). destruct a as [|c' a].
      * left. simpl in Heq. now subst t.
      * right. injection Heq as -> ->. now exists a, t.
Qed.

Lemma starts_with_spec (pat s : string) :
  starts_with pat s = true <-> exists t, s = pat ++ t.
Proof.
  revert s; induction pat as [|a pat IH]; intros s.
  - simpl. split; [intros _; now exists s | reflexivity].
  - destruct s as [|b s]; simpl.
    + split; [discriminate | intros (t & H); discriminate].
    + rewrite andb_true_iff, IH. split.
      * intros [Hab (t & ->)]. apply Ascii.eqb_eq in Hab as ->. now exists t.
      * intros (t & [= -> ->]). split; [apply Ascii.eqb_refl | now exists t].
Qed.

Lemma contains_spec (keyword name : string) :
  contains keyword name = true <-> exists a b, name = a ++ keyword ++ b.
Proof.
  unfold contains. rewrite some_suffix_spec. split.
  - intros (a & t & -> & H). apply starts_with_spec in H as (b & ->).
    now exists a, b.
  - intros (a & b & ->). exists a, (keyword ++ b). split; [reflexivity|].
    apply starts_with_spec. now exists b.
Qed.

Lemma ends_with_spec (extension name : string) :
  ends_with extension name = true <-> exists a, name = a ++ extension.
Proof.
  unfold ends_with. rewrite some_suffix_spec. split.
  - intros (a & t & -> & H). apply String.eqb_eq in H as ->. now exists a.
  - intros (a & ->). exists a, extension. split; [reflexivity|].
    apply String.eqb_refl.
Qed.

Lemma glob_match_chrs (s : string) (pat : list glob_token) (name : string) :
  glob_match (chrs s ++ pat)%list name = true <->
  exists t, name = s ++ t /\ glob_match pat t = true.
Proof.
  revert name; induction s as [|c s IH]; intros name.
  - simpl. split; [intros H; now exists name | now intros (t & -> & H)].
  - destruct name as [|c' name]; simpl.
    + split; [discriminate | intros (t & H & _); discriminate].
    + rewrite andb_true_iff, IH. split.
      * intros [Hc (t & -> & H)]. apply Ascii.eqb_eq in Hc as ->.
        now exists t.
      * intros (t & [= -> ->] & H).
        split; [apply Ascii.eqb_refl | now exists t].
Qed.

Lemma glob_match_exact (s name : string) :
  glob_match (chrs s) name = true <-> name = s.
Proof.
  rewrite <- (app_nil_r (chrs s)), glob_match_chrs. simpl. split.
  - intros (t & -> & H). apply is_empty_true in H as ->.
    apply append_nil_r.
  - intros ->. exists "". now rewrite append_nil_r.
Qed.

Lemma glob_of_plain (s rest : string) :
  all_chars not_star s = true ->
  glob_of (s ++ rest) = (chrs s ++ glob_of rest)%list.
Proof.
  induction s as [|c s IH]; [reflexivity|].
  simpl all_chars. intros H. apply andb_true_iff in H as [Hc Hs].
  unfold not_star in Hc. apply negb_true_iff, Ascii.eqb_neq in Hc.
  change (String c s ++ rest) with (String c (s ++ rest)).
  cbn [glob_of chrs app]. rewrite <- (IH Hs).
  destruct c as [[] [] [] [] [] [] [] []]; try reflexivity. congruence.
Qed.

(** What the pattern [*keyword*.rpt] matches. *)
Lemma glob_keyword_spec (keyword name : string) :
  all_chars not_star keyword = true ->
  glob_match (glob_of ("*" ++ keyword ++ "*.rpt")) name = true <->
  exists a b, name = a ++ keyword ++ b ++ ".rpt".
Proof.
  intros Hstar.
  change ("*" ++ keyword ++ "*.rpt") with (String "*" (keyword ++ "*.rpt")).
  cbn [glob_of]. rewrite (glob_of_plain _ _ Hstar).
  change (glob_of "*.rpt") with (Any :: chrs ".rpt").
  cbn [glob_match]. rewrite some_suffix_spec. split.
  - intros (a & t & -> & H).
    apply glob_match_chrs in H as (u & -> & H).
    cbn [glob_match] in H. apply some_suffix_spec in H as (b & v & -> & H).
    apply glob_match_exact in H as ->. now exists a, b.
  - intros (a & b & ->). exists a, (keyword ++ b ++ ".rpt").
    split; [reflexivity|]. apply glob_match_chrs.
    exists (b ++ ".rpt"). split; [reflexivity|].
    cbn [glob_match]. apply some_suffix_spec. exists b, ".rpt".
    split; [reflexivity|]. now apply glob_match_exact.
Qed.

Lemma not_dot_in (a b : string) :
  all_chars not_dot (a ++ String "." b) = false.
Proof.
  rewrite all_chars_append. simpl. apply andb_false_r.
Qed.

(** A name that holds the keyword and ends in [.rpt] holds the keyword
    before the extension. *)
Lemma keyword_before_extension (keyword name : string) :
  all_chars not_dot keyword = true ->
  contains keyword ".rpt" = false ->
  (exists a b, name = a ++ keyword ++ b ++ ".rpt") <->
  contains keyword name = true /\ ends_with ".rpt" name = true.
Proof.
  intros Hdot Hext. rewrite contains_spec, ends_with_spec. split.
  - intros (a & b & ->). split.
    + now exists a, (b ++ ".rpt").
    + exists (a ++ keyword ++ b). now rewrite !append_assoc.
  - intros [(a & b & ->) (c & Heq)].
    apply append_eq_append in Heq as (l & [[-> Hl] | [-> Hl]]).
    + exfalso. assert (H : contains keyword ".rpt" = true)
        by (apply contains_spec; now exists l, b).
      congruence.
    + apply append_eq_append in Hl as (l' & [[-> Hl'] | [-> ->]]).
      * destruct l' as [|x l'].
        -- simpl in Hl'. subst b. exists a, "".
           now rewrite append_nil_r.
        -- injection Hl' as <- _. now rewrite not_dot_in in Hdot.
      * now exists a, l'.
Qed.

Lemma bool_eq_iff (a b : bool) : (a = true <-> b = true) -> a = b.
Proof. destruct a, b; intuition congruence. Qed.

Lemma glob_keyword (keyword name : string) :
  all_chars not_star keyword = true ->
  all_chars not_dot keyword = true ->
  contains keyword ".rpt" = false ->
  glob_match (glob_of ("*" ++ keyword ++ "*.rpt")) name
  = contains keyword name && ends_with ".rpt" name.
Proof.
  intros Hstar Hdot Hext. apply bool_eq_iff.
  rewrite (glob_keyword_spec _ _ Hstar), andb_true_iff.
  now apply keyword_before_extension.
Qed.

(** ** Stems *)

Lemma rfind_extension (x : string) :
  rfind "." (x ++ ".rpt") = Some (String.length x).
Proof.
  induction x as [|c x IH]; [reflexivity|].
  change (String c x ++ ".rpt") with (String c (x ++ ".rpt")).
  cbn [rfind]. now rewrite IH.
Qed.

Lemma substring_prefix (x t : string) :
  substring 0 (String.length x) (x ++ t) = x.
Proof.
  induction x as [|c x IH]; simpl.
  - now destruct t.
  - now rewrite IH.
Qed.

(** The stem of a report name is the name without [.rpt]. *)
Lemma stem_extension (x : string) : x <> "" -> stem (x ++ ".rpt") = x.
Proof.
  intros Hne. unfold stem. rewrite rfind_extension, length_append.
  destruct x as [|c x]; [congruence|].
  replace ((0 <? String.length (String c x))%nat) with true
    by (symmetry; apply Nat.ltb_lt; simpl; lia).
  replace ((String.length (String c x)
            <? String.length (String c x) + String.length ".rpt" - 1)%nat)
    with true by (symmetry; apply Nat.ltb_lt; simpl; lia).
  apply substring_prefix.
Qed.

Lemma stem_of_report (keyword name : string) :
  keyword <> "" ->
  all_chars not_dot keyword = true ->
  contains keyword ".rpt" = false ->
  contains keyword name && ends_with ".rpt" name = true ->
  stem name ++ ".rpt" = name.
Proof.
  intros Hne Hdot Hext H. apply andb_true_iff in H.
  apply (keyword_before_extension _ _ Hdot Hext) in H as (a & b & ->).
  rewrite <- !append_assoc. rewrite stem_extension; [reflexivity|].
  destruct a; simpl; [|discriminate].
  destruct keyword; [congruence | discriminate].
Qed.

(** ** The collector against its specification *)

Lemma dict_set_fresh {V : Type} (k : string) (v : V) (d : dict V) :
  ~ In k (map fst d) -> dict_set k v d = (d ++ [(k, v)])%list.
Proof.
  induction d as [|[k' v'] d IH]; intros H; [reflexivity|].
  simpl in *. destruct (String.eqb k' k) eqn:Hk.
  - apply String.eqb_eq in Hk. tauto.
  - rewrite IH; tauto.
Qed.

Lemma collect_loop_refines {V : Type} (keyword : string)
    (parser : string -> result V) (reports_dir : directory) :
  keyword <> "" ->
  all_chars not_star keyword = true ->
  all_chars not_dot keyword = true ->
  contains keyword ".rpt" = false ->
  NoDup (map fst reports_dir) ->
  collect_loop ("*" ++ keyword ++ "*.rpt") parser reports_dir
  = collect keyword parser reports_dir.
Proof.
  intros Hne Hstar Hdot Hext Hnodup. unfold collect_loop, glob.
  set (pat := glob_of ("*" ++ keyword ++ "*.rpt")).
  set (body := fun (f : string * string) (d : dict V) =>
                 v <- parser (snd f) ;; Ok (dict_set (stem (fst f)) v d)).
  assert (Hgen : forall dir acc,
            NoDup (map fst dir) ->
            (forall name, In name (map fst dir) ->
                          glob_match pat name = true ->
                          ~ In (stem name) (map fst acc)) ->
            for_each (filter (fun f => glob_match pat (fst f)) dir) body acc
            = (d <- collect keyword parser dir ;; Ok (acc ++ d)%list)).
  { induction dir as [|[name content] dir IH]; intros acc Hnd Hacc.
    - simpl. now rewrite app_nil_r.
    - simpl in Hnd. apply NoDup_cons_iff in Hnd as [Hnotin Hnd].
      cbn [filter collect fst].
      rewrite <- (glob_keyword keyword name Hstar Hdot Hext).
      fold pat. destruct (glob_match pat name) eqn:Hg.
      + cbn [for_each]. unfold body at 1. cbn [fst snd].
        destruct (parser content) as [v|e]; [|reflexivity].
        cbn [bind].
        rewrite dict_set_fresh
          by (apply Hacc; [now left | exact Hg]).
        rewrite IH; [| exact Hnd |].
        * destruct (collect keyword parser dir) as [d|e]; [|reflexivity].
          cbn [bind]. now rewrite <- app_assoc.
        * intros name' Hin' Hg' Hin.
          rewrite map_app, in_app_iff in Hin. destruct Hin as [Hin | Hin].
          -- apply (Hacc name'); [now right | exact Hg' | exact Hin].
          -- simpl in Hin. destruct Hin as [Heq | []].
             unfold pat in Hg, Hg'.
             rewrite (glob_keyword _ _ Hstar Hdot Hext) in Hg.
             rewrite (glob_keyword _ _ Hstar Hdot Hext) in Hg'.
             apply (stem_of_report _ _ Hne Hdot Hext) in Hg.
             apply (stem_of_report _ _ Hne Hdot Hext) in Hg'.
             assert (name = name') by congruence. subst name'.
             contradiction.
      + apply IH; [exact Hnd|].
        intros name' Hin'. apply Hacc. now right. }
  rewrite (Hgen reports_dir [] Hnodup) by (intros ? ? ? []).
  now destruct (collect keyword parser reports_dir).
Qed.

(** C6.  A file belongs to a category exactly when its name holds the
    keyword of the category, letter case included, and ends in [.rpt];
    the collector parses each such file with the parser of the category
    and stores the record under the stem of the file's name, the name
    without [.rpt]. *)
Theorem collector_by_keyword_and_stem :
  (forall name,
     glob_match (glob_of "*timing*.rpt") name
     = contains "timing" name && ends_with ".rpt" name) /\
  (forall name,
     glob_match (glob_of "*utilization*.rpt") name
     = contains "utilization" name && ends_with ".rpt" name) /\
  (forall name,
     glob_match (glob_of "*power*.rpt") name
     = contains "power" name && ends_with ".rpt" name) /\
  (forall keyword name,
     In keyword ["timing"; "utilization"; "power"] ->
     contains keyword name && ends_with ".rpt" name = true ->
     stem name ++ ".rpt" = name) /\
  (forall reports_dir now,
     NoDup (map fst reports_dir) ->
     analyze_all_reports reports_dir now =
     (t <- collect "timing" parse_timing_report reports_dir ;;
      u <- collect "utilization" parse_utilization_report reports_dir ;;
      p <- collect "power" parse_power_report reports_dir ;;
      Ok {| Results.timestamp := now; Results.timing := t;
            Results.utilization := u; Results.power := p |})).
Proof.
  split; [|split; [|split; [|split]]].
  - intros name. now apply (glob_keyword "timing").
  - intros name. now apply (glob_keyword "utilization").
  - intros name. now apply (glob_keyword "power").
  - intros keyword name [<- | [<- | [<- | []]]];
      now apply stem_of_report.
  - intros reports_dir now Hnodup. rewrite analyze_all_reports_loops.
    rewrite <- (collect_loop_refines "timing") by (trivial; discriminate).
    rewrite <- (collect_loop_refines "utilization")
      by (trivial; discriminate).
    rewrite <- (collect_loop_refines "power") by (trivial; discriminate).
    reflexivity.
Qed.

Lemma collector_by_keyword_and_stem_witness :
  analyze_all_reports directory_example "2024-05-01T12:00:00"
  = Ok {| Results.timestamp := "2024-05-01T12:00:00";
          Results.timing :=
            [("post_route_timing",
              {| wns := Some (float_of_decimal false 15 1); tns := None;
                 whs := None; ths := None; failing_endpoints := 0 |});
             ("power_timing",
              {| wns := Some (float_of_decimal true 2 0); tns := None;
                 whs := None; ths := None; failing_endpoints := 0 |})];
          Results.utilization := [];
          Results.power :=
            [("power_timing",
              {| total_power := PyInt 0;
                 dynamic_power := PyFloat (float_of_decimal false 5 1);
                 static_power := PyInt 0; confidence := "Low" |})] |}.
Proof.
  destruct collector_by_keyword_and_stem as (_ & _ & _ & _ & H).
  rewrite (H directory_example "2024-05-01T12:00:00").
  - reflexivity.
  - repeat constructor; simpl; intuition discriminate.
Defined.

(** ** Parsed percentages are numbers *)

Lemma shr_1_nonneg (mrs : shr_record) :
  0 <= shr_m mrs -> 0 <= shr_m (shr_1 mrs).
Proof.
  destruct mrs as [m r s]. destruct m as [|[p|p|]|[p|p|]]; simpl; lia.
Qed.

Lemma iter_pos_invariant {A : Type} (f : A -> A) (P : A -> Prop) :
  (forall x, P x -> P (f x)) ->
  forall p x, P x -> P (iter_pos f p x).
Proof.
  intros Hf. induction p as [p IH|p IH|]; intros x Hx; simpl; auto.
Qed.

Lemma shr_nonneg (mrs : shr_record) (e n : Z) :
  0 <= shr_m mrs -> 0 <= shr_m (fst (shr mrs e n)).
Proof.
  intros H. destruct n as [|p|p]; simpl; trivial.
  apply (iter_pos_invariant shr_1 (fun x => 0 <= shr_m x)); trivial.
  apply shr_1_nonneg.
Qed.

Lemma shr_fexp_nonneg (m e : Z) (l : location) :
  0 <= m -> 0 <= shr_m (fst (shr_fexp prec emax m e l)).
Proof.
  intros H. unfold shr_fexp. apply shr_nonneg.
  destruct l as [|[]]; exact H.
Qed.

Lemma round_nearest_even_nonneg (m : Z) (l : location) :
  0 <= m -> 0 <= round_nearest_even m l.
Proof.
  intros H. destruct l as [|[]]; simpl; try lia.
  destruct (Z.even m); lia.
Qed.

Lemma binary_round_aux_not_nan (sx : bool) (mx ex : Z) (lx : location) :
  0 <= mx -> binary_round_aux prec emax sx mx ex lx <> S754_nan.
Proof.
  intros H. unfold binary_round_aux.
  pose proof (shr_fexp_nonneg mx ex lx H) as H1.
  destruct (shr_fexp prec emax mx ex lx) as [mrs' e'].
  simpl fst in H1.
  pose proof (shr_fexp_nonneg _ e' loc_Exact
                (round_nearest_even_nonneg _ (loc_of_shr_record mrs') H1))
    as H2.
  destruct (shr_fexp prec emax _ e' loc_Exact) as [mrs'' e''].
  simpl fst in H2.
  destruct (shr_m mrs'') as [|p|p]; try discriminate.
  - destruct (e'' <=? emax - prec); discriminate.
  - lia.
Qed.

Lemma float_of_decimal_not_nan (neg : bool) (m : Z) (k : nat) :
  0 <= m -> float_of_decimal neg m k <> S754_nan.
Proof.
  intros H. unfold float_of_decimal.
  destruct m as [|p|p]; [discriminate | | lia].
  unfold SFdiv_core_binary.
  set (d := 10 ^ Z.of_nat k).
  set (e' := Z.min _ _).
  set (m' := match 0 - 0 - e' with
             | 0 => Z.pos p
             | Z.pos _ => Z.shiftl (Z.pos p) (0 - 0 - e')
             | Z.neg _ => 0
             end).
  assert (Hm' : 0 <= m').
  { unfold m'. destruct (0 - 0 - e'); try lia.
    apply Z.shiftl_nonneg. lia. }
  assert (Hd : 0 < d) by (apply Z.pow_pos_nonneg; lia).
  pose proof (Z.div_pos m' d Hm' Hd) as Hq.
  unfold Z.div in Hq.
  destruct (Z.div_eucl m' d) as [q r].
  now apply binary_round_aux_not_nan.
Qed.

Lemma digits_value_nonneg (s : string) (acc : Z) :
  all_chars is_digit s = true -> 0 <= acc -> 0 <= digits_value acc s.
Proof.
  revert acc; induction s as [|c s IH]; intros acc Hall Hacc; [exact Hacc|].
  cbn [all_chars] in Hall. apply andb_true_iff in Hall as [Hc Hs].
  cbn [digits_value]. apply IH; [exact Hs|].
  unfold is_digit in Hc. apply andb_true_iff in Hc as [Hc _].
  apply Z.leb_le in Hc. unfold digit_value. lia.
Qed.

Lemma span_all (p : ascii -> bool) (s a b : string) :
  span p s = (a, b) -> all_chars p a = true.
Proof.
  revert a b; induction s as [|c s IH]; intros a b; simpl.
  - now intros [= <- _].
  - destruct (p c) eqn:Hc.
    + destruct (span p s) as [a' b']. intros [= <- _].
      simpl. now rewrite Hc, (IH a' b').
    + now intros [= <- _].
Qed.

(** [float] of a text of digits and points is never the float that is
    not a number. *)
Lemma py_float_not_nan (s : string) (f : spec_float) :
  py_float s = Ok f -> f <> S754_nan.
Proof.
  unfold py_float. destruct (strip_sign s) as [neg body].
  destruct (span is_digit body) as [ip rest] eqn:Hspan.
  apply span_all in Hspan.
  destruct rest as [|c fp].
  - destruct (is_empty ip); [discriminate|]. intros [= <-].
    apply float_of_decimal_not_nan. now apply digits_value_nonneg.
  - destruct (Ascii.eqb c ".") eqn:Hc.
    + apply Ascii.eqb_eq in Hc as ->.
      destruct (all_chars is_digit fp) eqn:Hfp; [|discriminate].
      destruct (negb (is_empty ip && is_empty fp)); [|discriminate].
      intros [= <-]. apply float_of_decimal_not_nan.
      apply digits_value_nonneg; [|lia].
      now rewrite all_chars_append, Hspan, Hfp.
    + destruct c as [[] [] [] [] [] [] [] []]; discriminate.
Qed.

(** Every percentage in a parsed utilization record is a number. *)
Lemma parsed_utilization_is_number (content : string) (r : util_data)
    (k : resource_kind) :
  parse_utilization_report content = Ok r ->
  is_nan (utilization (resource_field k r)) = false.
Proof.
  intros H. pose proof (utilization_report_outcome content) as Ho.
  rewrite H in Ho. simpl in Ho. destruct (Ho k) as (o & He & ->).
  destruct o as [res|]; [|reflexivity]. simpl.
  unfold extract in He.
  destruct (re_search (row_re (row_label k)) content) as [m|];
    [|discriminate].
  unfold resource_of_match in He.
  destruct (py_int (group 1 m)); [|discriminate].
  destruct (py_int (group 2 m)); [|discriminate].
  destruct (py_float (group 3 m)) as [p|] eqn:Hp; [|discriminate].
  simpl in He. injection He as <-. simpl.
  apply py_float_not_nan in Hp. now destruct p.
Qed.

(** * Further properties of the parsers *)

(** ** Values of the parsed records *)

Lemma binary_round_aux_sign (sx : bool) (mx ex : Z) (lx : location) :
  0 <= mx ->
  match binary_round_aux prec emax sx mx ex lx with
  | S754_zero s | S754_infinity s | S754_finite s _ _ => s = sx
  | S754_nan => False
  end.
Proof.
  intros H. unfold binary_round_aux.
  pose proof (shr_fexp_nonneg mx ex lx H) as H1.
  destruct (shr_fexp prec emax mx ex lx) as [mrs' e'].
  simpl fst in H1.
  pose proof (shr_fexp_nonneg _ e' loc_Exact
                (round_nearest_even_nonneg _ (loc_of_shr_record mrs') H1))
    as H2.
  destruct (shr_fexp prec emax _ e' loc_Exact) as [mrs'' e''].
  simpl fst in H2.
  destruct (shr_m mrs'') as [|p|p]; [reflexivity | | lia].
  destruct (e'' <=? emax - prec); reflexivity.
Qed.

Lemma float_of_decimal_sign (neg : bool) (m : Z) (k : nat) :
  0 <= m ->
  match float_of_decimal neg m k with
  | S754_zero s | S754_infinity s | S754_finite s _ _ => s = neg
  | S754_nan => False
  end.
Proof.
  intros H. unfold float_of_decimal.
  destruct m as [|p|p]; [reflexivity | | lia].
  unfold SFdiv_core_binary.
  set (d := 10 ^ Z.of_nat k).
  set (e' := Z.min _ _).
  set (m' := match 0 - 0 - e' with
             | 0 => Z.pos p
             | Z.pos _ => Z.shiftl (Z.pos p) (0 - 0 - e')
             | Z.neg _ => 0
             end).
  assert (Hm' : 0 <= m').
  { unfold m'. destruct (0 - 0 - e'); try lia.
    apply Z.shiftl_nonneg. lia. }
  assert (Hd : 0 < d) by (apply Z.pow_pos_nonneg; lia).
  pose proof (Z.div_pos m' d Hm' Hd) as Hq.
  unfold Z.div in Hq.
  destruct (Z.div_eucl m' d) as [q r].
  now apply binary_round_aux_sign.
Qed.

Lemma unsigned_float_nonneg (f : spec_float) :
  match f with
  | S754_zero s | S754_infinity s | S754_finite s _ _ => s = false
  | S754_nan => False
  end ->
  num_ge (PyFloat f) 0 = true.
Proof.
  destruct f as [s|s| |s m e]; intros H; try contradiction; subst s;
    try reflexivity.
  unfold num_ge, num_compare, float_compare.
  destruct (0 <=? e) eqn:He.
  - apply Z.leb_le in He.
    assert (Hp : 0 < Z.pos m * 2 ^ e)
      by (apply Z.mul_pos_pos; [lia | now apply Z.pow_pos_nonneg]).
    apply Z.compare_gt_iff in Hp. now rewrite Hp.
  - reflexivity.
Qed.

Lemma strip_sign_unsigned (s : string) :
  all_chars is_digit_or_dot s = true -> strip_sign s = (false, s).
Proof.
  destruct s as [|c s]; [reflexivity|].
  cbn [all_chars]. intros H. apply andb_true_iff in H as [Hc _].
  unfold strip_sign.
  destruct c as [[] [] [] [] [] [] [] []]; try reflexivity; discriminate.
Qed.

(** [float] of a text of digits and points is a number that is not
    negative. *)
Lemma py_float_unsigned_nonneg (s : string) (f : spec_float) :
  all_chars is_digit_or_dot s = true ->
  py_float s = Ok f -> num_ge (PyFloat f) 0 = true.
Proof.
  intros Hall. unfold py_float. rewrite (strip_sign_unsigned s Hall).
  destruct (span is_digit s) as [ip rest] eqn:Hspan.
  apply span_all in Hspan.
  destruct rest as [|c fp].
  - destruct (is_empty ip); [discriminate|]. intros [= <-].
    apply unsigned_float_nonneg, float_of_decimal_sign.
    now apply digits_value_nonneg.
  - destruct (Ascii.eqb c ".") eqn:Hc.
    + apply Ascii.eqb_eq in Hc as ->.
      destruct (all_chars is_digit fp) eqn:Hfp; [|discriminate].
      destruct (negb (is_empty ip && is_empty fp)); [|discriminate].
      intros [= <-]. apply unsigned_float_nonneg, float_of_decimal_sign.
      apply digits_value_nonneg; [|lia].
      now rewrite all_chars_append, Hspan, Hfp.
    + destruct c as [[] [] [] [] [] [] [] []]; discriminate.
Qed.

(** The capture of a power pattern. *)
Lemma power_capture (label content : string) (m : list string) :
  re_search (power_re label) content = Some m ->
  exists p, m = [p] /\ all_chars is_digit_or_dot p = true /\ p <> "".
Proof.
  intros H. apply re_search_some in H as (pre & s & _ & H).
  unfold power_re in H.
  apply match_lits_some in H as (s1 & _ & H).
  apply match_star_some in H as (? & ? & _ & _ & H).
  apply match_lit_some in H as (? & _ & H).
  apply match_star_some in H as (? & ? & _ & _ & H).
  apply match_group_some in H as (p & ? & g & _ & Hp & Hp' & H & ->).
  injection H as <-. now exists p.
Qed.

(** The capture of a slack pattern. *)
Lemma slack_capture (label content : string) (m : list string) :
  re_search (slack_re label) content = Some m ->
  exists p, m = [p] /\ all_chars is_signed_char p = true /\ p <> "".
Proof.
  intros H. apply re_search_some in H as (pre & s & _ & H).
  unfold slack_re in H.
  apply match_lits_some in H as (s1 & _ & H).
  apply match_star_some in H as (? & ? & _ & _ & H).
  apply match_group_some in H as (p & ? & g & _ & Hp & Hp' & H & ->).
  injection H as <-. now exists p.
Qed.

(** ** Extraction of a labelled number *)









(** X1.  In every record [parse_timing_report] returns, a slack is [None]
    exactly when its pattern has no match in the text, a slack that is
    present is a number, and the count of failing endpoints is not
    negative. *)
Theorem parsed_timing_values (content : string) (r : timing_data) :
  parse_timing_report content = Ok r ->
  (forall f,
     (slack_field f r = None <->
      re_search (slack_re (slack_label f)) content = None) /\
     (forall x, slack_field f r = Some x -> x <> S754_nan)) /\
  0 <= failing_endpoints r.
Proof.
  intros H. pose proof (timing_report_outcome content) as Ho.
  rewrite H in Ho. simpl in Ho. destruct Ho as (Hf & _ & n & Hn & Hr).
  split.
  - intros f. specialize (Hf f). unfold extract, float_group in Hf.
    destruct (re_search (slack_re (slack_label f)) content) as [m|].
    + destruct (py_float (group 1 m)) as [v|] eqn:Hv; [|discriminate].
      simpl in Hf. injection Hf as Hf. rewrite <- Hf. split.
      * split; discriminate.
      * intros x [= <-]. now apply py_float_not_nan in Hv.
    + injection Hf as Hf. rewrite <- Hf. split; [tauto | discriminate].
  - rewrite Hr. unfold extract in Hn.
    destruct (re_search endpoints_re content) as [m|] eqn:Hm.
    + apply endpoints_capture in Hm as (num & -> & Hd).
      unfold int_group, group in Hn. simpl nth in Hn.
      rewrite (py_int_digits num Hd) in Hn.
      destruct (too_long num); [discriminate|]. simpl in Hn.
      injection Hn as <-. simpl.
      apply digits_spec in Hd as [Hd _].
      apply digits_value_nonneg; [exact Hd | lia].
    + injection Hn as <-. simpl. lia.
Qed.

Lemma parsed_timing_values_witness :
  (wns {| wns := None; tns := Some (float_of_decimal true 325 2);
          whs := None; ths := None; failing_endpoints := 7 |} = None <->
   re_search wns_re "TNS(ns): -3.25 Failing Endpoints: 7" = None) /\
  0 <= 7.
Proof.
  destruct (parsed_timing_values "TNS(ns): -3.25 Failing Endpoints: 7"
              {| wns := None; tns := Some (float_of_decimal true 325 2);
                 whs := None; ths := None; failing_endpoints := 7 |}
              eq_refl) as (Hf & He).
  split; [exact (proj1 (Hf WNS)) | exact He].
Defined.

(** X2.  In every record [parse_utilization_report] returns, the used and
    available counts of each resource are not negative and its percentage
    is a number that is not negative. *)
Theorem parsed_utilization_values (content : string) (r : util_data)
    (k : resource_kind) :
  parse_utilization_report content = Ok r ->
  0 <= used (resource_field k r) /\
  0 <= available (resource_field k r) /\
  num_ge (utilization (resource_field k r)) 0 = true.
Proof.
  intros H. pose proof (utilization_report_outcome content) as Ho.
  rewrite H in Ho. simpl in Ho. destruct (Ho k) as (o & He & ->).
  unfold extract in He.
  destruct (re_search (row_re (row_label k)) content) as [m|] eqn:Hm.
  - apply row_capture in Hm as (u & a & p & -> & Hu & Ha & Hp & _).
    rewrite (resource_of_match_row u a p Hu Ha) in He.
    destruct (too_long u || too_long a); [discriminate|].
    destruct (py_float p) as [v|] eqn:Hv; [|discriminate].
    simpl in He. injection He as <-. simpl.
    apply digits_spec in Hu as [Hu _]. apply digits_spec in Ha as [Ha _].
    repeat split.
    + apply digits_value_nonneg; [exact Hu | lia].
    + apply digits_value_nonneg; [exact Ha | lia].
    + now apply (py_float_unsigned_nonneg p).
  - injection He as <-. simpl. repeat split; lia.
Qed.

Lemma parsed_utilization_values_witness :
  num_ge (PyFloat (float_of_decimal false 200 1)) 0 = true.
Proof.
  exact (proj2 (proj2
    (parsed_utilization_values "CLB LUTs | 1000 | 0 | 5000 | 20.0"
       {| lut := {| used := 1000; available := 5000;
                    utilization := PyFloat (float_of_decimal false 200 1) |};
          ff := default_resource; bram := default_resource;
          dsp := default_resource |} LUT eq_refl))).
Defined.

(** X3.  In every record [parse_power_report] returns, each power is a
    number that is not negative and the confidence is ["Low"], whatever
    the text says. *)
Theorem parsed_power_values (content : string) (r : power_data) :
  parse_power_report content = Ok r ->
  confidence r = "Low" /\
  forall k, num_ge (power_field k r) 0 = true.
Proof.
  intros H. pose proof (power_report_outcome content) as Ho.
  rewrite H in Ho. simpl in Ho. destruct Ho as (Hc & Hk).
  split; [exact Hc|]. intros k. destruct (Hk k) as (o & He & ->).
  unfold extract, float_group in He.
  destruct (re_search (power_re (power_label k)) content) as [m|] eqn:Hm.
  - apply power_capture in Hm as (p & -> & Hp & _).
    unfold group in He. simpl nth in He.
    destruct (py_float p) as [v|] eqn:Hv; [|discriminate].
    simpl in He. injection He as <-. simpl.
    now apply (py_float_unsigned_nonneg p).
  - injection He as <-. reflexivity.
Qed.

Lemma parsed_power_values_witness :
  confidence
    {| total_power := PyFloat (float_of_decimal false 2345 3);
       dynamic_power := PyInt 0; static_power := PyInt 0;
       confidence := "Low" |} = "Low".
Proof.
  exact (proj1
    (parsed_power_values
       "Total On-Chip Power (W) | 2.345  Confidence Level | High"
       {| total_power := PyFloat (float_of_decimal false 2345 3);
          dynamic_power := PyInt 0; static_power := PyInt 0;
          confidence := "Low" |} eq_refl)).
Defined.

(** ** When the collection raises *)

Lemma for_each_raise_inv {A S : Type} (xs : list A)
    (body : A -> S -> result S) (s : S) (e : exn) :
  for_each xs body s = Raise e ->
  exists x s', In x xs /\ body x s' = Raise e.
Proof.
  revert s; induction xs as [|x xs IH]; intros s H; [discriminate|].
  simpl in H. destruct (body x s) as [s'|e'] eqn:Hx; simpl in H.
  - destruct (IH _ H) as (y & s'' & Hin & Hy).
    exists y, s''. split; [now right | exact Hy].
  - injection H as <-. exists x, s. split; [now left | exact Hx].
Qed.

Lemma collect_loop_raise_inv {A V : Type} (pattern : string)
    (parser : A -> result V) (reports_dir : list (string * A)) (e : exn) :
  collect_loop pattern parser reports_dir = Raise e ->
  exists name content,
    In (name, content) reports_dir /\
    glob_match (glob_of pattern) name = true /\
    parser content = Raise e.
Proof.
  unfold collect_loop. intros H.
  apply for_each_raise_inv in H as ([name content] & d & Hin & Hb).
  unfold glob in Hin. apply filter_In in Hin as [Hin Hg].
  exists name, content. repeat split; trivial.
  simpl in Hb. destruct (parser content); [discriminate|].
  simpl in Hb. now injection Hb as ->.
Qed.

Lemma disk_analyze_all_reports_loops (reports_dir : Disk.directory)
    (now : string) :
  Disk.analyze_all_reports reports_dir now =
  (t <- collect_loop "*timing*.rpt" Disk.parse_timing_report reports_dir ;;
   u <- collect_loop "*utilization*.rpt" Disk.parse_utilization_report
          reports_dir ;;
   p <- collect_loop "*power*.rpt" Disk.parse_power_report reports_dir ;;
   Ok {| Results.timestamp := now; Results.timing := t;
         Results.utilization := u; Results.power := p |}).
Proof. reflexivity. Qed.

(** A parser on disk raises what the reading raises, or else what the
    parser of the text raises, which is [ValueError]. *)
Lemma disk_parser_raise {V : Type} (parser : string -> result V)
    (report_file : Disk.entry) (e : exn) :
  (forall content e, parser content = Raise e -> e = ValueError) ->
  (content <- Disk.read report_file ;; parser content) = Raise e ->
  e = ValueError \/ report_file = Disk.Unreadable e.
Proof.
  intros Hp. destruct report_file as [content|e']; simpl.
  - intros H. left. eauto.
  - intros [= ->]. now right.
Qed.

Lemma glob_is_report_name (keyword name : string) :
  In keyword ["timing"; "utilization"; "power"] ->
  glob_match (glob_of ("*" ++ keyword ++ "*.rpt")) name = true ->
  is_report name = true.
Proof.
  intros Hk Hg. unfold is_report.
  destruct Hk as [<- | [<- | [<- | []]]];
    rewrite glob_keyword in Hg by reflexivity;
    apply andb_true_iff in Hg as [-> ->];
    rewrite ?orb_true_r; reflexivity.
Qed.

(** X4.  [analyze_all_reports] raises exactly when the parser of some
    entry that one of the three patterns matches raises, be it at the
    reading of the entry or at a conversion; the exception is
    [ValueError] unless it is the one that the reading of such an entry
    raises.  Entries that match no pattern cannot make it fail. *)
Theorem collection_raises_iff (reports_dir : Disk.directory)
    (now : string) :
  ((exists e, Disk.analyze_all_reports reports_dir now = Raise e) <->
   exists name report_file,
     In (name, report_file) reports_dir /\
     ((glob_match (glob_of "*timing*.rpt") name = true /\
       exists e, Disk.parse_timing_report report_file = Raise e) \/
      (glob_match (glob_of "*utilization*.rpt") name = true /\
       exists e, Disk.parse_utilization_report report_file = Raise e) \/
      (glob_match (glob_of "*power*.rpt") name = true /\
       exists e, Disk.parse_power_report report_file = Raise e))) /\
  (forall e, Disk.analyze_all_reports reports_dir now = Raise e ->
     e = ValueError \/
     exists name,
       is_report name = true /\ In (name, Disk.Unreadable e) reports_dir).
Proof.
  split; [split|].
  - intros (e & H). rewrite disk_analyze_all_reports_loops in H.
    destruct (collect_loop "*timing*.rpt" _ _) as [t|e1] eqn:H1.
    + destruct (collect_loop "*utilization*.rpt" _ _) as [u|e2] eqn:H2.
      * destruct (collect_loop "*power*.rpt" _ _) as [p|e3] eqn:H3;
          [discriminate|].
        apply collect_loop_raise_inv in H3 as (name & f & Hin & Hg & Hp).
        exists name, f. split; [exact Hin|]. right; right. eauto.
      * apply collect_loop_raise_inv in H2 as (name & f & Hin & Hg & Hp).
        exists name, f. split; [exact Hin|]. right; left. eauto.
    + apply collect_loop_raise_inv in H1 as (name & f & Hin & Hg & Hp).
      exists name, f. split; [exact Hin|]. left. eauto.
  - intros (name & f & Hin & H).
    rewrite disk_analyze_all_reports_loops.
    destruct (collect_loop "*timing*.rpt" Disk.parse_timing_report
                reports_dir) as [t|e1] eqn:H1; [|simpl; eauto].
    destruct (collect_loop "*utilization*.rpt"
                Disk.parse_utilization_report reports_dir)
      as [u|e2] eqn:H2; [|simpl; eauto].
    destruct (collect_loop "*power*.rpt" Disk.parse_power_report
                reports_dir) as [p|e3] eqn:H3; [|simpl; eauto].
    exfalso.
    destruct H as [[Hg [e He]] | [[Hg [e He]] | [Hg [e He]]]];
      destruct (collect_loop_raises _ _ _ _ _ _ Hin Hg He) as [e' He'];
      congruence.
  - intros e H. rewrite disk_analyze_all_reports_loops in H.
    assert (Hloop :
      forall (V : Type) (keyword : string)
             (parser : string -> result V),
        In keyword ["timing"; "utilization"; "power"] ->
        (forall content e, parser content = Raise e -> e = ValueError) ->
        collect_loop ("*" ++ keyword ++ "*.rpt")
          (fun f => content <- Disk.read f ;; parser content) reports_dir
        = Raise e ->
        e = ValueError \/
        exists name,
          is_report name = true /\
          In (name, Disk.Unreadable e) reports_dir).
    { intros V keyword parser Hk Hp Hc.
      apply collect_loop_raise_inv in Hc as (name & f & Hin & Hg & Hf).
      destruct (disk_parser_raise parser f e Hp Hf) as [-> | ->];
        [now left | right].
      exists name. split; [|exact Hin].
      now apply (glob_is_report_name keyword). }
    destruct (collect_loop "*timing*.rpt" _ _) as [t|e1] eqn:H1.
    + destruct (collect_loop "*utilization*.rpt" _ _) as [u|e2] eqn:H2.
      * destruct (collect_loop "*power*.rpt" _ _) as [p|e3] eqn:H3;
          [discriminate|].
        simpl in H. injection H as ->.
        apply (Hloop _ "power" parse_power_report);
          [simpl; tauto | apply parse_power_report_raise | exact H3].
      * simpl in H. injection H as ->.
        apply (Hloop _ "utilization" parse_utilization_report);
          [simpl; tauto | apply parse_utilization_report_raise | exact H2].
    + simpl in H. injection H as ->.
      apply (Hloop _ "timing" parse_timing_report);
        [simpl; tauto | apply parse_timing_report_raise | exact H1].
Qed.

Lemma collection_raises_iff_witness :
  (exists e,
     Disk.analyze_all_reports
       [("notes.txt", Disk.Unreadable OSError);
        ("a_power.rpt", Disk.Text "Dynamic (W) | 1..")]
       "2024-05-01T12:00:00" = Raise e) /\
  (OSError = ValueError \/
   exists name,
     is_report name = true /\
     In (name, Disk.Unreadable OSError)
       [("old_timing.rpt", Disk.Unreadable OSError);
        ("a_power.rpt", Disk.Text "Dynamic (W) | 1..")]).
Proof.
  split.
  - apply (proj1 (collection_raises_iff _ _)).
    exists "a_power.rpt", (Disk.Text "Dynamic (W) | 1..").
    split; [now right; left|].
    right; right. split; [reflexivity|]. now exists ValueError.
  - exact (proj2 (collection_raises_iff
                    [("old_timing.rpt", Disk.Unreadable OSError);
                     ("a_power.rpt", Disk.Text "Dynamic (W) | 1..")]
                    "2024-05-01T12:00:00") OSError eq_refl).
Defined.

(** ** The collector on disk and on texts *)

Lemma glob_on_disk (pattern : string) (reports_dir : directory) :
  glob pattern (on_disk reports_dir) = on_disk (glob pattern reports_dir).
Proof.
  unfold glob, on_disk. induction reports_dir as [|[name content] d IH];
    [reflexivity|].
  simpl. destruct (glob_match (glob_of pattern) name); simpl;
    now rewrite IH.
Qed.

Lemma for_each_on_disk {V : Type} (parser : string -> result V)
    (files : directory) (s : dict V) :
  for_each (on_disk files)
    (fun f d =>
       v <- (content <- Disk.read (snd f) ;; parser content) ;;
       Ok (dict_set (stem (fst f)) v d)) s
  = for_each files
      (fun f d => v <- parser (snd f) ;; Ok (dict_set (stem (fst f)) v d)) s.
Proof.
  revert s. induction files as [|[name content] files IH]; intros s;
    [reflexivity|].
  simpl. destruct (parser content) as [v|e]; simpl; [apply IH | reflexivity].
Qed.

Lemma collect_loop_on_disk {V : Type} (pattern : string)
    (parser : string -> result V) (reports_dir : directory) :
  collect_loop pattern (fun f => content <- Disk.read f ;; parser content)
    (on_disk reports_dir)
  = collect_loop pattern parser reports_dir.
Proof.
  unfold collect_loop. rewrite glob_on_disk. apply for_each_on_disk.
Qed.

Lemma for_each_texts {V : Type} (pattern : string)
    (parser : string -> result V) (reports_dir : Disk.directory)
    (s d : dict V) :
  for_each (glob pattern reports_dir)
    (fun f d =>
       v <- (content <- Disk.read (snd f) ;; parser content) ;;
       Ok (dict_set (stem (fst f)) v d)) s = Ok d ->
  for_each (glob pattern (texts reports_dir))
    (fun f d => v <- parser (snd f) ;; Ok (dict_set (stem (fst f)) v d)) s
  = Ok d.
Proof.
  revert s. unfold glob, texts.
  induction reports_dir as [|[name [content|e]] dir IH]; intros s;
    [trivial| |].
  - simpl. destruct (glob_match (glob_of pattern) name); simpl; [|apply IH].
    destruct (parser content) as [v|e]; simpl; [apply IH | trivial].
  - simpl. destruct (glob_match (glob_of pattern) name); simpl;
      [discriminate | apply IH].
Qed.

(** X15.  The collector on disk agrees with the collector on texts: on a
    directory whose entries are all read it gives the same outcome, and
    whenever it returns, its result is that of the collector on the
    texts of the readable entries, the others having matched no
    pattern. *)
Theorem collector_on_disk :
  (forall reports_dir now,
     Disk.analyze_all_reports (on_disk reports_dir) now
     = analyze_all_reports reports_dir now) /\
  (forall reports_dir now results,
     Disk.analyze_all_reports reports_dir now = Ok results ->
     analyze_all_reports (texts reports_dir) now = Ok results /\
     forall name e,
       In (name, Disk.Unreadable e) reports_dir -> is_report name = false).
Proof.
  split.
  - intros reports_dir now.
    rewrite disk_analyze_all_reports_loops, analyze_all_reports_loops.
    unfold Disk.parse_timing_report, Disk.parse_utilization_report,
      Disk.parse_power_report.
    now rewrite !collect_loop_on_disk.
  - intros reports_dir now results H. split.
    + rewrite disk_analyze_all_reports_loops in H.
      rewrite analyze_all_reports_loops.
      destruct (collect_loop "*timing*.rpt" Disk.parse_timing_report
                  reports_dir) as [t|] eqn:Ht; [|discriminate].
      destruct (collect_loop "*utilization*.rpt"
                  Disk.parse_utilization_report reports_dir)
        as [u|] eqn:Hu; [|discriminate].
      destruct (collect_loop "*power*.rpt" Disk.parse_power_report
                  reports_dir) as [p|] eqn:Hp; [|discriminate].
      unfold collect_loop in *.
      apply for_each_texts in Ht. apply for_each_texts in Hu.
      apply for_each_texts in Hp. rewrite Ht, Hu, Hp. exact H.
    + intros name e Hin.
      destruct (is_report name) eqn:Hr; [exfalso | reflexivity].
      assert (Hraise : exists e', Disk.analyze_all_reports reports_dir now
                                  = Raise e').
      { rewrite disk_analyze_all_reports_loops.
        unfold is_report in Hr. apply andb_true_iff in Hr as [Hext Hk].
        destruct (collect_loop "*timing*.rpt" Disk.parse_timing_report
                    reports_dir) as [t|e1] eqn:H1; [|simpl; eauto].
        destruct (collect_loop "*utilization*.rpt"
                    Disk.parse_utilization_report reports_dir)
          as [u|e2] eqn:H2; [|simpl; eauto].
        destruct (collect_loop "*power*.rpt" Disk.parse_power_report
                    reports_dir) as [p|e3] eqn:H3; [|simpl; eauto].
        exfalso.
        apply orb_true_iff in Hk as [Hk | Hk];
          [apply orb_true_iff in Hk as [Hk | Hk]|].
        - destruct (collect_loop_raises "*timing*.rpt"
                      Disk.parse_timing_report reports_dir name
                      (Disk.Unreadable e) e Hin) as [e' He'];
            [|reflexivity | congruence].
          change "*timing*.rpt" with ("*" ++ "timing" ++ "*.rpt").
          rewrite glob_keyword by reflexivity. now rewrite Hk, Hext.
        - destruct (collect_loop_raises "*utilization*.rpt"
                      Disk.parse_utilization_report reports_dir name
                      (Disk.Unreadable e) e Hin) as [e' He'];
            [|reflexivity | congruence].
          change "*utilization*.rpt"
            with ("*" ++ "utilization" ++ "*.rpt").
          rewrite glob_keyword by reflexivity. now rewrite Hk, Hext.
        - destruct (collect_loop_raises "*power*.rpt"
                      Disk.parse_power_report reports_dir name
                      (Disk.Unreadable e) e Hin) as [e' He'];
            [|reflexivity | congruence].
          change "*power*.rpt" with ("*" ++ "power" ++ "*.rpt").
          rewrite glob_keyword by reflexivity. now rewrite Hk, Hext. }
      destruct Hraise as [e' He']. congruence.
Qed.

Lemma collector_on_disk_witness :
  analyze_all_reports
    (texts [("notes.txt", Disk.Unreadable OSError);
            ("a_timing.rpt", Disk.Text "WNS(ns): 1.5")])
    "2024-05-01T12:00:00"
  = Ok {| Results.timestamp := "2024-05-01T12:00:00";
          Results.timing :=
            [("a_timing",
              {| wns := Some (S754_finite false 6755399441055744 (-52));
                 tns := None; whs := None; ths := None;
                 failing_endpoints := 0 |})];
          Results.utilization := []; Results.power := [] |}.
Proof.
  exact (proj1 (proj2 collector_on_disk
                  [("notes.txt", Disk.Unreadable OSError);
                   ("a_timing.rpt", Disk.Text "WNS(ns): 1.5")]
                  "2024-05-01T12:00:00" _ eq_refl)).
Defined.
(** ** Report identifiers *)

Lemma for_each_invariant {A S : Type} (P : S -> Prop) (xs : list A)
    (body : A -> S -> result S) (s s' : S) :
  (forall x a b, In x xs -> P a -> body x a = Ok b -> P b) ->
  P s -> for_each xs body s = Ok s' -> P s'.
Proof.
  revert s; induction xs as [|x xs IH]; intros s Hbody Hs H.
  - simpl in H. now injection H as <-.
  - simpl in H. destruct (body x s) as [s1|e] eqn:Hx; [|discriminate].
    simpl in H. apply (IH s1); trivial.
    + intros y a b Hy. apply Hbody. now right.
    + apply (Hbody x s s1); trivial. now left.
Qed.

Lemma dict_set_key_in {V : Type} (k k' : string) (v : V) (d : dict V) :
  In k' (map fst (dict_set k v d)) -> k' = k \/ In k' (map fst d).
Proof.
  intros H. apply in_map_iff in H as ([k0 v0] & <- & H).
  apply dict_set_in in H as [[-> _] | H]; [now left | right].
  apply in_map_iff. now exists (k0, v0).
Qed.

Lemma dict_set_nodup {V : Type} (k : string) (v : V) (d : dict V) :
  NoDup (map fst d) -> NoDup (map fst (dict_set k v d)).
Proof.
  induction d as [|[k' v'] d IH]; intros H.
  - simpl. constructor; [intros [] | constructor].
  - simpl in H. apply NoDup_cons_iff in H as [Hnotin Hd].
    simpl. destruct (String.eqb k' k) eqn:Hk.
    + simpl. now constructor.
    + simpl. constructor; [|now apply IH].
      intros Hin. apply dict_set_key_in in Hin as [-> | Hin].
      * now rewrite String.eqb_refl in Hk.
      * contradiction.
Qed.

Lemma collect_loop_nodup {V : Type} (pattern : string)
    (parser : string -> result V) (reports_dir : directory) (d : dict V) :
  collect_loop pattern parser reports_dir = Ok d -> NoDup (map fst d).
Proof.
  unfold collect_loop.
  apply (for_each_invariant (fun d => NoDup (map fst d))).
  - intros f a b _ Ha. destruct (parser (snd f)); [|discriminate].
    simpl. intros [= <-]. now apply dict_set_nodup.
  - constructor.
Qed.

Lemma analyze_all_reports_ok (reports_dir : directory) (now : string)
    (results : Results.t) :
  analyze_all_reports reports_dir now = Ok results ->
  Results.timestamp results = now /\
  collect_loop "*timing*.rpt" parse_timing_report reports_dir
  = Ok (Results.timing results) /\
  collect_loop "*utilization*.rpt" parse_utilization_report reports_dir
  = Ok (Results.utilization results) /\
  collect_loop "*power*.rpt" parse_power_report reports_dir
  = Ok (Results.power results).
Proof.
  rewrite analyze_all_reports_loops.
  destruct (collect_loop "*timing*.rpt" _ _); [|discriminate].
  destruct (collect_loop "*utilization*.rpt" _ _); [|discriminate].
  destruct (collect_loop "*power*.rpt" _ _); [|discriminate].
  simpl. intros [= <-]. now repeat split.
Qed.

(** X5.  The report identifiers of each mapping that
    [analyze_all_reports] returns are pairwise distinct, whatever the
    directory holds. *)
Theorem identifiers_are_distinct (reports_dir : directory) (now : string)
    (results : Results.t) :
  analyze_all_reports reports_dir now = Ok results ->
  NoDup (map fst (Results.timing results)) /\
  NoDup (map fst (Results.utilization results)) /\
  NoDup (map fst (Results.power results)).
Proof.
  intros H. apply analyze_all_reports_ok in H as (_ & Ht & Hu & Hp).
  repeat split; eapply collect_loop_nodup; eassumption.
Qed.

Lemma identifiers_are_distinct_witness :
  NoDup ["a_timing"; "b_timing"].
Proof.
  exact (proj1 (identifiers_are_distinct
                  [("a_timing.rpt", "WNS(ns): 1"); ("b_timing.rpt", "");
                   ("a_timing.rpt", "WNS(ns): 2")]
                  "2024-05-01T12:00:00" _ eq_refl)).
Defined.

Lemma collect_loop_identifier {V : Type} (keyword : string)
    (parser : string -> result V) (reports_dir : directory) (d : dict V)
    (k : string) (v : V) :
  keyword <> "" ->
  all_chars not_star keyword = true ->
  all_chars not_dot keyword = true ->
  contains keyword ".rpt" = false ->
  collect_loop ("*" ++ keyword ++ "*.rpt") parser reports_dir = Ok d ->
  In (k, v) d ->
  contains keyword k = true /\
  exists content,
    In (k ++ ".rpt", content) reports_dir /\ parser content = Ok v.
Proof.
  intros Hne Hstar Hdot Hext Hd Hin.
  destruct (collect_loop_values _ _ _ _ _ _ Hd Hin)
    as (name & content & Hdir & Hg & -> & Hp).
  pose proof Hg as Hg'.
  apply (glob_keyword_spec _ _ Hstar) in Hg' as (a & b & ->).
  assert (Hstem : stem (a ++ keyword ++ b ++ ".rpt") = a ++ keyword ++ b).
  { rewrite <- !append_assoc. rewrite stem_extension.
    - now rewrite !append_assoc.
    - destruct a; simpl; [|discriminate].
      destruct keyword; [congruence | discriminate]. }
  rewrite Hstem. split.
  - apply contains_spec. now exists a, b.
  - exists content. split; [|exact Hp].
    now rewrite !append_assoc.
Qed.

(** Each stored record is the parse of the file it is named after. *)
Lemma identifiers_name_their_files_aux (reports_dir : directory)
    (now : string) (results : Results.t) (k : string) :
  analyze_all_reports reports_dir now = Ok results ->
  (forall v, In (k, v) (Results.timing results) ->
     exists content, In (k ++ ".rpt", content) reports_dir /\
                     parse_timing_report content = Ok v) /\
  (forall v, In (k, v) (Results.utilization results) ->
     exists content, In (k ++ ".rpt", content) reports_dir /\
                     parse_utilization_report content = Ok v) /\
  (forall v, In (k, v) (Results.power results) ->
     exists content, In (k ++ ".rpt", content) reports_dir /\
                     parse_power_report content = Ok v).
Proof.
  intros H. apply analyze_all_reports_ok in H as (_ & Ht & Hu & Hp).
  split; [|split]; intros v Hin.
  - eapply proj2, (collect_loop_identifier "timing"); try eassumption;
      (reflexivity || discriminate).
  - eapply proj2, (collect_loop_identifier "utilization");
      try eassumption; (reflexivity || discriminate).
  - eapply proj2, (collect_loop_identifier "power"); try eassumption;
      (reflexivity || discriminate).
Qed.

(** X6.  Each entry of a mapping that [analyze_all_reports] returns is
    stored under the name of a file of the directory without its [.rpt],
    a name that holds the keyword of the category, and holds the record
    that the parser of the category returns for the text of that file. *)
Theorem identifiers_name_their_files (reports_dir : directory)
    (now : string) (results : Results.t) (k : string) :
  analyze_all_reports reports_dir now = Ok results ->
  (forall v, In (k, v) (Results.timing results) ->
     contains "timing" k = true /\
     exists content, In (k ++ ".rpt", content) reports_dir /\
                     parse_timing_report content = Ok v) /\
  (forall v, In (k, v) (Results.utilization results) ->
     contains "utilization" k = true /\
     exists content, In (k ++ ".rpt", content) reports_dir /\
                     parse_utilization_report content = Ok v) /\
  (forall v, In (k, v) (Results.power results) ->
     contains "power" k = true /\
     exists content, In (k ++ ".rpt", content) reports_dir /\
                     parse_power_report content = Ok v).
Proof.
  intros H. apply analyze_all_reports_ok in H as (_ & Ht & Hu & Hp).
  repeat split.
  - eapply (collect_loop_identifier "timing"); try eassumption;
      (reflexivity || discriminate).
  - eapply (collect_loop_identifier "timing"); try eassumption;
      (reflexivity || discriminate).
  - eapply (collect_loop_identifier "utilization"); try eassumption;
      (reflexivity || discriminate).
  - eapply (collect_loop_identifier "utilization"); try eassumption;
      (reflexivity || discriminate).
  - eapply (collect_loop_identifier "power"); try eassumption;
      (reflexivity || discriminate).
  - eapply (collect_loop_identifier "power"); try eassumption;
      (reflexivity || discriminate).
Qed.

Lemma identifiers_name_their_files_witness :
  contains "timing" "post_route_timing" = true.
Proof.
  exact (proj1 (proj1 (identifiers_name_their_files directory_example
                         "2024-05-01T12:00:00" _ "post_route_timing"
                         eq_refl)
                  {| wns := Some (float_of_decimal false 15 1); tns := None;
                     whs := None; ths := None; failing_endpoints := 0 |}
                  (or_introl eq_refl))).
Defined.

(** ** Files that are not reports *)

Lemma filter_filter_implied {A : Type} (g q : A -> bool) (l : list A) :
  (forall x, g x = true -> q x = true) ->
  filter g (filter q l) = filter g l.
Proof.
  intros H. induction l as [|x l IH]; [reflexivity|].
  simpl. destruct (q x) eqn:Hq; simpl.
  - now rewrite IH.
  - destruct (g x) eqn:Hg; [|exact IH].
    rewrite (H x Hg) in Hq. discriminate.
Qed.

Lemma glob_is_report (keyword : string) (reports_dir : directory) :
  In keyword ["timing"; "utilization"; "power"] ->
  glob ("*" ++ keyword ++ "*.rpt")
    (filter (fun f => is_report (fst f)) reports_dir)
  = glob ("*" ++ keyword ++ "*.rpt") reports_dir.
Proof.
  intros Hk. unfold glob. apply filter_filter_implied.
  intros [name content]. cbn [fst]. unfold is_report.
  destruct Hk as [<- | [<- | [<- | []]]];
    rewrite glob_keyword by reflexivity;
    intros H; apply andb_true_iff in H as [-> ->];
    now rewrite ?orb_true_r.
Qed.

(** X7.  Files whose name is not that of a report play no part:
    [analyze_all_reports] gives the same outcome on a directory and on
    the directory without them, so their text is never parsed. *)
Theorem other_files_are_ignored (reports_dir : directory) (now : string) :
  analyze_all_reports (filter (fun f => is_report (fst f)) reports_dir) now
  = analyze_all_reports reports_dir now.
Proof.
  rewrite !analyze_all_reports_loops. unfold collect_loop.
  rewrite (glob_is_report "timing") by (simpl; tauto).
  rewrite (glob_is_report "utilization") by (simpl; tauto).
  rewrite (glob_is_report "power") by (simpl; tauto).
  reflexivity.
Qed.

(** ** The latest report *)

Lemma collect_app {V : Type} (keyword : string)
    (parser : string -> result V) (d1 d2 : directory) :
  collect keyword parser (d1 ++ d2)%list
  = (a <- collect keyword parser d1 ;;
     b <- collect keyword parser d2 ;; Ok (a ++ b)%list).
Proof.
  induction d1 as [|[name content] d1 IH].
  - simpl. now destruct (collect keyword parser d2).
  - cbn [app collect]. rewrite IH.
    destruct (contains keyword name && ends_with ".rpt" name);
      [|reflexivity].
    destruct (parser content); [|reflexivity]. simpl.
    destruct (collect keyword parser d1); [|reflexivity]. simpl.
    now destruct (collect keyword parser d2).
Qed.

Lemma collect_none {V : Type} (keyword : string)
    (parser : string -> result V) (d : directory) :
  (forall f, In f d -> in_category keyword (fst f) = false) ->
  collect keyword parser d = Ok [].
Proof.
  induction d as [|[name content] d IH]; intros H; [reflexivity|].
  cbn [collect]. pose proof (H (name, content) (or_introl eq_refl)) as Hn.
  unfold in_category in Hn. cbn [fst] in Hn. rewrite Hn.
  apply IH. intros f Hf. apply H. now right.
Qed.

Lemma latest_last {V : Type} (d : dict V) (k : string) (v : V) :
  latest (d ++ [(k, v)])%list = Some v.
Proof.
  induction d as [|[k' v'] d IH]; [reflexivity|].
  cbn [app latest]. destruct (d ++ [(k, v)])%list eqn:Hd.
  - now destruct d.
  - exact IH.
Qed.

Lemma collect_loop_latest {V : Type} (keyword : string)
    (parser : string -> result V) (before after : directory)
    (name content : string) (d : dict V) :
  keyword <> "" ->
  all_chars not_star keyword = true ->
  all_chars not_dot keyword = true ->
  contains keyword ".rpt" = false ->
  NoDup (map fst (before ++ (name, content) :: after)%list) ->
  in_category keyword name = true ->
  (forall f, In f after -> in_category keyword (fst f) = false) ->
  collect_loop ("*" ++ keyword ++ "*.rpt") parser
    (before ++ (name, content) :: after)%list = Ok d ->
  exists v, parser content = Ok v /\ latest d = Some v.
Proof.
  intros Hne Hstar Hdot Hext Hnodup Hin Hafter.
  rewrite collect_loop_refines by assumption.
  rewrite collect_app. cbn [collect]. unfold in_category in Hin.
  rewrite Hin, (collect_none _ _ _ Hafter).
  destruct (collect keyword parser before) as [a|]; [|discriminate].
  simpl. destruct (parser content) as [v|]; [|discriminate].
  simpl. intros [= <-]. exists v. split; [reflexivity|].
  apply latest_last.
Qed.

(** X8.  The record the dashboard takes as the latest of a category is
    the one of the report file of that category that the directory
    enumerates last, whatever the dates of the files: with
    [analyze_all_reports] on a directory of distinct names, [latest] of a
    mapping is the parse of the last file whose name is in the
    category. *)
Theorem latest_is_last_enumerated
    (before after : directory) (name content now : string)
    (results : Results.t) :
  NoDup (map fst (before ++ (name, content) :: after)%list) ->
  analyze_all_reports (before ++ (name, content) :: after)%list now
  = Ok results ->
  (in_category "timing" name = true ->
   (forall f, In f after -> in_category "timing" (fst f) = false) ->
   exists v, parse_timing_report content = Ok v /\
             latest (Results.timing results) = Some v) /\
  (in_category "utilization" name = true ->
   (forall f, In f after -> in_category "utilization" (fst f) = false) ->
   exists v, parse_utilization_report content = Ok v /\
             latest (Results.utilization results) = Some v) /\
  (in_category "power" name = true ->
   (forall f, In f after -> in_category "power" (fst f) = false) ->
   exists v, parse_power_report content = Ok v /\
             latest (Results.power results) = Some v).
Proof.
  intros Hnodup H. apply analyze_all_reports_ok in H as (_ & Ht & Hu & Hp).
  split; [|split]; intros Hin Hafter.
  - eapply (collect_loop_latest "timing"); try eassumption;
      (reflexivity || discriminate).
  - eapply (collect_loop_latest "utilization"); try eassumption;
      (reflexivity || discriminate).
  - eapply (collect_loop_latest "power"); try eassumption;
      (reflexivity || discriminate).
Qed.

Lemma latest_is_last_enumerated_witness :
  exists v,
    parse_timing_report "WNS(ns): -2" = Ok v /\
    latest
      [("z_timing", {| wns := Some (float_of_decimal false 15 1);
                       tns := None; whs := None; ths := None;
                       failing_endpoints := 0 |});
       ("a_timing", {| wns := Some (float_of_decimal true 2 0);
                       tns := None; whs := None; ths := None;
                       failing_endpoints := 0 |})] = Some v.
Proof.
  refine (proj1 (latest_is_last_enumerated
                   [("z_timing.rpt", "WNS(ns): 1.5")]
                   [("power.rpt", "Dynamic (W) | 0.5")]
                   "a_timing.rpt" "WNS(ns): -2" "2024-05-01T12:00:00"
                   _ _ eq_refl) eq_refl _).
  - repeat constructor; simpl; intuition discriminate.
  - intros f [<- | []]. reflexivity.
Defined.

(** ** The page of collected results *)

Lemma latest_in {V : Type} (d : dict V) (v : V) :
  latest d = Some v -> exists k, In (k, v) d.
Proof.
  induction d as [|[k' v'] d IH]; [discriminate|].
  cbn [latest]. destruct d as [|kv d].
  - intros [= <-]. exists k'. now left.
  - intros H. destruct (IH H) as [k Hk]. exists k. now right.
Qed.

Lemma parsed_utilization_formats (content : string) (r : util_data)
    (k : resource_kind) (d : nat) :
  parse_utilization_report content = Ok r ->
  exists s, format_fixed d (utilization (resource_field k r)) = Ok s.
Proof.
  intros H. pose proof (utilization_report_outcome content) as Ho.
  rewrite H in Ho. simpl in Ho. destruct (Ho k) as (o & He & ->).
  destruct o as [res|].
  - unfold extract in He.
    destruct (re_search (row_re (row_label k)) content) as [m|];
      [|discriminate].
    unfold resource_of_match in He.
    destruct (py_int (group 1 m)); [|discriminate].
    destruct (py_int (group 2 m)); [|discriminate].
    destruct (py_float (group 3 m)) as [p|]; [|discriminate].
    simpl in He. injection He as <-. simpl. eauto.
  - simpl. unfold format_fixed, float_of_int. simpl. eauto.
Qed.

Lemma parsed_power_formats (content : string) (r : power_data)
    (k : power_kind) (d : nat) :
  parse_power_report content = Ok r ->
  exists s, format_fixed d (power_field k r) = Ok s.
Proof.
  intros H. pose proof (power_report_outcome content) as Ho.
  rewrite H in Ho. simpl in Ho. destruct Ho as (_ & Hk).
  destruct (Hk k) as (o & _ & ->).
  destruct o as [p|]; simpl; [eauto|].
  unfold format_fixed, float_of_int. simpl. eauto.
Qed.

(** X9.  On the results of [analyze_all_reports], the generation of the
    HTML dashboard writes exactly the page [dashboard.html] when the
    timing mapping is empty or both the [wns] and the [tns] of its last
    record are known, and otherwise raises [TypeError] and writes
    nothing: the utilization and power tiles never make it fail. *)
Theorem html_dashboard_outcome (reports_dir : directory) (now : string)
    (results : Results.t) (fs : list file) :
  analyze_all_reports reports_dir now = Ok results ->
  if match latest (Results.timing results) with
     | Some t => slacks_known t
     | None => true
     end
  then exists page,
         _generate_html_dashboard results fs
         = ((fs ++ [("dashboard.html", Html page)])%list, None)
  else _generate_html_dashboard results fs = (fs, Some TypeError).
Proof.
  intros H.
  assert (Hu : forall u, latest (Results.utilization results) = Some u ->
                 forall k, exists s,
                   format_fixed 1 (utilization (resource_field k u)) = Ok s).
  { intros u Hl k. apply latest_in in Hl as [key Hin].
    destruct (proj1 (proj2 (identifiers_name_their_files_aux
                              reports_dir now results key H)) u Hin)
      as (content & _ & Hp).
    now apply (parsed_utilization_formats content). }
  assert (Hp : forall p, latest (Results.power results) = Some p ->
                 forall k, exists s, format_fixed 2 (power_field k p) = Ok s).
  { intros p Hl k. apply latest_in in Hl as [key Hin].
    destruct (proj2 (proj2 (identifiers_name_their_files_aux
                              reports_dir now results key H)) p Hin)
      as (content & _ & Hq).
    now apply (parsed_power_formats content). }
  unfold _generate_html_dashboard.
  destruct (latest (Results.timing results)) as [t|].
  - unfold slacks_known, slack_class, slack_ge, format_slack.
    destruct (wns t) as [w|]; [|reflexivity].
    destruct (tns t) as [n|]; [|reflexivity].
    cbn [bind].
    destruct (latest (Results.utilization results)) as [u|].
    + destruct (Hu u eq_refl LUT) as [s1 E1].
      destruct (Hu u eq_refl FF) as [s2 E2].
      destruct (Hu u eq_refl BRAM) as [s3 E3].
      destruct (Hu u eq_refl DSP) as [s4 E4].
      cbn [resource_field] in E1, E2, E3, E4.
      cbn [for_each resources fst snd bind].
      rewrite E1. cbn [bind]. rewrite E2. cbn [bind].
      rewrite E3. cbn [bind]. rewrite E4. cbn [bind].
      destruct (latest (Results.power results)) as [p|].
      * destruct (Hp p eq_refl Total) as [t1 F1].
        destruct (Hp p eq_refl Dynamic) as [t2 F2].
        destruct (Hp p eq_refl Static) as [t3 F3].
        cbn [power_field] in F1, F2, F3.
        rewrite F1. cbn [bind]. rewrite F2. cbn [bind]. rewrite F3.
        cbn [bind]. eexists. reflexivity.
      * cbn [bind]. eexists. reflexivity.
    + cbn [bind].
      destruct (latest (Results.power results)) as [p|].
      * destruct (Hp p eq_refl Total) as [t1 F1].
        destruct (Hp p eq_refl Dynamic) as [t2 F2].
        destruct (Hp p eq_refl Static) as [t3 F3].
        cbn [power_field] in F1, F2, F3.
        rewrite F1. cbn [bind]. rewrite F2. cbn [bind]. rewrite F3.
        cbn [bind]. eexists. reflexivity.
      * cbn [bind]. eexists. reflexivity.
  - cbn [bind].
    destruct (latest (Results.utilization results)) as [u|].
    + destruct (Hu u eq_refl LUT) as [s1 E1].
      destruct (Hu u eq_refl FF) as [s2 E2].
      destruct (Hu u eq_refl BRAM) as [s3 E3].
      destruct (Hu u eq_refl DSP) as [s4 E4].
      cbn [resource_field] in E1, E2, E3, E4.
      cbn [for_each resources fst snd bind].
      rewrite E1. cbn [bind]. rewrite E2. cbn [bind].
      rewrite E3. cbn [bind]. rewrite E4. cbn [bind].
      destruct (latest (Results.power results)) as [p|].
      * destruct (Hp p eq_refl Total) as [t1 F1].
        destruct (Hp p eq_refl Dynamic) as [t2 F2].
        destruct (Hp p eq_refl Static) as [t3 F3].
        cbn [power_field] in F1, F2, F3.
        rewrite F1. cbn [bind]. rewrite F2. cbn [bind]. rewrite F3.
        cbn [bind]. eexists. reflexivity.
      * cbn [bind]. eexists. reflexivity.
    + cbn [bind].
      destruct (latest (Results.power results)) as [p|].
      * destruct (Hp p eq_refl Total) as [t1 F1].
        destruct (Hp p eq_refl Dynamic) as [t2 F2].
        destruct (Hp p eq_refl Static) as [t3 F3].
        cbn [power_field] in F1, F2, F3.
        rewrite F1. cbn [bind]. rewrite F2. cbn [bind]. rewrite F3.
        cbn [bind]. eexists. reflexivity.
      * cbn [bind]. eexists. reflexivity.
Qed.

Lemma html_dashboard_outcome_witness :
  _generate_html_dashboard
    {| Results.timestamp := "2024-05-01T12:00:00";
       Results.timing :=
         [("a_timing",
           {| wns := Some (float_of_decimal false 1 0); tns := None;
              whs := None; ths := None; failing_endpoints := 0 |})];
       Results.utilization := []; Results.power := [] |} []
  = ([], Some TypeError) /\
  exists page,
    _generate_html_dashboard
      {| Results.timestamp := "2024-05-01T12:00:00";
         Results.timing := [];
         Results.utilization :=
           [("a_utilization",
             {| lut := {| used := 10; available := 100;
                          utilization :=
                            PyFloat (float_of_decimal false 100 1) |};
                ff := default_resource; bram := default_resource;
                dsp := default_resource |})];
         Results.power := [] |} []
    = ([("dashboard.html", Html page)], None).
Proof.
  split.
  - exact (html_dashboard_outcome [("a_timing.rpt", "WNS(ns): 1")]
             "2024-05-01T12:00:00" _ [] eq_refl).
  - exact (html_dashboard_outcome
             [("a_utilization.rpt", "CLB LUTs | 10 | 0 | 100 | 10.0")]
             "2024-05-01T12:00:00" _ [] eq_refl).
Defined.

(** X10.  When the timing report that a directory of distinct names
    enumerates last does not hold the label [WNS(ns):], or does not hold
    the label [TNS(ns):], the HTML dashboard of the collected results
    raises [TypeError] and writes no page, whatever the other reports
    hold. *)
Theorem last_timing_report_without_slack
    (before after : directory) (name content now : string)
    (results : Results.t) (fs : list file) :
  NoDup (map fst (before ++ (name, content) :: after)%list) ->
  analyze_all_reports (before ++ (name, content) :: after)%list now
  = Ok results ->
  in_category "timing" name = true ->
  (forall f, In f after -> in_category "timing" (fst f) = false) ->
  (forall pre post, content <> pre ++ "WNS(ns):" ++ post) \/
  (forall pre post, content <> pre ++ "TNS(ns):" ++ post) ->
  _generate_html_dashboard results fs = (fs, Some TypeError).
Proof.
  intros Hnodup H Hin Hafter Habsent.
  apply analyze_all_reports_ok in H as (_ & Ht & _ & _).
  destruct (collect_loop_latest "timing" parse_timing_report before after
              name content _ ltac:(discriminate) eq_refl eq_refl eq_refl
              Hnodup Hin Hafter Ht) as (v & Hv & Hlatest).
  pose proof (timing_report_outcome content) as Ho.
  rewrite Hv in Ho. simpl in Ho. destruct Ho as (Hf & _).
  assert (Hnull : wns v = None \/ tns v = None).
  { destruct Habsent as [Ha | Ha]; [left | right].
    - specialize (Hf WNS).
      rewrite extract_none in Hf
        by (apply label_absent_no_match, Ha).
      now injection Hf as <-.
    - specialize (Hf TNS).
      rewrite extract_none in Hf
        by (apply label_absent_no_match, Ha).
      now injection Hf as <-. }
  unfold _generate_html_dashboard. rewrite Hlatest.
  unfold slack_class, slack_ge.
  destruct (wns v) as [w|]; [|reflexivity].
  destruct Hnull as [Hw | Hn]; [discriminate|].
  rewrite Hn. reflexivity.
Qed.

Lemma last_timing_report_without_slack_witness :
  _generate_html_dashboard
    {| Results.timestamp := "2024-05-01T12:00:00";
       Results.timing :=
         [("a_timing",
           {| wns := Some (float_of_decimal false 1 0);
              tns := Some (float_of_decimal false 0 0);
              whs := None; ths := None; failing_endpoints := 0 |});
          ("b_timing",
           {| wns := None; tns := Some (float_of_decimal false 1 1);
              whs := None; ths := None; failing_endpoints := 0 |})];
       Results.utilization := []; Results.power := [] |} []
  = ([], Some TypeError).
Proof.
  refine (last_timing_report_without_slack
            [("a_timing.rpt", "WNS(ns): 1 TNS(ns): 0")]
            [("notes.txt", "")] "b_timing.rpt" "TNS(ns): 0.1"
            "2024-05-01T12:00:00" _ [] _ eq_refl eq_refl _ _).
  - repeat constructor; simpl; intuition discriminate.
  - intros f [<- | []]. reflexivity.
  - left. intros pre post Heq.
    assert (H : contains "WNS(ns):" "TNS(ns): 0.1" = true)
      by (apply contains_spec; now exists pre, post).
    discriminate H.
Defined.

(** ** The files of the dashboard *)

Lemma adds_charts_skip : adds_charts skip.
Proof. intros fs. exists []. split; [constructor | now rewrite app_nil_r]. Qed.

Lemma adds_charts_raising (e : exn) : adds_charts (raising e).
Proof. intros fs. exists []. split; [constructor | now rewrite app_nil_r]. Qed.

Lemma adds_charts_call (r : option exn) : adds_charts (call r).
Proof.
  destruct r; [apply adds_charts_raising | apply adds_charts_skip].
Qed.

Lemma adds_charts_write (name : string) :
  In name chart_names -> adds_charts (write name Png).
Proof.
  intros H fs. exists [(name, Png)]. split; [|reflexivity].
  constructor; [now split | constructor].
Qed.

Lemma adds_charts_seq (a b : action) :
  adds_charts a -> adds_charts b -> adds_charts (a ;;; b).
Proof.
  intros Ha Hb fs. unfold seq.
  destruct (Ha fs) as (c1 & Hc1 & E1).
  destruct (a fs) as [fs1 [e|]]; simpl in E1; subst fs1.
  - now exists c1.
  - destruct (Hb (fs ++ c1)%list) as (c2 & Hc2 & E2).
    exists (c1 ++ c2)%list. split.
    + now apply Forall_app.
    + now rewrite E2, app_assoc.
Qed.

Lemma adds_charts_bar_chart
    (plt_timing : string -> dict timing_data -> list string -> option exn)
    (title : string) (timing_data : dict timing_data)
    (colors : result (list string)) :
  adds_charts (bar_chart plt_timing title timing_data colors).
Proof.
  destruct colors; [apply adds_charts_call | apply adds_charts_raising].
Qed.

Lemma plot_timing_adds_charts
    (plt_subplots : string -> option exn)
    (plt_timing : string -> dict timing_data -> list string -> option exn)
    (timing_data : dict timing_data) :
  adds_charts (_plot_timing_analysis plt_subplots plt_timing timing_data).
Proof.
  unfold _plot_timing_analysis.
  destruct (is_nil timing_data); [apply adds_charts_skip|].
  repeat apply adds_charts_seq;
    try apply adds_charts_call; try apply adds_charts_bar_chart.
  apply adds_charts_write. simpl. tauto.
Qed.

Lemma plot_utilization_adds_charts
    (plt_subplots : string -> option exn)
    (plt_utilization : util_data -> option exn)
    (util_data : dict util_data) :
  adds_charts (_plot_utilization plt_subplots plt_utilization util_data).
Proof.
  unfold _plot_utilization.
  destruct (is_nil util_data); [apply adds_charts_skip|].
  apply adds_charts_seq; [apply adds_charts_call|].
  destruct (is_empty (latest_key util_data)); [apply adds_charts_skip|].
  destruct (dict_get (latest_key util_data) util_data);
    [|apply adds_charts_raising].
  apply adds_charts_seq; [apply adds_charts_call|].
  apply adds_charts_write. simpl. tauto.
Qed.

Lemma plot_power_adds_charts
    (plt_subplots : string -> option exn)
    (plt_power : dict power_data -> option exn)
    (power_data : dict power_data) :
  adds_charts (_plot_power_analysis plt_subplots plt_power power_data).
Proof.
  unfold _plot_power_analysis.
  destruct (is_nil power_data); [apply adds_charts_skip|].
  apply adds_charts_seq; [apply adds_charts_call|].
  destruct (is_empty (latest_key power_data)); [apply adds_charts_skip|].
  apply adds_charts_seq; [apply adds_charts_call|].
  apply adds_charts_write. simpl. tauto.
Qed.

(** The page is the one file the HTML step writes, and it writes it only
    when it does not raise. *)
Lemma html_step_outcome (results : Results.t) (fs : list file) :
  (exists page,
     _generate_html_dashboard results fs
     = ((fs ++ [("dashboard.html", Html page)])%list, None)) \/
  (exists e, _generate_html_dashboard results fs = (fs, Some e)).
Proof.
  unfold _generate_html_dashboard.
  match goal with
  | |- context [match ?h with Ok _ => _ | Raise _ => _ end] =>
      destruct h as [page|e]
  end.
  - left. now exists page.
  - right. now exists e.
Qed.

(** X11.  Whatever the plotting calls do, [generate_performance_dashboard]
    keeps the files written before it, adds files that are each one of
    the three charts and then, only when nothing raised, the page
    [dashboard.html]: a run that raises leaves the charts written so far
    and no page, and no other file is ever written. *)
Theorem dashboard_files
    (plt_subplots : string -> option exn)
    (plt_timing : string -> dict timing_data -> list string -> option exn)
    (plt_utilization : util_data -> option exn)
    (plt_power : dict power_data -> option exn)
    (results : Results.t) (fs : list file) :
  exists charts,
    charts_only charts /\
    match generate_performance_dashboard plt_subplots plt_timing
            plt_utilization plt_power results fs with
    | (written, None) =>
        exists page,
          written = (fs ++ charts ++ [("dashboard.html", Html page)])%list
    | (written, Some _) => written = (fs ++ charts)%list
    end.
Proof.
  unfold generate_performance_dashboard.
  set (plots :=
         _plot_timing_analysis plt_subplots plt_timing
           (Results.timing results) ;;;
         _plot_utilization plt_subplots plt_utilization
           (Results.utilization results) ;;;
         _plot_power_analysis plt_subplots plt_power
           (Results.power results)).
  assert (Hplots : adds_charts plots).
  { repeat apply adds_charts_seq.
    - apply plot_timing_adds_charts.
    - apply plot_utilization_adds_charts.
    - apply plot_power_adds_charts. }
  assert (Hseq : forall a b c d : action,
            (a ;;; b ;;; c ;;; d) fs = ((a ;;; b ;;; c) ;;; d) fs).
  { intros a b c d. unfold seq.
    destruct (a fs) as [f1 [e1|]]; [reflexivity|].
    destruct (b f1) as [f2 [e2|]]; [reflexivity|].
    now destruct (c f2) as [f3 [e3|]]. }
  rewrite Hseq. fold plots. unfold seq at 1.
  destruct (Hplots fs) as (charts & Hcharts & E).
  destruct (plots fs) as [fs1 [e|]]; simpl in E; subst fs1.
  - now exists charts.
  - destruct (html_step_outcome results (fs ++ charts)%list)
      as [(page & ->) | (e & ->)].
    + exists charts. split; [exact Hcharts|].
      exists page. now rewrite <- app_assoc.
    + now exists charts.
Qed.

(** ** The exported document *)










(** ** A run of the command *)

Lemma charts_then_page (plots : action) (results : Results.t)
    (fs : list file) :
  adds_charts plots ->
  exists charts,
    charts_only charts /\
    match (plots ;;; _generate_html_dashboard results) fs with
    | (written, None) =>
        exists page,
          written = (fs ++ charts ++ [("dashboard.html", Html page)])%list
    | (written, Some _) => written = (fs ++ charts)%list
    end.
Proof.
  intros Hplots. unfold seq.
  destruct (Hplots fs) as (charts & Hcharts & E).
  destruct (plots fs) as [fs1 [e|]]; simpl in E; subst fs1.
  - now exists charts.
  - destruct (html_step_outcome results (fs ++ charts)%list)
      as [(page & ->) | (e & ->)].
    + exists charts. split; [exact Hcharts|].
      exists page. now rewrite <- app_assoc.
    + now exists charts.
Qed.

Lemma call_then (r : option exn) (a : action) (fs : list file) :
  (call r ;;; a) fs
  = match r with
    | Some e => (fs, Some e)
    | None => a fs
    end.
Proof. now destruct r. Qed.

Lemma seq_assoc (a b c : action) (fs : list file) :
  (a ;;; b ;;; c) fs = ((a ;;; b) ;;; c) fs.
Proof.
  unfold seq. destruct (a fs) as [f1 [e1|]]; [reflexivity|].
  now destruct (b f1) as [f2 [e2|]].
Qed.

Lemma charts_hold_no_page (charts : list file) :
  charts_only charts -> ~ In "dashboard.html" (map fst charts).
Proof.
  intros H Hin. apply in_map_iff in Hin as (f & Hf & Hin).
  unfold charts_only in H. rewrite Forall_forall in H.
  destruct (H f Hin) as [Hname _]. rewrite Hf in Hname.
  simpl in Hname. intuition discriminate.
Qed.

(** X12.  A run of [main] that raises prints nothing and exports no JSON
    document, and it leaves a page [dashboard.html] only when the
    exception comes from the opening of the export file; a run that does
    not raise has written charts and then the page, has printed its two
    lines, and has exported the document of the collected results
    exactly when [--json-output] was given a path that is not empty. *)
Theorem main_outcome
    (plt_subplots : string -> option exn)
    (plt_timing : string -> dict timing_data -> list string -> option exn)
    (plt_utilization : util_data -> option exn)
    (plt_power : dict power_data -> option exn)
    (mkdir open_w : string -> option exn)
    (reports_dir : Disk.directory) (output_dir : string)
    (json_output : option string) (now : string) :
  let r := main plt_subplots plt_timing plt_utilization plt_power
             mkdir open_w reports_dir output_dir json_output now in
  match raised r with
  | Some e =>
      printed r = [] /\ exported r = [] /\
      (In "dashboard.html" (map fst (under_output_dir r)) ->
       exists path,
         json_output = Some path /\ is_empty path = false /\
         open_w path = Some e)
  | None =>
      exists results charts page,
        Disk.analyze_all_reports reports_dir now = Ok results /\
        mkdir output_dir = None /\
        charts_only charts /\
        under_output_dir r
        = (charts ++ [("dashboard.html", Html page)])%list /\
        exported r
        = match json_output with
          | Some path =>
              if is_empty path then []
              else [(path, Json (json_results results))]
          | None => []
          end /\
        printed r
        = ["Dashboard generated in: " ++ output_dir;
           "Open " ++ output_dir ++ "/dashboard.html in your browser"]
  end.
Proof.
  unfold main.
  destruct (Disk.analyze_all_reports reports_dir now) as [results|e];
    [|simpl; repeat split; intros []].
  assert (Hrun :
    exists charts,
      charts_only charts /\
      match generate_performance_dashboard plt_subplots plt_timing
              plt_utilization plt_power results [] with
      | (written, None) =>
          exists page,
            written = (charts ++ [("dashboard.html", Html page)])%list
      | (written, Some _) => written = charts
      end).
  { unfold generate_performance_dashboard.
    rewrite seq_assoc.
    rewrite (seq_assoc
               (_plot_timing_analysis plt_subplots plt_timing
                  (Results.timing results) ;;;
                _plot_utilization plt_subplots plt_utilization
                  (Results.utilization results))).
    apply (charts_then_page _ results []).
    repeat apply adds_charts_seq.
    - apply plot_timing_adds_charts.
    - apply plot_utilization_adds_charts.
    - apply plot_power_adds_charts. }
  destruct Hrun as (charts & Hc & Hrun).
  rewrite call_then. destruct (mkdir output_dir) as [e|] eqn:Hmk.
  { simpl. repeat split. intros []. }
  destruct (generate_performance_dashboard plt_subplots plt_timing
              plt_utilization plt_power results []) as [written [e|]].
  - subst written. simpl. repeat split.
    intros H. now apply charts_hold_no_page in H.
  - destruct Hrun as (page & ->).
    destruct json_output as [path|].
    + destruct (is_empty path) eqn:He.
      * simpl. exists results, charts, page. repeat split; trivial.
      * rewrite call_then. destruct (open_w path) as [e|] eqn:Ho.
        -- simpl. repeat split. intros _. now exists path.
        -- simpl. exists results, charts, page. repeat split; trivial.
    + simpl. exists results, charts, page. repeat split; trivial.
Qed.
(** ** The charts of collected results *)


Lemma dict_get_member {V : Type} (k : string) (v : V) (d : dict V) :
  In (k, v) d -> exists v', dict_get k d = Some v'.
Proof.
  induction d as [|[k' v'] d IH]; simpl; [tauto|].
  intros [[= -> ->]|H].
  - rewrite String.eqb_refl. eauto.
  - destruct (String.eqb k' k); eauto.
Qed.














(** ** The captures that [float] rejects *)

Lemma signed_char_cases (c : ascii) :
  is_signed_char c = true ->
  c = "-"%char \/ c = "."%char \/ is_digit c = true.
Proof.
  unfold is_signed_char. intros H.
  apply orb_true_iff in H as [H|H]; [apply orb_true_iff in H as [H|H]|].
  - left. now apply Ascii.eqb_eq.
  - right; right. exact H.
  - right; left. now apply Ascii.eqb_eq.
Qed.

Lemma span_parts (p : ascii -> bool) (s a b : string) :
  span p s = (a, b) ->
  s = a ++ b /\ all_chars p a = true /\ stops p b = true.
Proof.
  revert a b; induction s as [|c s IH]; intros a b; simpl.
  - now intros [= <- <-].
  - destruct (p c) eqn:Hc.
    + destruct (span p s) as [a' b']. intros [= <- <-].
      destruct (IH a' b' eq_refl) as (-> & Ha & Hb).
      simpl. now rewrite Hc, Ha.
    + intros [= <- <-]. simpl. now rewrite Hc.
Qed.

Lemma count_char_append (c : ascii) (a b : string) :
  count_char c (a ++ b) = (count_char c a + count_char c b)%nat.
Proof.
  induction a as [|x a IH]; simpl; [reflexivity|].
  rewrite IH. apply Nat.add_assoc.
Qed.

Lemma has_digit_append (a b : string) :
  has_digit (a ++ b) = has_digit a || has_digit b.
Proof.
  induction a as [|x a IH]; simpl; [reflexivity|].
  now rewrite IH, orb_assoc.
Qed.

Lemma count_char_digits (c : ascii) (s : string) :
  is_digit c = false -> all_chars is_digit s = true -> count_char c s = O.
Proof.
  intros Hc. induction s as [|x s IH]; simpl; [reflexivity|].
  intros H. apply andb_true_iff in H as [Hx Hs].
  rewrite (IH Hs). destruct (Ascii.eqb c x) eqn:E; [|reflexivity].
  apply Ascii.eqb_eq in E as ->. congruence.
Qed.

Lemma has_digit_digits (s : string) :
  all_chars is_digit s = true -> has_digit s = negb (is_empty s).
Proof.
  destruct s as [|c s]; [reflexivity|]. simpl.
  intros H. apply andb_true_iff in H as [-> _]. reflexivity.
Qed.

(** Among digits, points and minus signs, what is not all digits holds a
    minus sign or a point. *)
Lemma not_digits_has_mark (s : string) :
  all_chars is_signed_char s = true ->
  all_chars is_digit s = false ->
  (0 <? count_char "-" s)%nat || (0 <? count_char "." s)%nat = true.
Proof.
  induction s as [|c s IH]; simpl; [discriminate|].
  intros H Hd. apply andb_true_iff in H as [Hc Hs].
  destruct (signed_char_cases c Hc) as [->|[->|Hdc]].
  - reflexivity.
  - simpl. apply orb_true_r.
  - rewrite Hdc in Hd. simpl in Hd.
    specialize (IH Hs Hd). apply orb_true_iff in IH as [H|H].
    + apply Nat.ltb_lt in H. apply orb_true_iff. left.
      apply Nat.ltb_lt. lia.
    + apply Nat.ltb_lt in H. apply orb_true_iff. right.
      apply Nat.ltb_lt. lia.
Qed.

(** The conversion of the text that follows the sign. *)
Lemma float_body_raises (neg : bool) (body : string) :
  all_chars is_signed_char body = true ->
  (let (ip, rest) := span is_digit body in
   match rest with
   | EmptyString =>
       if is_empty ip then Raise ValueError
       else Ok (float_of_decimal neg (digits_value 0 ip) 0)
   | String "." fp =>
       if all_chars is_digit fp && negb (is_empty ip && is_empty fp)
       then Ok (float_of_decimal neg (digits_value 0 (ip ++ fp))
                  (String.length fp))
       else Raise ValueError
   | String _ _ => Raise ValueError
   end) = Raise ValueError <->
  unsigned_malformed body = true.
Proof.
  intros Hb. destruct (span is_digit body) as [ip rest] eqn:E.
  apply span_parts in E as (-> & Hip & Hstop).
  rewrite all_chars_append in Hb. apply andb_true_iff in Hb as [_ Hrest].
  unfold unsigned_malformed.
  rewrite !count_char_append, has_digit_append.
  rewrite !(count_char_digits _ ip) by (reflexivity || assumption).
  rewrite (has_digit_digits ip Hip). cbn [Nat.add].
  destruct rest as [|c fp].
  - simpl. destruct (is_empty ip); simpl; split; congruence.
  - cbn [all_chars] in Hrest. apply andb_true_iff in Hrest as [Hc Hfp].
    cbn [stops] in Hstop. apply negb_true_iff in Hstop.
    destruct (signed_char_cases c Hc) as [->|[->|Hd]]; [| |congruence].
    + simpl. split; reflexivity.
    + cbn [count_char has_digit]. simpl (Ascii.eqb _ _). simpl (is_digit _).
      cbn [Nat.add orb].
      destruct (all_chars is_digit fp) eqn:Hall.
      * rewrite !(count_char_digits _ fp) by (reflexivity || assumption).
        rewrite (has_digit_digits fp Hall).
        destruct (is_empty ip), (is_empty fp); simpl; split; congruence.
      * pose proof (not_digits_has_mark fp Hfp Hall) as Hm.
        cbn [andb]. split; [intros _|reflexivity].
        apply orb_true_iff in Hm as [Hm|Hm].
        -- rewrite Hm. reflexivity.
        -- change (1 <? S (count_char "." fp))%nat
             with (0 <? count_char "." fp)%nat.
           rewrite Hm. now rewrite orb_true_r.
Qed.

Lemma strip_sign_other (c : ascii) (t : string) :
  c <> "-"%char -> c <> "+"%char ->
  strip_sign (String c t) = (false, String c t).
Proof.
  intros Hm Hp. unfold strip_sign.
  destruct c as [[] [] [] [] [] [] [] []]; try reflexivity; congruence.
Qed.

(** [float] rejects a text of digits, points and minus signs exactly when
    it is malformed. *)
Lemma float_rejects_malformed (s : string) :
  all_chars is_signed_char s = true ->
  py_float s = Raise ValueError <-> malformed s = true.
Proof.
  intros Hs. destruct s as [|c t]; [split; reflexivity|].
  pose proof Hs as Hall.
  cbn [all_chars] in Hs. apply andb_true_iff in Hs as [Hc Ht].
  unfold malformed. cbn [after_first].
  destruct (signed_char_cases c Hc) as [->|[->|Hd]].
  - unfold py_float. cbn [strip_sign].
    rewrite (float_body_raises true t Ht). reflexivity.
  - unfold py_float. cbn [strip_sign].
    rewrite (float_body_raises false _ Hall). reflexivity.
  - destruct (digit_no_sign c Hd) as (Hm & Hp & _).
    unfold py_float. rewrite (strip_sign_other c t Hm Hp).
    rewrite (float_body_raises false _ Hall).
    unfold unsigned_malformed. cbn [count_char].
    apply not_eq_sym, Ascii.eqb_neq in Hm. rewrite Hm. reflexivity.
Qed.

Lemma capture_rejected_iff (re : regex) (i : nat) (content : string) :
  (forall m, re_search re content = Some m ->
             all_chars is_signed_char (group i m) = true) ->
  rejects re (float_group i) content <->
  exists m, re_search re content = Some m /\ malformed (group i m) = true.
Proof.
  intros Hclass. unfold rejects, float_group. split.
  - intros (m & e & Hm & He). exists m. split; [exact Hm|].
    pose proof (py_float_raise _ _ He) as ->.
    now apply float_rejects_malformed; [apply Hclass|].
  - intros (m & Hm & Hbad). exists m, ValueError. split; [exact Hm|].
    now apply float_rejects_malformed; [apply Hclass|].
Qed.

Lemma slack_rejected_iff (f : slack) (content : string) :
  rejects (slack_re (slack_label f)) (float_group 1) content <->
  exists m, re_search (slack_re (slack_label f)) content = Some m /\
            malformed (group 1 m) = true.
Proof.
  apply capture_rejected_iff. intros m Hm.
  now destruct (slack_capture _ _ _ Hm) as (p & -> & Hp & _).
Qed.

Lemma endpoints_rejected_iff (content : string) :
  rejects endpoints_re (int_group 1) content <->
  exists m, re_search endpoints_re content = Some m /\
            too_long (group 1 m) = true.
Proof.
  unfold rejects, int_group. split.
  - intros (m & e & Hm & He). exists m. split; [exact Hm|].
    destruct (endpoints_capture _ _ Hm) as (num & -> & Hd).
    unfold group in *. simpl nth in *.
    rewrite (py_int_digits num Hd) in He.
    now destruct (too_long num).
  - intros (m & Hm & Hlong). exists m, ValueError. split; [exact Hm|].
    destruct (endpoints_capture _ _ Hm) as (num & -> & Hd).
    unfold group in *. simpl nth in *. now apply py_int_long.
Qed.

Lemma row_rejected_iff (k : resource_kind) (content : string) :
  rejects (row_re (row_label k)) resource_of_match content <->
  exists m, re_search (row_re (row_label k)) content = Some m /\
            too_long (group 1 m) || too_long (group 2 m)
            || malformed (group 3 m) = true.
Proof.
  unfold rejects. split.
  - intros (m & e & Hm & He). exists m. split; [exact Hm|].
    destruct (row_capture _ _ _ Hm) as (u & a & p & -> & Hu & Ha & Hp & _).
    rewrite (resource_of_match_row u a p Hu Ha) in He.
    unfold group. simpl nth.
    destruct (too_long u || too_long a); [reflexivity|].
    destruct (py_float p) as [v|e'] eqn:Hv; [discriminate|].
    pose proof (py_float_raise _ _ Hv) as ->.
    apply float_rejects_malformed in Hv; [exact Hv|].
    exact (all_chars_weaken _ _ _ digit_or_dot_is_signed Hp).
  - intros (m & Hm & Hbad). exists m, ValueError. split; [exact Hm|].
    destruct (row_capture _ _ _ Hm) as (u & a & p & -> & Hu & Ha & Hp & _).
    rewrite (resource_of_match_row u a p Hu Ha).
    unfold group in Hbad. simpl nth in Hbad.
    destruct (too_long u || too_long a); [reflexivity|].
    simpl in Hbad. apply float_rejects_malformed in Hbad.
    + now rewrite Hbad.
    + exact (all_chars_weaken _ _ _ digit_or_dot_is_signed Hp).
Qed.
Lemma power_rejected_iff (k : power_kind) (content : string) :
  rejects (power_re (power_label k)) (float_group 1) content <->
  exists m, re_search (power_re (power_label k)) content = Some m /\
            malformed (group 1 m) = true.
Proof.
  apply capture_rejected_iff. intros m Hm.
  destruct (power_capture _ _ _ Hm) as (p & -> & Hp & _).
  exact (all_chars_weaken _ _ _ digit_or_dot_is_signed Hp).
Qed.

(** A parser raises exactly when one of its conversions rejects what the
    first match of a pattern captured. *)
Lemma timing_raises_iff (content : string) :
  (exists e, parse_timing_report content = Raise e) <->
  timing_rejects content.
Proof.
  pose proof (timing_report_outcome content) as Hy. split.
  - intros [e He]. now rewrite He in Hy.
  - intros Hrej.
    destruct (parse_timing_report content) as [r|e]; [exfalso | eauto].
    destruct Hy as (Hf & _ & n & Hn & _).
    destruct Hrej as [(f & Hrej) | Hrej];
      apply rejects_extract in Hrej as [e He].
    + specialize (Hf f). congruence.
    + congruence.
Qed.

Lemma utilization_raises_iff (content : string) :
  (exists e, parse_utilization_report content = Raise e) <->
  utilization_rejects content.
Proof.
  pose proof (utilization_report_outcome content) as Hy. split.
  - intros [e He]. now rewrite He in Hy.
  - intros (k & Hrej).
    destruct (parse_utilization_report content) as [r|e]; [exfalso | eauto].
    destruct (Hy k) as (o & Ho & _).
    apply rejects_extract in Hrej as [e He]. congruence.
Qed.

Lemma power_raises_iff (content : string) :
  (exists e, parse_power_report content = Raise e) <->
  power_rejects content.
Proof.
  pose proof (power_report_outcome content) as Hy. split.
  - intros [e He]. now rewrite He in Hy.
  - intros (k & Hrej).
    destruct (parse_power_report content) as [r|e]; [exfalso | eauto].
    destruct Hy as (_ & Hk). destruct (Hk k) as (o & Ho & _).
    apply rejects_extract in Hrej as [e He]. congruence.
Qed.

(** X14.  A parser raises exactly when the first match of one of its
    patterns captured a text that its conversion rejects: for [float], a
    slack, a percentage or a power that is malformed (a minus sign after
    its first character, two decimal points or more, or no digit); for
    [int], a count of more than [max_str_digits] digits. *)
Theorem parsers_raise_on_malformed_numbers (content : string) :
  ((exists e, parse_timing_report content = Raise e) <->
   (exists f m, re_search (slack_re (slack_label f)) content = Some m /\
                malformed (group 1 m) = true) \/
   (exists m, re_search endpoints_re content = Some m /\
              too_long (group 1 m) = true)) /\
  ((exists e, parse_utilization_report content = Raise e) <->
   exists k m, re_search (row_re (row_label k)) content = Some m /\
               too_long (group 1 m) || too_long (group 2 m)
               || malformed (group 3 m) = true) /\
  ((exists e, parse_power_report content = Raise e) <->
   exists k m, re_search (power_re (power_label k)) content = Some m /\
               malformed (group 1 m) = true).
Proof.
  split; [|split].
  - rewrite timing_raises_iff. unfold timing_rejects.
    rewrite endpoints_rejected_iff.
    split; (intros [(f & H) | H]; [left; exists f | now right]);
      now apply slack_rejected_iff.
  - rewrite utilization_raises_iff. unfold utilization_rejects.
    split; intros (k & H); exists k; now apply row_rejected_iff.
  - rewrite power_raises_iff. unfold power_rejects.
    split; intros (k & H); exists k; now apply power_rejected_iff.
Qed.

(** * The exported document read back *)

(** ** Escaped strings *)

Lemma unescape_escape_char (c : ascii) (t : string) :
  unescape (escape_char c ++ t)
  = (r <- unescape t ;; Ok (String c r)).
Proof.
  destruct c as [[] [] [] [] [] [] [] []]; reflexivity.
Qed.

Lemma unescape_escape (s : string) : unescape (escape s) = Ok s.
Proof.
  induction s as [|c s IH]; [reflexivity|].
  cbn [escape]. rewrite unescape_escape_char, IH. reflexivity.
Qed.

(** ** Integers *)

Lemma uint_digits (d : Decimal.uint) :
  all_chars is_digit (NilEmpty.string_of_uint d) = true.
Proof. induction d; simpl; trivial. Qed.


Lemma uint_value_acc (d : Decimal.uint) (acc : positive) :
  digits_value (Zpos acc) (NilEmpty.string_of_uint d)
  = Zpos (Pos.of_uint_acc d acc).
Proof.
  revert acc. induction d; intros acc; cbn [NilEmpty.string_of_uint
    digits_value Pos.of_uint_acc]; [reflexivity|..];
    rewrite <- IHd;
    apply (f_equal (fun a => digits_value a (NilEmpty.string_of_uint d)));
    match goal with
    | |- context [digit_value ?c] =>
        let v := eval vm_compute in (digit_value c) in
        change (digit_value c) with v
    end; lia.
Qed.

Lemma uint_value (d : Decimal.uint) :
  digits_value 0 (NilEmpty.string_of_uint d) = Z.of_N (Pos.of_uint d).
Proof.
  induction d; cbn [NilEmpty.string_of_uint digits_value Pos.of_uint];
    [reflexivity | exact IHd |..];
    cbn [Z.of_N]; rewrite <- uint_value_acc; reflexivity.
Qed.


(** The text of a natural number: digits without a zero in front, unless
    the text is [0]. *)
Lemma str_of_N (n : N) :
  str_of_Z (Z.of_N n) = NilEmpty.string_of_uint (N.to_uint n) /\
  N.to_uint n <> Decimal.Nil /\
  Decimal.unorm (N.to_uint n) = N.to_uint n.
Proof.
  split; [|split].
  - destruct n as [|p]; [reflexivity|].
    unfold str_of_Z. cbn [Z.of_N Z.to_int NilZero.string_of_int N.to_uint].
    unfold NilZero.string_of_uint.
    destruct (Pos.to_uint p) eqn:E; try reflexivity.
    now destruct (DecimalPos.Unsigned.to_uint_nonnil p).
  - destruct n as [|p]; [discriminate|].
    apply DecimalPos.Unsigned.to_uint_nonnil.
  - rewrite <- DecimalN.Unsigned.to_of.
    now rewrite DecimalN.Unsigned.of_to.
Qed.

Lemma str_of_N_digits (n : N) : digits (str_of_Z (Z.of_N n)) = true.
Proof.
  destruct (str_of_N n) as (-> & Hne & _).
  apply digits_spec. split; [apply uint_digits|].
  destruct (N.to_uint n); [congruence | discriminate..].
Qed.

Lemma str_of_N_value (n : N) :
  digits_value 0 (str_of_Z (Z.of_N n)) = Z.of_N n.
Proof.
  destruct (str_of_N n) as (-> & _ & _).
  rewrite uint_value. change Pos.of_uint with N.of_uint.
  now rewrite DecimalN.Unsigned.of_to.
Qed.

Lemma nzhead_not_zero (d u : Decimal.uint) :
  Decimal.nzhead d <> Decimal.D0 u.
Proof. induction d; simpl; try discriminate. exact IHd. Qed.

Lemma unorm_int_part (d : Decimal.uint) :
  Decimal.unorm d = d -> int_part_ok (NilEmpty.string_of_uint d) = true.
Proof.
  destruct d; try reflexivity.
  - discriminate.
  - unfold Decimal.unorm. cbn [Decimal.nzhead NilEmpty.string_of_uint].
    intros H. assert (Hd : d = Decimal.Nil).
    { destruct (Decimal.nzhead d) eqn:E; try discriminate H.
      - now injection H as <-.
      - now destruct (nzhead_not_zero d u). }
    subst d. reflexivity.
Qed.

Lemma str_of_negative (p : positive) :
  str_of_Z (Zneg p) = String "-" (str_of_Z (Zpos p)).
Proof. reflexivity. Qed.

(** [int] reads the text of an integer that [int.__repr__] took. *)
Lemma py_int_repr (z : Z) (s : string) :
  int_repr z = Ok s -> py_int s = Ok z.
Proof.
  unfold int_repr. destruct (too_long (str_of_Z (Z.abs z))) eqn:Hl;
    [discriminate|].
  intros [= <-]. destruct z as [|p|p].
  - reflexivity.
  - change (Z.abs (Zpos p)) with (Z.of_N (Npos p)) in Hl.
    change (Zpos p) with (Z.of_N (Npos p)).
    rewrite (py_int_short _ (str_of_N_digits _) Hl).
    now rewrite str_of_N_value.
  - change (Z.abs (Zneg p)) with (Z.of_N (Npos p)) in Hl.
    rewrite str_of_negative. unfold py_int. cbn [strip_sign].
    change (Zpos p) with (Z.of_N (Npos p)).
    pose proof (str_of_N_digits (Npos p)) as Hd.
    apply digits_spec in Hd as [Hall Hne].
    rewrite Hall, (is_empty_false _ Hne), Hl. cbn [negb andb].
    now rewrite str_of_N_value.
Qed.

Lemma span_all_chars (p : ascii -> bool) (s : string) :
  all_chars p s = true -> span p s = (s, "").
Proof.
  intros H. rewrite <- (append_nil_r s) at 1. now apply span_run.
Qed.

(** The decoder reads digits without a fraction or an exponent, and a
    minus sign before them, with [int]. *)
Lemma load_number_digits (s : string) :
  digits s = true -> int_part_ok s = true ->
  load_number s = (z <- py_int s ;; Ok (JInt z)) /\
  load_number (String "-" s) = (z <- py_int (String "-" s) ;; Ok (JInt z)).
Proof.
  intros Hd Hi. apply digits_spec in Hd as [Hall Hne].
  pose proof (span_all_chars is_digit s Hall) as Hs.
  destruct s as [|c t]; [congruence|].
  pose proof Hall as Hc. cbn [all_chars] in Hc.
  apply andb_true_iff in Hc as [Hc _].
  destruct c as [[] [] [] [] [] [] [] []]; try discriminate Hc;
    unfold load_number; cbn [String.eqb Ascii.eqb Bool.eqb];
    rewrite Hs, Hi; split; reflexivity.
Qed.

Lemma load_number_int (z : Z) (s : string) :
  int_repr z = Ok s -> load_number s = Ok (JInt z).
Proof.
  intros H. pose proof (py_int_repr z s H) as Hp.
  unfold int_repr in H. destruct (too_long (str_of_Z (Z.abs z)));
    [discriminate|]. injection H as <-.
  assert (Hn : forall n, digits (str_of_Z (Z.of_N n)) = true /\
                         int_part_ok (str_of_Z (Z.of_N n)) = true).
  { intros n. split; [apply str_of_N_digits|].
    destruct (str_of_N n) as (-> & _ & Hu). now apply unorm_int_part. }
  destruct z as [|p|p].
  - reflexivity.
  - destruct (Hn (Npos p)) as [Hd Hi].
    destruct (load_number_digits _ Hd Hi) as [Hl _].
    change (Z.of_N (N.pos p)) with (Z.pos p) in Hl. now rewrite Hl, Hp.
  - destruct (Hn (Npos p)) as [Hd Hi].
    destruct (load_number_digits _ Hd Hi) as [_ Hl].
    rewrite str_of_negative in *.
    change (Z.of_N (N.pos p)) with (Z.pos p) in Hl. now rewrite Hl, Hp.
Qed.

(** ** Values and their documents *)

Lemma json_nested_ind (P : json -> Prop) :
  P JNull ->
  (forall z, P (JInt z)) ->
  (forall f, P (JFloat f)) ->
  (forall s, P (JString s)) ->
  (forall ms, Forall (fun kv => P (snd kv)) ms -> P (JObject ms)) ->
  forall j, P j.
Proof.
  intros Hn Hi Hf Hs Ho. fix F 1.
  intros [ | z | f | s | ms];
    [exact Hn | apply Hi | apply Hf | apply Hs | apply Ho].
  induction ms as [|[k v] ms IH]; constructor; [apply F | exact IH].
Qed.

Lemma all_values_Forall (P : json -> Prop) (ms : list (string * json)) :
  all_values P ms <-> Forall (fun kv => P (snd kv)) ms.
Proof.
  induction ms as [|[k v] ms IH]; simpl.
  - split; [constructor | trivial].
  - rewrite IH. split.
    + intros [H1 H2]. now constructor.
    + intros H. inversion H; subst. now split.
Qed.

Lemma floats_object (ms : list (string * json)) :
  floats (JObject ms) = flat_map (fun kv => floats (snd kv)) ms.
Proof.
  cbn [floats]. apply flat_map_ext. now intros [k v].
Qed.

Lemma ints_object (ms : list (string * json)) :
  ints (JObject ms) = flat_map (fun kv => ints (snd kv)) ms.
Proof.
  cbn [ints]. apply flat_map_ext. now intros [k v].
Qed.

Lemma dump_members_cons (k : string) (v : json)
    (ms : list (string * json)) :
  dump_members json_dump ((k, v) :: ms)
  = (d <- json_dump v ;;
     rest <- dump_members json_dump ms ;;
     Ok ((escape k, d) :: rest)).
Proof. reflexivity. Qed.

Lemma load_members_cons (k : string) (v : doc) (ms : list (string * doc))
    (d : dict json) :
  load_members json_load ((k, v) :: ms) d
  = (key <- unescape k ;;
     value <- json_load v ;;
     load_members json_load ms (dict_set key value d)).
Proof. reflexivity. Qed.

Lemma json_dump_object (ms : list (string * json)) :
  json_dump (JObject ms)
  = (ms' <- dump_members json_dump ms ;; Ok (DObject ms')).
Proof. reflexivity. Qed.

Lemma json_load_object (ms : list (string * doc)) :
  json_load (DObject ms)
  = (d <- load_members json_load ms [] ;; Ok (JObject d)).
Proof. reflexivity. Qed.

(** The members read one after the other are the members written, when
    no key comes twice. *)
Lemma load_dump_members (ms : list (string * json)) :
  Forall (fun kv => forall d, json_dump (snd kv) = Ok d ->
                              json_load d = Ok (snd kv)) ms ->
  forall (acc : dict json) (ds : list (string * doc)),
    NoDup (map fst (acc ++ ms)) ->
    dump_members json_dump ms = Ok ds ->
    load_members json_load ds acc = Ok (acc ++ ms)%list.
Proof.
  induction 1 as [|[k v] ms Hv _ IH]; intros acc ds Hnd Hd.
  - injection Hd as <-. simpl. now rewrite app_nil_r.
  - rewrite dump_members_cons in Hd.
    destruct (json_dump v) as [d|] eqn:Hdv; [|discriminate].
    destruct (dump_members json_dump ms) as [rest|] eqn:Hr; [|discriminate].
    simpl in Hd. injection Hd as <-.
    rewrite load_members_cons, unescape_escape. simpl in Hv |- *.
    rewrite (Hv d Hdv). simpl.
    rewrite dict_set_fresh.
    + rewrite (IH (acc ++ [(k, v)])%list rest); trivial.
      * now rewrite <- app_assoc.
      * now rewrite <- app_assoc.
    + rewrite map_app in Hnd. simpl in Hnd.
      apply NoDup_remove_2 in Hnd. intros Hin. apply Hnd.
      apply in_or_app. now left.
Qed.

(** The decoder reads the document of a value as the value. *)
Lemma json_load_dump (j : json) :
  well_keyed j -> Forall reads_back (floats j) ->
  forall d, json_dump j = Ok d -> json_load d = Ok j.
Proof.
  induction j as [ | z | f | s | ms IH] using json_nested_ind;
    intros Hk Hf d Hd.
  - now injection Hd as <-.
  - cbn [json_dump] in Hd.
    destruct (int_repr z) as [t|] eqn:E; [|discriminate].
    injection Hd as <-. cbn [json_load]. now apply load_number_int.
  - injection Hd as <-. cbn [json_load]. now inversion Hf.
  - injection Hd as <-. cbn [json_load]. now rewrite unescape_escape.
  - rewrite json_dump_object in Hd.
    destruct (dump_members json_dump ms) as [ds|] eqn:E; [|discriminate].
    injection Hd as <-. rewrite json_load_object.
    destruct Hk as [Hnd Hk]. apply all_values_Forall in Hk.
    rewrite floats_object in Hf. apply Forall_flat_map in Hf.
    rewrite (load_dump_members ms) with (acc := []) (ds := ds); trivial.
    rewrite Forall_forall in *. intros kv Hin. apply IH; auto.
Qed.

(** The encoder takes a value whose integers [int.__repr__] takes. *)
Lemma json_dump_writable (j : json) :
  Forall writable (ints j) -> exists d, json_dump j = Ok d.
Proof.
  induction j as [ | z | f | s | ms IH] using json_nested_ind; intros Hw;
    try (eexists; reflexivity).
  - inversion Hw as [|? ? Hz _]; subst. cbn [json_dump]. unfold int_repr.
    unfold writable in Hz. rewrite Hz. simpl. eauto.
  - rewrite json_dump_object. rewrite ints_object in Hw.
    apply Forall_flat_map in Hw.
    assert (Hm : exists ds, dump_members json_dump ms = Ok ds).
    { induction ms as [|[k v] ms IHms]; [now exists []|].
      inversion IH as [|? ? Hv IH']; subst.
      inversion Hw as [|? ? Hwv Hw']; subst.
      destruct (Hv Hwv) as [d Hd]. destruct (IHms IH' Hw') as [ds Hds].
      rewrite dump_members_cons. simpl in Hd. rewrite Hd, Hds. simpl. eauto. }
    destruct Hm as [ds ->]. simpl. eauto.
Qed.

(** ** Equality of values *)




(** ** The values that the collector returns *)











Lemma json_dump_ok_writable (j : json) (d : doc) :
  json_dump j = Ok d -> Forall writable (ints j).
Proof.
  revert d.
  induction j as [ | z | f | s | ms IH] using json_nested_ind; intros d Hd;
    try constructor.
  - cbn [json_dump] in Hd. unfold int_repr in Hd. unfold writable.
    now destruct (too_long (str_of_Z (Z.abs z))).
  - constructor.
  - rewrite json_dump_object in Hd. rewrite ints_object.
    apply Forall_flat_map.
    destruct (dump_members json_dump ms) as [ds|] eqn:E; [|discriminate].
    clear Hd. revert ds E.
    induction ms as [|[k v] ms IHms]; intros ds E; constructor.
    + inversion IH as [|? ? Hv _]; subst. rewrite dump_members_cons in E.
      destruct (json_dump v) as [dv|] eqn:Ev; [|discriminate].
      now apply (Hv dv).
    + inversion IH as [|? ? _ IH']; subst. rewrite dump_members_cons in E.
      destruct (json_dump v) as [dv|]; [|discriminate].
      destruct (dump_members json_dump ms) as [rest|] eqn:Er;
        [|discriminate].
      now apply (IHms IH' rest).
Qed.

(** On floats of every notation, [float_repr] writes the text that
    [float.__repr__] writes, and the decoder reads it as the float. *)
Lemma float_examples_read_back :
  Forall (fun p => float_text (fst p) = snd p /\ reads_back (fst p))
    float_examples.
Proof.
  repeat (constructor; [split; vm_compute; reflexivity|]). constructor.
Qed.



(** X16.  For any value whose objects have distinct keys and whose
    floats [float.__repr__] writes as texts that are read as them,
    [json.load] of the document that [json.dump] wrote returns the value;
    and [json.dump] writes a document exactly when every integer of the
    value has no more digits than [int.__repr__] takes. *)
Theorem dumped_value_loads (j : json) :
  well_keyed j ->
  Forall reads_back (floats j) ->
  (forall document, json_dump j = Ok document -> json_load document = Ok j) /\
  ((exists document, json_dump j = Ok document) <-> Forall writable (ints j)).
Proof.
  intros Hk Hf. split; [now apply json_load_dump|]. split.
  - intros [d Hd]. now apply json_dump_ok_writable in Hd.
  - apply json_dump_writable.
Qed.

Lemma dumped_value_loads_witness :
  exists document,
    json_dump value_example = Ok document /\
    json_load document = Ok value_example.
Proof.
  assert (Hk : well_keyed value_example).
  { repeat split; repeat constructor; simpl; intuition discriminate. }
  assert (Hf : Forall reads_back (floats value_example)).
  { repeat (constructor; [vm_compute; reflexivity|]). constructor. }
  destruct (dumped_value_loads value_example Hk Hf) as [Hl Hw].
  destruct (proj2 Hw) as [document Hd].
  - repeat constructor.
  - exists document. split; [exact Hd | exact (Hl document Hd)].
Defined.
